(** * William-Paint (claudepaint.py): selection engine, flood fill and undo log

    A shallow embedding of the parts of [claudepaint.py] that select, move,
    resize, rotate and recommit a rectangular region of the raster buffer,
    of the two flood fills, of the colour picker and of the undo/redo log,
    of the clipboard operations, the canvas operations (clear, resize,
    flip), the zoom and the widget coordinates, the trim of the resize
    dialog, the palette's recent colours and the cursors of the selection
    tool, followed by the properties proved about them.

    Conventions of the embedding.
    - Python [int] is [Z]; Python [float] is an exact rational [Q] (rounding
      of binary64 is not modelled; [int(f)] truncates toward zero).
    - A [QImage]/[QPixmap] is its size, whether its format has an alpha
      channel, and the colour read at every coordinate.  Qt's premultiplied
      storage is not modelled: a pixel is the [QColor] that [pixelColor]
      reads and [setPixelColor] writes.
    - Qt services whose result depends on the platform or on Qt's resampling
      and rasterising code are fields of the class [QtRaster].
    - A Python list used as a stack keeps Python's order: [append] adds at
      the end, [pop()] removes the last element, [pop(0)] the first.
    - The widget calls [update()], the signals and the size label are not
      part of the state and are left out.
    - The system clipboard is passed to and returned by the functions that
      write it. *)

From Stdlib Require Import ZArith QArith Qround Qabs Lia Ascii String.
From stdpp Require Import gmap list strings.

Local Open Scope Z_scope.

(** ** Qt value types *)

Record QColor := mkQColor { red : Z; green : Z; blue : Z; alpha : Z }.

#[export] Instance QColor_eq_dec : EqDecision QColor.
Proof. solve_decision. Defined.

(** [QColor.rgba()]: the 32-bit value [0xAARRGGBB] ([qRgba]). *)
Definition rgba (c : QColor) : Z :=
  Z.lor (Z.shiftl (Z.land (alpha c) 255) 24)
    (Z.lor (Z.shiftl (Z.land (red c) 255) 16)
       (Z.lor (Z.shiftl (Z.land (green c) 255) 8) (Z.land (blue c) 255))).

Definition Qt_transparent : QColor := mkQColor 0 0 0 0.
Definition Qt_white : QColor := mkQColor 255 255 255 255.
Definition Qt_black : QColor := mkQColor 0 0 0 255.
(** The invalid colour that [pixelColor] returns outside the image. *)
Definition QColor_invalid : QColor := mkQColor 0 0 0 255.

Record QPoint := mkQPoint { pt_x : Z; pt_y : Z }.
Record QPointF := mkQPointF { ptf_x : Q; ptf_y : Q }.

(** [QRect] as Qt 5 stores it: the two corners, both inclusive. *)
Record QRect := mkQRect { x1 : Z; y1 : Z; x2 : Z; y2 : Z }.

Definition QRect_null : QRect := mkQRect 0 0 (-1) (-1).
Definition QRect_of_points (tl br : QPoint) : QRect :=
  mkQRect (pt_x tl) (pt_y tl) (pt_x br) (pt_y br).
Definition QRect_xywh (x y w h : Z) : QRect := mkQRect x y (x + w - 1) (y + h - 1).
Definition rect_x (r : QRect) : Z := x1 r.
Definition rect_y (r : QRect) : Z := y1 r.
Definition rect_width (r : QRect) : Z := x2 r - x1 r + 1.
Definition rect_height (r : QRect) : Z := y2 r - y1 r + 1.
Definition rect_topLeft (r : QRect) : QPoint := mkQPoint (x1 r) (y1 r).
Definition rect_isEmpty (r : QRect) : bool := (x2 r <? x1 r) || (y2 r <? y1 r).

(** [QRect::normalized()] of Qt 5: a side is swapped when it is "bad". *)
Definition normalized (r : QRect) : QRect :=
  let '(a1, a2) := if x2 r <? x1 r - 1 then (x2 r, x1 r) else (x1 r, x2 r) in
  let '(b1, b2) := if y2 r <? y1 r - 1 then (y2 r, y1 r) else (y1 r, y2 r) in
  mkQRect a1 b1 a2 b2.

(** [QRect::center()]: integer midpoint, C++ division (toward zero). *)
Definition rect_center (r : QRect) : QPoint :=
  mkQPoint (Z.quot (x1 r + x2 r) 2) (Z.quot (y1 r + y2 r) 2).

(** [QRect::moveCenter(p)]. *)
Definition moveCenter (r : QRect) (p : QPoint) : QRect :=
  let w := x2 r - x1 r in
  let h := y2 r - y1 r in
  let nx := pt_x p - Z.quot w 2 in
  let ny := pt_y p - Z.quot h 2 in
  mkQRect nx ny (nx + w) (ny + h).

Definition rect_contains (r : QRect) (x y : Z) : bool :=
  (x1 r <=? x) && (x <=? x2 r) && (y1 r <=? y) && (y <=? y2 r).

(** [QRect::intersected]. *)
Definition intersected (a b : QRect) : QRect :=
  if rect_isEmpty a || rect_isEmpty b then QRect_null
  else
    let r := mkQRect (Z.max (x1 a) (x1 b)) (Z.max (y1 a) (y1 b))
                     (Z.min (x2 a) (x2 b)) (Z.min (y2 a) (y2 b)) in
    if rect_isEmpty r then QRect_null else r.

(** ** Images and pixmaps *)

Record QPixmap := mkQPixmap {
  pm_width : Z;
  pm_height : Z;
  pm_alpha : bool;                 (* hasAlphaChannel() *)
  pm_pixel : Z -> Z -> QColor      (* colour at (x, y) *)
}.

Definition in_bounds (w h x y : Z) : bool :=
  (0 <=? x) && (x <? w) && (0 <=? y) && (y <? h).

Definition pm_rect (pm : QPixmap) : QRect := QRect_xywh 0 0 (pm_width pm) (pm_height pm).
Definition isNull (pm : QPixmap) : bool := (pm_width pm <=? 0) || (pm_height pm <=? 0).
Definition hasAlphaChannel (pm : QPixmap) : bool := pm_alpha pm.

(** [img.pixelColor(x, y)]. *)
Definition pixelColor (img : QPixmap) (x y : Z) : QColor :=
  if in_bounds (pm_width img) (pm_height img) x y then pm_pixel img x y
  else QColor_invalid.

(** [img.setPixelColor(x, y, c)]; Qt ignores a coordinate outside the image. *)
Definition setPixelColor (img : QPixmap) (x y : Z) (c : QColor) : QPixmap :=
  if in_bounds (pm_width img) (pm_height img) x y then
    mkQPixmap (pm_width img) (pm_height img) (pm_alpha img)
      (fun x' y' => if (x' =? x) && (y' =? y) then c else pm_pixel img x' y')
  else img.

(** All coordinates of a [w] x [h] image, row by row. *)
Definition coords (w h : Z) : list (Z * Z) :=
  y ← seqZ 0 h; x ← seqZ 0 w; [(x, y)].

(** [pixmap.toImage()]: same content, same format. *)
Definition toImage (pm : QPixmap) : QPixmap := pm.

(** [QPixmap.fromImage(img)]: Qt keeps the alpha channel only when the image
    has one and some pixel is not opaque. *)
Definition fromImage (img : QPixmap) : QPixmap :=
  mkQPixmap (pm_width img) (pm_height img)
    (pm_alpha img &&
       existsb (fun p => negb (alpha (pm_pixel img p.1 p.2) =? 255))
               (coords (pm_width img) (pm_height img)))
    (pm_pixel img).

(** [pixmap.copy()]. *)
Definition copy (pm : QPixmap) : QPixmap := pm.

(** [pixmap.copy(rect)]: Qt clips a non-empty [rect] to the pixmap; an empty
    [rect] means the whole pixmap. *)
Definition copy_rect (pm : QPixmap) (rect : QRect) : QPixmap :=
  let r := if rect_isEmpty rect then pm_rect pm else intersected (pm_rect pm) rect in
  mkQPixmap (rect_width r) (rect_height r) (pm_alpha pm)
    (fun x y => pm_pixel pm (rect_x r + x) (rect_y r + y)).

(** Services of Qt that the embedding does not define. *)
Class QtRaster := {
  (** whether the platform's native pixmap format has an alpha channel *)
  native_has_alpha : bool;
  (** [CompositionMode_SourceOver] of a partly transparent source colour
      over a destination colour *)
  blend : QColor -> QColor -> QColor;
  (** [pm.scaled(w, h, Qt.IgnoreAspectRatio, Qt.SmoothTransformation)] *)
  scaled_pixels : QPixmap -> Z -> Z -> Z -> Z -> QColor;
  (** the pixels that [SelectionTool._render_rotated] paints: source, target
      width and height, angle, output width and height, coordinate *)
  rotated_pixels : QPixmap -> Z -> Z -> Q -> Z -> Z -> Z -> Z -> QColor;
  (** [QTransform().rotate(angle).mapRect(QRectF(-w/2, -h/2, w, h))]: width
      and height of the bounding box *)
  rotated_bbox : Q -> Z -> Z -> Q * Q;
  (** [math.cos(math.radians(a))] and [math.sin(math.radians(a))] *)
  cos_deg : Q -> Q;
  sin_deg : Q -> Q;
  (** [math.degrees(math.atan2(dy, dx))] *)
  atan2_deg : Q -> Q -> Q;
  (** whether the rasteriser puts pixel (x, y) inside the closed polygon
      given to [setClipPath] (antialiasing off) *)
  clip_covers : list QPointF -> Z -> Z -> bool;
  (** the colour that [drawPixmap(QPointF, pm)] offers to pixel (x, y) of
      the paint device, [None] where the drawn pixmap does not reach *)
  draw_at : QPointF -> QPixmap -> Z -> Z -> option QColor
}.

Section Painting.
Context `{QtRaster}.

(** [CompositionMode_SourceOver] (the painter's default) on one pixel. *)
Definition source_over (src dst : QColor) : QColor :=
  if alpha src =? 255 then src
  else if alpha src =? 0 then dst
  else blend src dst.

(** [QPixmap(w, h)] followed by [fill(c)]. *)
Definition QPixmap_filled (w h : Z) (c : QColor) : QPixmap :=
  mkQPixmap w h (native_has_alpha || negb (alpha c =? 255)) (fun _ _ => c).

(** [pm.fill(c)] on an existing pixmap. *)
Definition fill (pm : QPixmap) (c : QColor) : QPixmap :=
  mkQPixmap (pm_width pm) (pm_height pm)
    (pm_alpha pm || negb (alpha c =? 255)) (fun _ _ => c).

(** [QPainter(pm).fillRect(rect, c)] with the default composition mode. *)
Definition fillRect (pm : QPixmap) (rect : QRect) (c : QColor) : QPixmap :=
  mkQPixmap (pm_width pm) (pm_height pm) (pm_alpha pm)
    (fun x y => if rect_contains rect x y then source_over c (pm_pixel pm x y)
                else pm_pixel pm x y).

(** [drawPixmap(x0, y0, src)] under [CompositionMode_Source]: the pixels
    of [src] replace those of the device where [src] lies. *)
Definition drawPixmap_source (pm : QPixmap) (x0 y0 : Z) (src : QPixmap) : QPixmap :=
  mkQPixmap (pm_width pm) (pm_height pm) (pm_alpha pm)
    (fun x y => if in_bounds (pm_width src) (pm_height src) (x - x0) (y - y0)
                then pm_pixel src (x - x0) (y - y0)
                else pm_pixel pm x y).

(** [drawPixmap(0, 0, src)] with the default composition mode. *)
Definition drawPixmap_over (pm : QPixmap) (src : QPixmap) : QPixmap :=
  mkQPixmap (pm_width pm) (pm_height pm) (pm_alpha pm)
    (fun x y => if in_bounds (pm_width src) (pm_height src) x y
                then source_over (pm_pixel src x y) (pm_pixel pm x y)
                else pm_pixel pm x y).

(** [pm.scaled(w, h, ...)]. *)
Definition scaled (pm : QPixmap) (w h : Z) : QPixmap :=
  mkQPixmap w h (pm_alpha pm) (scaled_pixels pm w h).
End Painting.

(** ** Mouse events as the canvas hands them to a tool *)

Inductive MouseButton := LeftButton | RightButton | MiddleButton.

#[export] Instance MouseButton_eq_dec : EqDecision MouseButton.
Proof. solve_decision. Defined.

Record MouseEvent := mkMouseEvent {
  ev_pos : QPoint;          (* event.pos(), in buffer coordinates *)
  ev_button : MouseButton;  (* event.button() *)
  ev_shift : bool           (* event.modifiers() & Qt.ShiftModifier *)
}.

(** ** Canvas: the raster buffer and the undo/redo log *)

Definition MAX_UNDO : nat := 50.

(** Python's [l.pop()]: the list without its last element, and that element;
    [None] on the empty list. *)
Definition list_pop {A} (l : list A) : option (list A * A) :=
  match reverse l with
  | [] => None
  | x :: r => Some (reverse r, x)
  end.

Module Canvas.

Record t := mk {
  _pixmap : QPixmap;
  fg_color : QColor;
  bg_color : QColor;
  zoom : Q;
  _modified : bool;
  _undo_stack : list QPixmap;
  _redo_stack : list QPixmap
}.

(** The [pixmap] property: getter. *)
Definition pixmap (c : t) : QPixmap := _pixmap c.

Definition with_pixmap (c : t) (pm : QPixmap) : t :=
  mk pm (fg_color c) (bg_color c) (zoom c) (_modified c) (_undo_stack c) (_redo_stack c).
Definition with_stacks (c : t) (u r : list QPixmap) : t :=
  mk (_pixmap c) (fg_color c) (bg_color c) (zoom c) (_modified c) u r.
Definition with_fg (c : t) (col : QColor) : t :=
  mk (_pixmap c) col (bg_color c) (zoom c) (_modified c) (_undo_stack c) (_redo_stack c).
Definition with_bg (c : t) (col : QColor) : t :=
  mk (_pixmap c) (fg_color c) col (zoom c) (_modified c) (_undo_stack c) (_redo_stack c).

Definition set_modified (c : t) (val : bool) : t :=
  mk (_pixmap c) (fg_color c) (bg_color c) (zoom c) val (_undo_stack c) (_redo_stack c).

Section WithQt.
Context `{QtRaster}.

(** The [pixmap] property: setter.  A pixmap without alpha channel is
    drawn onto a transparent pixmap of its size, and that one is kept. *)
Definition set_pixmap (c : t) (pm : QPixmap) : t :=
  if negb (hasAlphaChannel pm) then
    let alpha_pm := QPixmap_filled (pm_width pm) (pm_height pm) Qt_transparent in
    with_pixmap c (drawPixmap_over alpha_pm pm)
  else with_pixmap c pm.

(** [Canvas.__init__(width, height)]. *)
Definition init (width height : Z) : t :=
  let pm := QPixmap_filled width height Qt_transparent in
  let pm := fillRect pm (QRect_xywh 0 0 width height) Qt_white in
  mk pm Qt_black Qt_white 1%Q false [] [].

Definition save_undo (c : t) : t :=
  let stack := _undo_stack c ++ [copy (pixmap c)] in
  let stack := if decide (MAX_UNDO < length stack)%nat then tail stack else stack in
  with_stacks c stack [].

Definition undo (c : t) : t :=
  match list_pop (_undo_stack c) with
  | None => c
  | Some (rest, top) =>
      let c := with_stacks c rest (_redo_stack c ++ [copy (pixmap c)]) in
      let c := set_pixmap c top in
      set_modified c true
  end.

Definition redo (c : t) : t :=
  match list_pop (_redo_stack c) with
  | None => c
  | Some (rest, top) =>
      let c := with_stacks c (_undo_stack c ++ [copy (pixmap c)]) rest in
      let c := set_pixmap c top in
      set_modified c true
  end.

(** [Canvas.load_image] once the file has been decoded to [img]. *)
Definition load_image (c : t) (img : QPixmap) : t :=
  if isNull img then c
  else
    let c := set_pixmap c (fromImage img) in
    let c := with_stacks c [] [] in
    set_modified c false.

Definition new_canvas (c : t) (w h : Z) : t :=
  let c := set_pixmap c (QPixmap_filled w h Qt_transparent) in
  let c := with_pixmap c (fillRect (pixmap c) (QRect_xywh 0 0 w h) Qt_white) in
  let c := with_stacks c [] [] in
  set_modified c false.
End WithQt.

(** What a session does to the canvas as far as the log is concerned: the
    three log operations, the two resets, a tool painting on the buffer in
    place, and a tool assigning a new pixmap through the [pixmap]
    property. *)
Inductive op :=
| OpSaveUndo
| OpUndo
| OpRedo
| OpLoadImage (img : QPixmap)
| OpNewCanvas (w h : Z)
| OpPaint (f : (Z -> Z -> QColor) -> Z -> Z -> QColor)
| OpSetPixmap (pm : QPixmap).

Section Run.
Context `{QtRaster}.

Definition step (c : t) (o : op) : t :=
  match o with
  | OpSaveUndo => save_undo c
  | OpUndo => undo c
  | OpRedo => redo c
  | OpLoadImage img => load_image c img
  | OpNewCanvas w h => new_canvas c w h
  | OpPaint f =>
      let pm := pixmap c in
      with_pixmap c (mkQPixmap (pm_width pm) (pm_height pm) (pm_alpha pm)
                               (f (pm_pixel pm)))
  | OpSetPixmap pm => set_pixmap c pm
  end.

Definition run (c : t) (ops : list op) : t := foldl step c ops.
End Run.

End Canvas.

(** ** The flood fill shared by [FillTool] and [AlphaBrushTool]

    Both tools contain the same loop: a [deque] of coordinates served from
    the left, and a [set] of coordinates already enqueued. *)

Module FloodFill.

(** The state of the [while queue:] loop.  [writes] is a ghost log of the
    [setPixelColor] calls, oldest first; it does not influence the loop. *)
Record state := mk {
  img : QPixmap;
  queue : list (Z * Z);
  visited : gset (Z * Z);
  writes : list (Z * Z)
}.

(** The body of [for nx, ny in (...)]. *)
Definition enqueue (w h : Z) (qv : list (Z * Z) * gset (Z * Z)) (n : Z * Z)
  : list (Z * Z) * gset (Z * Z) :=
  let '(nx, ny) := n in
  if bool_decide (0 <= nx < w /\ 0 <= ny < h /\ (nx, ny) ∉ qv.2)
  then (qv.1 ++ [(nx, ny)], {[ (nx, ny) ]} ∪ qv.2)
  else qv.

Definition neighbours (cx cy : Z) : list (Z * Z) :=
  [(cx - 1, cy); (cx + 1, cy); (cx, cy - 1); (cx, cy + 1)].

(** One iteration of the [while] loop on a non-empty queue. *)
Definition iteration (target_rgb : Z) (fill : QColor) (w h : Z)
           (cx cy : Z) (rest : list (Z * Z)) (s : state) : state :=
  if bool_decide (rgba (pixelColor (img s) cx cy) ≠ target_rgb)
  then mk (img s) rest (visited s) (writes s)
  else
    let img' := setPixelColor (img s) cx cy fill in
    let qv := foldl (enqueue w h) (rest, visited s) (neighbours cx cy) in
    mk img' qv.1 qv.2 (writes s ++ [(cx, cy)]).

(** The [while queue:] loop; [None] when [fuel] iterations did not empty
    the queue. *)
Fixpoint loop (fuel : nat) (target_rgb : Z) (fill : QColor) (w h : Z)
         (s : state) : option state :=
  match queue s with
  | [] => Some s
  | (cx, cy) :: rest =>
      match fuel with
      | O => None
      | S fuel' => loop fuel' target_rgb fill w h
                        (iteration target_rgb fill w h cx cy rest s)
      end
  end.

(** The statements before the loop, and the loop.  Every coordinate is
    enqueued at most once and only inside [w] x [h], so [w * h] iterations
    are enough (proved below). *)
Definition run (img : QPixmap) (x y : Z) (target_rgb : Z) (fill : QColor)
           (w h : Z) : option state :=
  loop (Z.to_nat (w * h)) target_rgb fill w h
       (mk img [(x, y)] {[ (x, y) ]} []).

End FloodFill.

Module FillTool.

(** [FillTool._flood_fill(img, x, y, target, fill, w, h)]: the image as the
    loop leaves it. *)
Definition _flood_fill (img : QPixmap) (x y : Z) (target fill : QColor)
           (w h : Z) : option QPixmap :=
  s ← FloodFill.run img x y (rgba target) fill w h;
  Some (FloodFill.img s).

Section WithQt.
Context `{QtRaster}.

Definition mouse_press (c : Canvas.t) (event : MouseEvent) : option Canvas.t :=
  let pos := ev_pos event in
  let img := toImage (Canvas.pixmap c) in
  let w := pm_width img in
  let h := pm_height img in
  if (pt_x pos <? 0) || (pt_x pos >=? w) || (pt_y pos <? 0) || (pt_y pos >=? h)
  then Some c
  else
    let target := pixelColor img (pt_x pos) (pt_y pos) in
    let fill_color :=
      if decide (ev_button event = LeftButton)
      then Canvas.fg_color c else Canvas.bg_color c in
    if decide (target = fill_color) then Some c
    else
      let c := Canvas.save_undo c in
      img ← _flood_fill img (pt_x pos) (pt_y pos) target fill_color w h;
      let c := Canvas.set_pixmap c (fromImage img) in
      Some (Canvas.set_modified c true).
End WithQt.

End FillTool.

Module PickerTool.

Definition mouse_press (c : Canvas.t) (event : MouseEvent) : Canvas.t :=
  let pos := ev_pos event in
  let img := toImage (Canvas.pixmap c) in
  if (0 <=? pt_x pos) && (pt_x pos <? pm_width img)
     && (0 <=? pt_y pos) && (pt_y pos <? pm_height img)
  then
    let color := pixelColor img (pt_x pos) (pt_y pos) in
    if decide (ev_button event = LeftButton)
    then Canvas.with_fg c color
    else Canvas.with_bg c color
  else c.

End PickerTool.

Module AlphaBrushTool.

Section WithQt.
Context `{QtRaster}.

Definition _alpha_flood_fill (c : Canvas.t) (pos : QPoint) : option Canvas.t :=
  let img := toImage (Canvas.pixmap c) in
  let w := pm_width img in
  let h := pm_height img in
  if (pt_x pos <? 0) || (pt_x pos >=? w) || (pt_y pos <? 0) || (pt_y pos >=? h)
  then Some c
  else
    let target := pixelColor img (pt_x pos) (pt_y pos) in
    if alpha target =? 0 then Some c
    else
      let target_rgb := rgba target in
      let fill := mkQColor 0 0 0 0 in
      s ← FloodFill.run img (pt_x pos) (pt_y pos) target_rgb fill w h;
      let c := Canvas.set_pixmap c (fromImage (FloodFill.img s)) in
      Some (Canvas.set_modified c true).

(** [AlphaBrushTool.mouse_press] with Shift held: the branch that calls
    the flood fill (the other branch paints one brush dab). *)
Definition mouse_press_shift (c : Canvas.t) (event : MouseEvent) : option Canvas.t :=
  let c := Canvas.save_undo c in
  _alpha_flood_fill c (ev_pos event).
End WithQt.

End AlphaBrushTool.

(** ** Python and Qt arithmetic on floats, as rationals *)

Local Open Scope Q_scope.

(** [int(f)]: truncation toward zero. *)
Definition py_int (q : Q) : Z := if Qle_bool 0 q then Qfloor q else Qceiling q.

(** [max(a, b)] of two numbers: the first one unless the second is larger. *)
Definition py_max (a b : Q) : Q := if Qle_bool b a then a else b.

Definition Qlt_bool (a b : Q) : bool := negb (Qle_bool b a).

Record QRectF := mkQRectF { rf_x : Q; rf_y : Q; rf_w : Q; rf_h : Q }.

(** [QRectF(r)] for an integer rectangle. *)
Definition QRectF_of (r : QRect) : QRectF :=
  mkQRectF (inject_Z (rect_x r)) (inject_Z (rect_y r))
           (inject_Z (rect_width r)) (inject_Z (rect_height r)).

Definition rectf_center (r : QRectF) : QPointF :=
  mkQPointF (rf_x r + rf_w r / 2) (rf_y r + rf_h r / 2).

(** [QRectF::contains(QPointF)] of Qt 5. *)
Definition rectf_contains (r : QRectF) (p : QPointF) : bool :=
  let '(l, rr) := if Qlt_bool (rf_w r) 0 then (rf_x r + rf_w r, rf_x r)
                  else (rf_x r, rf_x r + rf_w r) in
  let '(t, b) := if Qlt_bool (rf_h r) 0 then (rf_y r + rf_h r, rf_y r)
                 else (rf_y r, rf_y r + rf_h r) in
  if Qeq_bool l rr then false
  else if Qlt_bool (ptf_x p) l || Qlt_bool rr (ptf_x p) then false
  else if Qeq_bool t b then false
  else if Qlt_bool (ptf_y p) t || Qlt_bool b (ptf_y p) then false
  else true.

(** [QPointF(p)] for an integer point. *)
Definition QPointF_of (p : QPoint) : QPointF :=
  mkQPointF (inject_Z (pt_x p)) (inject_Z (pt_y p)).

Local Close Scope Q_scope.

(** ** [bytearray] access *)

(** [data[i]]; a negative index counts from the end; [None] is IndexError. *)
Definition getitem (data : list Z) (i : Z) : option Z :=
  let len := Z.of_nat (length data) in
  if (0 <=? i) && (i <? len) then data !! Z.to_nat i
  else if (- len <=? i) && (i <? 0) then data !! Z.to_nat (len + i)
  else None.

(** [data[i] = v] for a byte value [v]. *)
Definition setitem (data : list Z) (i v : Z) : option (list Z) :=
  let len := Z.of_nat (length data) in
  if (0 <=? i) && (i <? len) then Some (<[Z.to_nat i := v]> data)
  else if (- len <=? i) && (i <? 0) then Some (<[Z.to_nat (len + i) := v]> data)
  else None.

(** [range(start, stop, step)] for a positive step. *)
Definition py_range (start stop step : Z) : list Z :=
  (fun k => start + step * k) <$> seqZ 0 ((stop - start + step - 1) / step).

(** A [for] loop whose body may raise. *)
Fixpoint for_each {A S} (l : list A) (body : S -> A -> option S) (s : S) : option S :=
  match l with
  | [] => Some s
  | a :: l' => s' ← body s a; for_each l' body s'
  end.

(** A [QImage] of [Format_ARGB32] seen through [bits()]: rows of
    [bytesPerLine] bytes, each pixel the four bytes B, G, R, A. *)
Record QImageARGB32 := mkQImageARGB32 {
  im_width : Z;
  im_height : Z;
  im_bytesPerLine : Z;
  im_bits : list Z
}.

(** [pixmap.toImage().convertToFormat(QImage.Format_ARGB32)].  A scan line
    of a 32-bit format has exactly [4 * width] bytes. *)
Definition convertToFormat_ARGB32 (pm : QPixmap) : QImageARGB32 :=
  let bpl := 4 * pm_width pm in
  let byte_at (i : Z) : Z :=
    let c := pm_pixel pm ((i mod bpl) / 4) (i / bpl) in
    match i mod 4 with
    | 0 => blue c
    | 1 => green c
    | 2 => red c
    | _ => alpha c
    end in
  mkQImageARGB32 (pm_width pm) (pm_height pm) bpl
    (byte_at <$> seqZ 0 (pm_height pm * bpl)).

(** The byte at offset [i] of a buffer (0 outside the buffer). *)
Definition byte_of (data : list Z) (i : Z) : Z := default 0 (data !! Z.to_nat i).

(** [QPixmap.fromImage(QImage(data, w, h, bpl, QImage.Format_ARGB32))]. *)
Definition fromImage_ARGB32 (data : list Z) (w h bpl : Z) : QPixmap :=
  fromImage (mkQPixmap w h true
    (fun x y => let i := y * bpl + 4 * x in
                mkQColor (byte_of data (i + 2)) (byte_of data (i + 1))
                         (byte_of data i) (byte_of data (i + 3)))).

(** [a % b] on floats for a positive [b]. *)
Definition py_mod (a b : Q) : Q := (a - b * inject_Z (Qfloor (a / b)))%Q.

(** [l[i]] on a list; a negative index counts from the end; [None] is
    IndexError. *)
Definition list_getitem {A} (l : list A) (i : Z) : option A :=
  let len := Z.of_nat (length l) in
  if (0 <=? i) && (i <? len) then l !! Z.to_nat i
  else if (- len <=? i) && (i <? 0) then l !! Z.to_nat (len + i)
  else None.

(** The cursor shapes that the selection tool asks for. *)
Inductive CursorShape :=
| PointingHandCursor | SizeVerCursor | SizeBDiagCursor | SizeHorCursor
| SizeFDiagCursor | SizeAllCursor | CrossCursor.

(** ** The selection tool *)

Module SelectionTool.

Inductive sel_state := idle | selecting | selected | moving | resizing | rotating.

(** The keys of the handle dictionaries, in the order in which
    [_get_handle_positions] inserts them. *)
Inductive handle :=
| H_nw | H_n | H_ne | H_e | H_se | H_s | H_sw | H_w | H_rotate.

#[export] Instance sel_state_eq_dec : EqDecision sel_state.
Proof. solve_decision. Defined.
#[export] Instance handle_eq_dec : EqDecision handle.
Proof. solve_decision. Defined.

(** [_OPPOSITE[h]]; the dictionary has no key ["rotate"]. *)
Definition _OPPOSITE (h : handle) : option handle :=
  match h with
  | H_nw => Some H_se | H_n => Some H_s | H_ne => Some H_sw | H_e => Some H_w
  | H_se => Some H_nw | H_s => Some H_n | H_sw => Some H_ne | H_w => Some H_e
  | H_rotate => None
  end.

Definition _CHANGES_X (h : handle) : bool :=
  match h with
  | H_nw | H_ne | H_sw | H_se | H_e | H_w => true
  | _ => false
  end.

Definition _CHANGES_Y (h : handle) : bool :=
  match h with
  | H_nw | H_ne | H_sw | H_se | H_n | H_s => true
  | _ => false
  end.

(** The attributes of the tool; [_snippet_display] only serves the
    overlay and is left out. *)
Record t := mk {
  _state : sel_state;
  _start : option QPoint;
  _rect : QRect;
  _snippet : option QPixmap;
  _angle : Q;
  _move_offset : option QPointF;
  _active_handle : option handle;
  _resize_anchor : option QPointF;
  _drag_start_rect : option QRectF;
  _drag_start_angle : option Q;
  _drag_start_sel_angle : option Q
}.

Definition with_state (s : t) (st : sel_state) : t :=
  mk st (_start s) (_rect s) (_snippet s) (_angle s) (_move_offset s)
     (_active_handle s) (_resize_anchor s) (_drag_start_rect s)
     (_drag_start_angle s) (_drag_start_sel_angle s).
Definition with_rect (s : t) (r : QRect) : t :=
  mk (_state s) (_start s) r (_snippet s) (_angle s) (_move_offset s)
     (_active_handle s) (_resize_anchor s) (_drag_start_rect s)
     (_drag_start_angle s) (_drag_start_sel_angle s).
Definition with_snippet (s : t) (p : option QPixmap) : t :=
  mk (_state s) (_start s) (_rect s) p (_angle s) (_move_offset s)
     (_active_handle s) (_resize_anchor s) (_drag_start_rect s)
     (_drag_start_angle s) (_drag_start_sel_angle s).
Definition with_angle (s : t) (a : Q) : t :=
  mk (_state s) (_start s) (_rect s) (_snippet s) a (_move_offset s)
     (_active_handle s) (_resize_anchor s) (_drag_start_rect s)
     (_drag_start_angle s) (_drag_start_sel_angle s).
Definition with_active_handle (s : t) (h : option handle) : t :=
  mk (_state s) (_start s) (_rect s) (_snippet s) (_angle s) (_move_offset s)
     h (_resize_anchor s) (_drag_start_rect s)
     (_drag_start_angle s) (_drag_start_sel_angle s).

(** The state of [__init__] and of [_reset]. *)
Definition _reset : t :=
  mk idle None QRect_null None 0%Q None None None None None None.

(** [self._state in ("selected", "moving", "resizing", "rotating")]. *)
Definition floating (st : sel_state) : bool :=
  match st with
  | selected | moving | resizing | rotating => true
  | _ => false
  end.

Definition has_selection (s : t) : bool :=
  floating (_state s) && bool_decide (is_Some (_snippet s)).

Section WithQt.
Context `{QtRaster}.

Local Open Scope Q_scope.

(** *** Geometry helpers *)

Definition _rotate_point (point center : QPointF) (angle_deg : Q) : QPointF :=
  let cos_a := cos_deg angle_deg in
  let sin_a := sin_deg angle_deg in
  let dx := ptf_x point - ptf_x center in
  let dy := ptf_y point - ptf_y center in
  mkQPointF (ptf_x center + dx * cos_a - dy * sin_a)
            (ptf_y center + dx * sin_a + dy * cos_a).

Definition _get_handle_positions (s : t) (c : Canvas.t) : list (handle * QPointF) :=
  if ((rect_width (_rect s) <? 2) || (rect_height (_rect s) <? 2))%Z then []
  else
    let r := QRectF_of (_rect s) in
    let center := rectf_center r in
    let hw := rf_w r / 2 in
    let hh := rf_h r / 2 in
    let rot_off := if Qlt_bool 0 (Canvas.zoom c) then 20 / Canvas.zoom c else 20 in
    let local :=
      [ (H_nw, mkQPointF (- hw) (- hh)); (H_n, mkQPointF 0 (- hh));
        (H_ne, mkQPointF hw (- hh)); (H_e, mkQPointF hw 0);
        (H_se, mkQPointF hw hh); (H_s, mkQPointF 0 hh);
        (H_sw, mkQPointF (- hw) hh); (H_w, mkQPointF (- hw) 0);
        (H_rotate, mkQPointF 0 (- hh - rot_off)) ] in
    (fun nl : handle * QPointF =>
       (nl.1, _rotate_point
                (mkQPointF (ptf_x center + ptf_x nl.2) (ptf_y center + ptf_y nl.2))
                center (_angle s))) <$> local.

(** [positions[name]]; [None] is KeyError. *)
Definition handle_lookup (positions : list (handle * QPointF)) (name : handle)
  : option QPointF :=
  snd <$> List.find (fun nl => bool_decide (nl.1 = name)) positions.

(** [_hit_handle(pos)]; the outer [None] is the ZeroDivisionError of
    [8 / self.canvas.zoom]. *)
Definition _hit_handle (s : t) (c : Canvas.t) (pos : QPoint) : option (option handle) :=
  match _state s with
  | selected | moving =>
      let positions := _get_handle_positions s c in
      if Qeq_bool (Canvas.zoom c) 0 then None
      else
        let thr := py_max 6 (8 / Canvas.zoom c) in
        let thr_sq := thr * thr in
        let pf := QPointF_of pos in
        Some (fst <$> List.find
                (fun nl : handle * QPointF =>
                   let dx := ptf_x pf - ptf_x nl.2 in
                   let dy := ptf_y pf - ptf_y nl.2 in
                   Qlt_bool (dx * dx + dy * dy) thr_sq)
                positions)
  | _ => Some None
  end.

Definition _point_in_selection (s : t) (pos : QPoint) : bool :=
  if ((rect_width (_rect s) <? 2) || (rect_height (_rect s) <? 2))%Z then false
  else
    let center := QPointF_of (rect_center (_rect s)) in
    let local := _rotate_point (QPointF_of pos) center (- _angle s) in
    rectf_contains (QRectF_of (_rect s)) local.

(** *** Commit *)

(** The body of the inner loop of [_snap_alpha] at alpha index [i]. *)
Definition snap_byte (data : list Z) (i : Z) : option (list Z) :=
  a ← getitem data i;
  if (a =? 0)%Z then
    data ← setitem data (i - 3) 0;
    data ← setitem data (i - 2) 0;
    setitem data (i - 1) 0
  else setitem data i 255.

(** The two nested loops of [_snap_alpha] over the byte array. *)
Definition snap_bits (img : QImageARGB32) : option (list Z) :=
  let bpl := im_bytesPerLine img in
  let w_bytes := (im_width img * 4)%Z in
  for_each (py_range 0 (im_height img) 1)
    (fun data y =>
       let base := (y * bpl)%Z in
       for_each (py_range 3 w_bytes 4)
         (fun data x => snap_byte data (base + x)%Z) data)
    (im_bits img).

Definition _snap_alpha (pixmap : QPixmap) : option QPixmap :=
  let img := convertToFormat_ARGB32 (toImage pixmap) in
  data ← snap_bits img;
  Some (fromImage_ARGB32 data (im_width img) (im_height img) (im_bytesPerLine img)).

(** [_render_rotated(w, h, source)]: the size of the result is computed
    as in the source, its pixels are Qt's; [None] is the exception that
    a missing or empty source raises. *)
Definition _render_rotated (s : t) (w h : Z) (source : option QPixmap)
  : option QPixmap :=
  src ← (match source with Some p => Some p | None => _snippet s end);
  if ((pm_width src =? 0) || (pm_height src =? 0))%Z then None
  else
    let bbox := rotated_bbox (_angle s) w h in
    let out_w := (Qceiling (Qabs bbox.1) + 2)%Z in
    let out_h := (Qceiling (Qabs bbox.2) + 2)%Z in
    Some (mkQPixmap out_w out_h true
            (rotated_pixels src w h (_angle s) out_w out_h)).

(** Target width and height of a commit: [max(int(r.width()), 1)]. *)
Definition commit_size (s : t) : Z * Z :=
  let r := QRectF_of (_rect s) in
  (Z.max (py_int (rf_w r)) 1, Z.max (py_int (rf_h r)) 1).

(** The corners given to the clip path of a rotated commit. *)
Definition clip_polygon (s : t) : list QPointF :=
  let r := QRectF_of (_rect s) in
  let '(w, h) := commit_size s in
  let cx := ptf_x (rectf_center r) in
  let cy := ptf_y (rectf_center r) in
  let cos_a := cos_deg (_angle s) in
  let sin_a := sin_deg (_angle s) in
  let corners :=
    [ (- inject_Z w / 2, - inject_Z h / 2); (inject_Z w / 2, - inject_Z h / 2);
      (inject_Z w / 2, inject_Z h / 2); (- inject_Z w / 2, inject_Z h / 2) ] in
  (fun d : Q * Q =>
     mkQPointF (d.1 * cos_a - d.2 * sin_a + cx) (d.1 * sin_a + d.2 * cos_a + cy))
    <$> corners.

(** "if needed_w > cur_w or needed_h > cur_h": a larger pixmap filled
    with the background colour, the old buffer drawn at its origin. *)
Definition expanded (c : Canvas.t) (needed_w needed_h : Z) : QPixmap :=
  let cur_w := pm_width (Canvas.pixmap c) in
  let cur_h := pm_height (Canvas.pixmap c) in
  let new_pm := QPixmap_filled (Z.max cur_w needed_w) (Z.max cur_h needed_h)
                               (Canvas.bg_color c) in
  drawPixmap_source new_pm 0 0 (Canvas.pixmap c).

(** The canvas on which a rotated commit composites [result]: expanded
    when the bounding box of the result does not fit. *)
Definition rotated_target (s : t) (c : Canvas.t) (result : QPixmap) : Canvas.t :=
  let r := QRectF_of (_rect s) in
  let dest_x := ptf_x (rectf_center r) - inject_Z (pm_width result) / 2 in
  let dest_y := ptf_y (rectf_center r) - inject_Z (pm_height result) / 2 in
  let needed_w := Qceiling (dest_x + inject_Z (pm_width result)) in
  let needed_h := Qceiling (dest_y + inject_Z (pm_height result)) in
  let cur_w := pm_width (Canvas.pixmap c) in
  let cur_h := pm_height (Canvas.pixmap c) in
  if ((needed_w >? cur_w) || (needed_h >? cur_h))%Z
  then Canvas.set_pixmap c (expanded c needed_w needed_h)
  else c.

(** The last painter of a rotated commit: [result] drawn at [dest_pt]
    inside the clip path, composition mode Source. *)
Definition composite_clipped (pm : QPixmap) (clip : list QPointF)
           (dest_pt : QPointF) (result : QPixmap) : QPixmap :=
  mkQPixmap (pm_width pm) (pm_height pm) (pm_alpha pm)
    (fun x y =>
       if clip_covers clip x y then
         match draw_at dest_pt result x y with
         | Some col => col
         | None => pm_pixel pm x y
         end
       else pm_pixel pm x y).

(** The pixmap that a rotated commit composites. *)
Definition rotated_result (s : t) : option QPixmap :=
  let '(w, h) := commit_size s in
  rendered ← _render_rotated s w h None;
  _snap_alpha rendered.

(** The pixmap that an unrotated commit stamps. *)
Definition unrotated_stamp (s : t) (snippet : QPixmap) : option QPixmap :=
  let '(w, h) := commit_size s in
  if ((w =? pm_width snippet) && (h =? pm_height snippet))%Z
  then Some snippet
  else _snap_alpha (scaled snippet w h).

Definition _commit (s : t) (c : Canvas.t) : option Canvas.t :=
  match _snippet s with
  | Some snippet =>
      if negb (isNull snippet) && floating (_state s) then
        let r := QRectF_of (_rect s) in
        let '(w, h) := commit_size s in
        if Qlt_bool (Qabs (_angle s)) (1 # 100) then
          stamp ← unrotated_stamp s snippet;
          let needed_w := (rect_x (_rect s) + w)%Z in
          let needed_h := (rect_y (_rect s) + h)%Z in
          let cur_w := pm_width (Canvas.pixmap c) in
          let cur_h := pm_height (Canvas.pixmap c) in
          let top_left := rect_topLeft (_rect s) in
          if ((needed_w >? cur_w) || (needed_h >? cur_h))%Z then
            let new_pm := expanded c needed_w needed_h in
            let new_pm := drawPixmap_source new_pm (pt_x top_left) (pt_y top_left) stamp in
            Some (Canvas.set_pixmap c new_pm)
          else
            Some (Canvas.with_pixmap c
                    (drawPixmap_source (Canvas.pixmap c)
                       (pt_x top_left) (pt_y top_left) stamp))
        else
          result ← rotated_result s;
          let dest_x := ptf_x (rectf_center r) - inject_Z (pm_width result) / 2 in
          let dest_y := ptf_y (rectf_center r) - inject_Z (pm_height result) / 2 in
          let dest_pt := mkQPointF dest_x dest_y in
          let clip := clip_polygon s in
          let c := rotated_target s c result in
          Some (Canvas.with_pixmap c
                  (composite_clipped (Canvas.pixmap c) clip dest_pt result))
      else Some c
  | None => Some c
  end.

(** *** Mouse events *)

(** The end of [mouse_press]: "click outside or no selection — commit
    and start new". *)
Definition press_outside (s : t) (c : Canvas.t) (pos : QPoint)
  : option (t * Canvas.t) :=
  c ← (if floating (_state s) then _commit s c else Some c);
  let c := Canvas.save_undo c in
  Some (mk selecting (Some pos) (QRect_of_points pos pos) None 0
           (_move_offset s) (_active_handle s) (_resize_anchor s)
           (_drag_start_rect s) (_drag_start_angle s) (_drag_start_sel_angle s),
        c).

Definition mouse_press (s : t) (c : Canvas.t) (event : MouseEvent)
  : option (t * Canvas.t) :=
  if decide (ev_button event ≠ LeftButton) then Some (s, c)
  else
    let pos := ev_pos event in
    match _state s with
    | selected | moving =>
        handle ← _hit_handle s c pos;
        match handle with
        | Some H_rotate =>
            let center := QPointF_of (rect_center (_rect s)) in
            let a := atan2_deg (inject_Z (pt_y pos) - ptf_y center)
                               (inject_Z (pt_x pos) - ptf_x center) in
            Some (mk rotating (_start s) (_rect s) (_snippet s) (_angle s)
                     (_move_offset s) (_active_handle s) (_resize_anchor s)
                     (_drag_start_rect s) (Some a) (Some (_angle s)),
                  c)
        | Some handle =>
            opp ← _OPPOSITE handle;
            anchor ← handle_lookup (_get_handle_positions s c) opp;
            Some (mk resizing (_start s) (_rect s) (_snippet s) (_angle s)
                     (_move_offset s) (Some handle) (Some anchor)
                     (Some (QRectF_of (_rect s)))
                     (_drag_start_angle s) (_drag_start_sel_angle s),
                  c)
        | None =>
            if _point_in_selection s pos then
              let ctr := rect_center (_rect s) in
              let off := mkQPointF (inject_Z (pt_x pos) - inject_Z (pt_x ctr))
                                   (inject_Z (pt_y pos) - inject_Z (pt_y ctr)) in
              Some (mk moving (_start s) (_rect s) (_snippet s) (_angle s)
                       (Some off) (_active_handle s) (_resize_anchor s)
                       (_drag_start_rect s) (_drag_start_angle s)
                       (_drag_start_sel_angle s),
                    c)
            else press_outside s c pos
        end
    | _ => press_outside s c pos
    end.

(** [_do_resize(pos)]; [None] is the exception raised when the anchor,
    the handle or the start rectangle is missing. *)
Definition _do_resize (s : t) (pos : QPoint) : option t :=
  anchor ← _resize_anchor s;
  let mouse := QPointF_of pos in
  let cos_a := cos_deg (_angle s) in
  let sin_a := sin_deg (_angle s) in
  let vx := ptf_x mouse - ptf_x anchor in
  let vy := ptf_y mouse - ptf_y anchor in
  let proj_x := vx * cos_a + vy * sin_a in
  let proj_y := - vx * sin_a + vy * cos_a in
  handle ← _active_handle s;
  start_rect ← _drag_start_rect s;
  let orig_w := rf_w start_rect in
  let orig_h := rf_h start_rect in
  let new_w := if _CHANGES_X handle then py_max (Qabs proj_x) 4 else orig_w in
  let new_h := if _CHANGES_Y handle then py_max (Qabs proj_y) 4 else orig_h in
  let sx := if _CHANGES_X handle then proj_x / 2 else 0 in
  let sy := if _CHANGES_Y handle then proj_y / 2 else 0 in
  let cx := ptf_x anchor + sx * cos_a - sy * sin_a in
  let cy := ptf_y anchor + sx * sin_a + sy * cos_a in
  Some (with_rect s (QRect_xywh (py_int (cx - new_w / 2)) (py_int (cy - new_h / 2))
                                (py_int new_w) (py_int new_h))).

Definition _do_rotate (s : t) (pos : QPoint) : option t :=
  let center := QPointF_of (rect_center (_rect s)) in
  let cur := atan2_deg (inject_Z (pt_y pos) - ptf_y center)
                       (inject_Z (pt_x pos) - ptf_x center) in
  sel_angle ← _drag_start_sel_angle s;
  start_angle ← _drag_start_angle s;
  Some (with_angle s (sel_angle + (cur - start_angle))).

Definition mouse_move (s : t) (event : MouseEvent) : option t :=
  let pos := ev_pos event in
  match _state s with
  | selecting =>
      start ← _start s;
      Some (with_rect s (normalized (QRect_of_points start pos)))
  | moving =>
      match _move_offset s with
      | Some off =>
          let nc := mkQPointF (inject_Z (pt_x pos) - ptf_x off)
                              (inject_Z (pt_y pos) - ptf_y off) in
          Some (with_rect s (moveCenter (_rect s)
                               (mkQPoint (py_int (ptf_x nc)) (py_int (ptf_y nc)))))
      | None => Some s
      end
  | resizing => _do_resize s pos
  | rotating => _do_rotate s pos
  | _ => Some s
  end.

Definition mouse_release (s : t) (c : Canvas.t) (event : MouseEvent)
  : option (t * Canvas.t) :=
  match _state s with
  | selecting =>
      start ← _start s;
      let rect := normalized (QRect_of_points start (ev_pos event)) in
      if ((rect_width rect >? 1) && (rect_height rect >? 1))%Z then
        let snippet := copy_rect (Canvas.pixmap c) rect in
        let c := Canvas.with_pixmap c
                   (fillRect (Canvas.pixmap c) rect (Canvas.bg_color c)) in
        Some (with_state (with_snippet (with_rect s rect) (Some snippet)) selected, c)
      else Some (_reset, c)
  | moving => Some (with_state s selected, Canvas.set_modified c true)
  | resizing =>
      Some (with_active_handle (with_state s selected) None,
            Canvas.set_modified c true)
  | rotating => Some (with_state s selected, Canvas.set_modified c true)
  | _ => Some (s, c)
  end.

(** [deactivate()]: commit, then reset. *)
Definition deactivate (s : t) (c : Canvas.t) : option (t * Canvas.t) :=
  c ← _commit s c;
  Some (_reset, c).

Definition select_all (s : t) (c : Canvas.t) : option (t * Canvas.t) :=
  c ← _commit s c;
  let c := Canvas.save_undo c in
  let r := pm_rect (Canvas.pixmap c) in
  let snippet := copy_rect (Canvas.pixmap c) r in
  let c := Canvas.with_pixmap c (fillRect (Canvas.pixmap c) r (Canvas.bg_color c)) in
  Some (with_state (with_angle (with_rect (with_snippet s (Some snippet)) r) 0)
                   selected,
        c).

(** *** Cursors *)

(** [_cursor_for_handle(handle)] for a key of the handle tables; [None] is
    IndexError. *)
Definition _cursor_for_handle (s : t) (handle : handle) : option CursorShape :=
  match handle with
  | H_rotate => Some PointingHandCursor
  | _ =>
      let base : Q :=
        match handle with
        | H_n => 0 | H_ne => 45 | H_e => 90 | H_se => 135
        | H_s => 180 | H_sw => 225 | H_w => 270 | _ => 315
        end in
      let total := py_mod (base + _angle s) 360 in
      let total := if Qlt_bool total 0 then total + 360 else total in
      let cursors :=
        [ SizeVerCursor; SizeBDiagCursor; SizeHorCursor; SizeFDiagCursor;
          SizeVerCursor; SizeBDiagCursor; SizeHorCursor; SizeFDiagCursor ] in
      list_getitem cursors (py_int ((total + (45 # 2)) / 45) mod 8)%Z
  end.

(** [cursor_at(pos)]; [None] is the exception of [_hit_handle], or the
    KeyError of a missing active handle. *)
Definition cursor_at (s : t) (c : Canvas.t) (pos : QPoint) : option CursorShape :=
  match _state s with
  | selected | moving =>
      handle ← _hit_handle s c pos;
      match handle with
      | Some handle => _cursor_for_handle s handle
      | None =>
          if _point_in_selection s pos then Some SizeAllCursor
          else Some CrossCursor
      end
  | resizing =>
      handle ← _active_handle s;
      _cursor_for_handle s handle
  | rotating => Some PointingHandCursor
  | _ => Some CrossCursor
  end.

(** *** Clipboard operations *)

(** [_get_transformed_snippet()]; [None] is the exception raised without
    a snippet, or by [_render_rotated]. *)
Definition _get_transformed_snippet (s : t) : option QPixmap :=
  let '(w, h) := commit_size s in
  snippet ← _snippet s;
  let sw := pm_width snippet in
  let sh := pm_height snippet in
  if Qlt_bool (Qabs (_angle s)) (1 # 100) then
    if ((w =? sw) && (h =? sh))%Z then Some (copy snippet)
    else Some (scaled snippet w h)
  else _render_rotated s w h None.

(** [copy_selection()]: the pixmap on the clipboard after the call. *)
Definition copy_selection (s : t) (clipboard : option QPixmap)
  : option (option QPixmap) :=
  match _snippet s with
  | Some snippet =>
      if negb (isNull snippet) then
        pm ← _get_transformed_snippet s;
        Some (Some pm)
      else Some clipboard
  | None => Some clipboard
  end.

Definition cut_selection (s : t) (c : Canvas.t) (clipboard : option QPixmap)
  : option (t * Canvas.t * option QPixmap) :=
  clipboard ← copy_selection s clipboard;
  Some (_reset, Canvas.set_modified c true, clipboard).

Definition delete_selection (s : t) (c : Canvas.t) : t * Canvas.t :=
  (_reset, Canvas.set_modified c true).

(** [paste(pixmap, center)]. *)
Definition paste (s : t) (c : Canvas.t) (pixmap : QPixmap) (center : option QPoint)
  : option (t * Canvas.t) :=
  c ← _commit s c;
  let c := Canvas.save_undo c in
  let pw := pm_width pixmap in
  let ph := pm_height pixmap in
  let cw := pm_width (Canvas.pixmap c) in
  let ch := pm_height (Canvas.pixmap c) in
  let '(c, x, y) :=
    if ((pw >? cw) || (ph >? ch))%Z then
      (Canvas.set_pixmap c (expanded c pw ph), 0%Z, 0%Z)
    else
      match center with
      | Some center => (c, (pt_x center - pw / 2)%Z, (pt_y center - ph / 2)%Z)
      | None => (c, 0%Z, 0%Z)
      end in
  Some (mk selected (_start s) (QRect_xywh x y pw ph) (Some pixmap) 0
           (_move_offset s) (_active_handle s) (_resize_anchor s)
           (_drag_start_rect s) (_drag_start_angle s) (_drag_start_sel_angle s),
        c).
End WithQt.

End SelectionTool.

(** ** Canvas operations that involve the selection tool *)

(** [QImage::mirrored(horizontal, vertical)]. *)
Definition mirrored (img : QPixmap) (horizontal vertical : bool) : QPixmap :=
  mkQPixmap (pm_width img) (pm_height img) (pm_alpha img)
    (fun x y => pm_pixel img (if horizontal then pm_width img - 1 - x else x)
                             (if vertical then pm_height img - 1 - y else y)).

(** Methods of [Canvas] that reach into the selection tool; the tool and
    the canvas are passed and returned together. *)
Module CanvasOps.

Section WithQt.
Context `{QtRaster}.

Definition commit_selection (s : SelectionTool.t) (c : Canvas.t)
  : option (SelectionTool.t * Canvas.t) :=
  if SelectionTool.has_selection s then
    c ← SelectionTool._commit s c;
    Some (SelectionTool._reset, c)
  else Some (s, c).


Definition resize_canvas (s : SelectionTool.t) (c : Canvas.t) (new_w new_h : Z)
  : option (SelectionTool.t * Canvas.t) :=
  sc ← commit_selection s c;
  let c := Canvas.save_undo sc.2 in
  let new_pm := QPixmap_filled new_w new_h (Canvas.bg_color c) in
  let new_pm := drawPixmap_source new_pm 0 0 (Canvas.pixmap c) in
  let c := Canvas.set_pixmap c new_pm in
  Some (sc.1, Canvas.set_modified c true).

Definition flip_horizontal (s : SelectionTool.t) (c : Canvas.t)
  : option (SelectionTool.t * Canvas.t) :=
  sc ← commit_selection s c;
  let c := Canvas.save_undo sc.2 in
  let img := mirrored (toImage (Canvas.pixmap c)) true false in
  let c := Canvas.set_pixmap c (fromImage img) in
  Some (sc.1, Canvas.set_modified c true).

Definition flip_vertical (s : SelectionTool.t) (c : Canvas.t)
  : option (SelectionTool.t * Canvas.t) :=
  sc ← commit_selection s c;
  let c := Canvas.save_undo sc.2 in
  let img := mirrored (toImage (Canvas.pixmap c)) false true in
  let c := Canvas.set_pixmap c (fromImage img) in
  Some (sc.1, Canvas.set_modified c true).
End WithQt.

End CanvasOps.

(** ** The view: zoom and widget coordinates *)

Definition ZOOM_MIN : Q := 1 # 4.
Definition ZOOM_MAX : Q := 64.
Definition ZOOM_STEP : Q := 1 # 4.

(** [min(a, b)] of two numbers: the first one unless the second is
    smaller. *)
Definition py_min (a b : Q) : Q := if Qle_bool a b then a else b.

(** [qRound(d)] of Qt 5. *)
Definition qRound (d : Q) : Z :=
  if Qle_bool 0 d then py_int (d + (1 # 2))%Q
  else (py_int (d - inject_Z (py_int (d - 1)) + (1 # 2))%Q + py_int (d - 1)%Q)%Z.

(** The attributes of [Canvas] that place the buffer in the widget; the
    widget's size comes from Qt. *)
Module View.

Record t := mk {
  canvas : Canvas.t;
  _pan_offset : QPoint;
  width : Z;    (* self.width() *)
  height : Z    (* self.height() *)
}.

Definition zoom (v : t) : Q := Canvas.zoom (canvas v).

Definition with_zoom (c : Canvas.t) (z : Q) : Canvas.t :=
  Canvas.mk (Canvas._pixmap c) (Canvas.fg_color c) (Canvas.bg_color c) z
            (Canvas._modified c) (Canvas._undo_stack c) (Canvas._redo_stack c).

(** [set_zoom(z, anchor)]; [None] where the old zoom, by which the pan
    offset is divided, is 0. *)
Definition set_zoom (v : t) (z : Q) (anchor : option QPoint) : option t :=
  let z := py_max ZOOM_MIN (py_min ZOOM_MAX z) in
  if Qlt_bool (Qabs (z - zoom v)) (1 # 1000000000) then Some v
  else
    let anchor := match anchor with
                  | Some a => a
                  | None => mkQPoint (width v / 2) (height v / 2)
                  end in
    let old_z := zoom v in
    if Qeq_bool old_z 0 then None
    else
      (* (anchor - pan) * z / old_z: QPoint * float and QPoint / float round *)
      let dx := pt_x anchor - pt_x (_pan_offset v) in
      let dy := pt_y anchor - pt_y (_pan_offset v) in
      let mx := qRound (inject_Z dx * z) in
      let my := qRound (inject_Z dy * z) in
      let qx := qRound (inject_Z mx / old_z) in
      let qy := qRound (inject_Z my / old_z) in
      Some (mk (with_zoom (canvas v) z)
               (mkQPoint (pt_x anchor - qx) (pt_y anchor - qy))
               (width v) (height v)).

(** [center_canvas()]. *)
Definition center_canvas (v : t) : t :=
  let pw := py_int (inject_Z (pm_width (Canvas.pixmap (canvas v))) * zoom v) in
  let ph := py_int (inject_Z (pm_height (Canvas.pixmap (canvas v))) * zoom v) in
  mk (canvas v) (mkQPoint ((width v - pw) / 2) ((height v - ph) / 2))
     (width v) (height v).

Definition zoom_in (v : t) : option t := set_zoom v (zoom v + ZOOM_STEP) None.
Definition zoom_out (v : t) : option t := set_zoom v (zoom v - ZOOM_STEP) None.
Definition zoom_reset (v : t) : option t := set_zoom v 1 None.

(** [_canvas_pos(event)] for the widget position [wp]; [None] is the
    ZeroDivisionError of a zero zoom. *)
Definition _canvas_pos (v : t) (wp : QPoint) : option QPoint :=
  if Qeq_bool (zoom v) 0 then None
  else Some (mkQPoint
               (py_int (inject_Z (pt_x wp - pt_x (_pan_offset v)) / zoom v))
               (py_int (inject_Z (pt_y wp - pt_y (_pan_offset v)) / zoom v))).

Definition _is_over_canvas (v : t) (widget_pos : QPoint) : option bool :=
  if Qeq_bool (zoom v) 0 then None
  else
    let cx := (inject_Z (pt_x widget_pos - pt_x (_pan_offset v)) / zoom v)%Q in
    let cy := (inject_Z (pt_y widget_pos - pt_y (_pan_offset v)) / zoom v)%Q in
    Some (Qle_bool 0 cx
          && Qlt_bool cx (inject_Z (pm_width (Canvas.pixmap (canvas v))))
          && Qle_bool 0 cy
          && Qlt_bool cy (inject_Z (pm_height (Canvas.pixmap (canvas v))))).

End View.

(** ** The resize dialog: trim to content *)

Module ResizeDialog.

Record t := mk {
  _pixmap : option QPixmap;
  w_spin : Z;
  h_spin : Z;
  _trim_offset : option (Z * Z)
}.

(** [QSpinBox.setValue] on a spin box with range 1 .. 10000. *)
Definition spin_setValue (v : Z) : Z := Z.max 1 (Z.min 10000 v).

(** [ResizeDialog(current_w, current_h, pixmap=pixmap)]: the attribute
    [_trim_offset] does not exist yet. *)
Definition init (current_w current_h : Z) (pixmap : option QPixmap) : t :=
  mk pixmap (spin_setValue current_w) (spin_setValue current_h) None.

Definition get_size (d : t) : Z * Z := (w_spin d, h_spin d).
Definition get_trim_offset (d : t) : option (Z * Z) := _trim_offset d.

(** The body of the inner loop of [_on_trim] at pixel (x, y); the state is
    (min_x, min_y, max_x, max_y). *)
Definition trim_pixel (data : list Z) (row_off y : Z) (bb : Z * Z * Z * Z) (x : Z)
  : option (Z * Z * Z * Z) :=
  let off := row_off + x * 4 in
  b ← getitem data off;
  g ← getitem data (off + 1);
  r ← getitem data (off + 2);
  a ← getitem data (off + 3);
  if a =? 0 then Some bb
  else if (r =? 255) && (g =? 255) && (b =? 255) then Some bb
  else
    let '(min_x, min_y, max_x, max_y) := bb in
    let min_x := if x <? min_x then x else min_x in
    let max_x := if x >? max_x then x else max_x in
    let min_y := if y <? min_y then y else min_y in
    let max_y := if y >? max_y then y else max_y in
    Some (min_x, min_y, max_x, max_y).

(** The two nested loops of [_on_trim]. *)
Definition trim_scan (img : QImageARGB32) : option (Z * Z * Z * Z) :=
  let w := im_width img in
  let h := im_height img in
  let bpl := im_bytesPerLine img in
  for_each (py_range 0 h 1)
    (fun bb y =>
       let row_off := y * bpl in
       for_each (py_range 0 w 1) (trim_pixel (im_bits img) row_off y) bb)
    (w, h, -1, -1).

Definition _on_trim (d : t) : option t :=
  match _pixmap d with
  | None => Some d
  | Some pixmap =>
      let img := convertToFormat_ARGB32 (toImage pixmap) in
      bb ← trim_scan img;
      let '(min_x, min_y, max_x, max_y) := bb in
      if max_x <? 0 then Some d
      else Some (mk (_pixmap d)
                    (spin_setValue (max_x - min_x + 1))
                    (spin_setValue (max_y - min_y + 1))
                    (Some (min_x, min_y)))
  end.

End ResizeDialog.

(** ** The main window: Image > Resize *)

Module PaintApp.

Section WithQt.
Context `{QtRaster}.

(** [drawPixmap(x0, y0, src)] with the default composition mode. *)
Definition drawPixmap_over_at (pm : QPixmap) (x0 y0 : Z) (src : QPixmap) : QPixmap :=
  mkQPixmap (pm_width pm) (pm_height pm) (pm_alpha pm)
    (fun x y => if in_bounds (pm_width src) (pm_height src) (x - x0) (y - y0)
                then source_over (pm_pixel src (x - x0) (y - y0)) (pm_pixel pm x y)
                else pm_pixel pm x y).

(** The dialog that [_image_resize] opens. *)
Definition resize_dialog (c : Canvas.t) : ResizeDialog.t :=
  ResizeDialog.init (pm_width (Canvas.pixmap c)) (pm_height (Canvas.pixmap c))
                    (Some (Canvas.pixmap c)).

(** [_image_resize] after the dialog, left in the state [dlg], has been
    accepted. *)
Definition _image_resize_accepted (s : SelectionTool.t) (c : Canvas.t)
           (dlg : ResizeDialog.t) : option (SelectionTool.t * Canvas.t) :=
  let '(w, h) := ResizeDialog.get_size dlg in
  match ResizeDialog.get_trim_offset dlg with
  | Some trim =>
      sc ← CanvasOps.commit_selection s c;
      let c := Canvas.save_undo sc.2 in
      let new_pm := QPixmap_filled w h Qt_transparent in
      let new_pm := drawPixmap_over_at new_pm (- trim.1) (- trim.2) (Canvas.pixmap c) in
      let c := Canvas.set_pixmap c new_pm in
      Some (sc.1, Canvas.set_modified c true)
  | None => CanvasOps.resize_canvas s c w h
  end.
End WithQt.

End PaintApp.

(** ** The palette's row of recent colours *)

Definition hex_digit (n : Z) : ascii :=
  match n with
  | 0 => "0" | 1 => "1" | 2 => "2" | 3 => "3" | 4 => "4" | 5 => "5"
  | 6 => "6" | 7 => "7" | 8 => "8" | 9 => "9" | 10 => "a" | 11 => "b"
  | 12 => "c" | 13 => "d" | 14 => "e" | _ => "f"
  end%char.

Definition hex2 (n : Z) : string :=
  String (hex_digit (n / 16)) (String (hex_digit (n mod 16)) EmptyString).

(** [QColor.name()]: ["#rrggbb"]. *)
Definition QColor_name (c : QColor) : string :=
  String "#"%char (hex2 (red c) +:+ hex2 (green c) +:+ hex2 (blue c)).

Module ColorPalette.

Definition MAX_RECENT : nat := 14.

(** [add_color(color)] on the list [_recent_colors]. *)
Definition add_color (_recent_colors : list string) (color : QColor) : list string :=
  let hex_val := QColor_name color in
  let _recent_colors := filter (fun x => x ≠ hex_val) _recent_colors in
  let _recent_colors := hex_val :: _recent_colors in
  take MAX_RECENT _recent_colors.

End ColorPalette.

(** A crude clip rasteriser: the centre of the pixel lies in the bounding
    box of the polygon. *)
Definition bbox_covers (poly : list QPointF) (x y : Z) : bool :=
  let cx := (inject_Z x + (1 # 2))%Q in
  let cy := (inject_Z y + (1 # 2))%Q in
  existsb (fun p => Qle_bool (ptf_x p) cx) poly
  && existsb (fun p => Qle_bool cx (ptf_x p)) poly
  && existsb (fun p => Qle_bool (ptf_y p) cy) poly
  && existsb (fun p => Qle_bool cy (ptf_y p)) poly.

(** A crude [drawPixmap]: the pixmap placed at the floor of the position. *)
Definition draw_floor (dest : QPointF) (pm : QPixmap) (x y : Z) : option QColor :=
  let sx := x - Qfloor (ptf_x dest) in
  let sy := y - Qfloor (ptf_y dest) in
  if in_bounds (pm_width pm) (pm_height pm) sx sy then Some (pm_pixel pm sx sy)
  else None.

(** A stand-in for the Qt services that is exact at angle 0 (cosine 1, sine
    0, bounding box equal to the rectangle) and crude elsewhere; the
    concrete runs below use it. *)
Definition Qt_axis : QtRaster := {|
  native_has_alpha := true;
  blend := fun src _ => src;
  scaled_pixels := fun pm _ _ _ _ => pm_pixel pm 0 0;
  rotated_pixels := fun pm _ _ _ _ _ _ _ => pm_pixel pm 0 0;
  rotated_bbox := fun _ w h => (inject_Z w, inject_Z h);
  cos_deg := fun a => if Qeq_bool a 0 then 1%Q else 0%Q;
  sin_deg := fun _ => 0%Q;
  atan2_deg := fun _ _ => 0%Q;
  clip_covers := bbox_covers;
  draw_at := draw_floor
|}.

(** ** Vocabulary of the statements *)

(** The colour that [FillTool.mouse_press] fills with. *)
Definition fill_color_of (c : Canvas.t) (event : MouseEvent) : QColor :=
  if decide (ev_button event = LeftButton) then Canvas.fg_color c else Canvas.bg_color c.

(** A position that is not a coordinate of the pixmap. *)
Definition out_of_bounds (pm : QPixmap) (pos : QPoint) : Prop :=
  pt_x pos < 0 \/ pm_width pm <= pt_x pos \/ pt_y pos < 0 \/ pm_height pm <= pt_y pos.

(** The two stacks together never hold more than [MAX_UNDO] snapshots. *)
Definition log_bounded (c : Canvas.t) : Prop :=
  (length (Canvas._undo_stack c) + length (Canvas._redo_stack c) <= MAX_UNDO)%nat.

(** A whole drag with the selection tool: the press, the moves, the
    release. *)
Definition drag `{QtRaster} (s : SelectionTool.t) (c : Canvas.t)
           (press : MouseEvent) (moves : list MouseEvent) (release : MouseEvent)
  : option (SelectionTool.t * Canvas.t) :=
  sc ← SelectionTool.mouse_press s c press;
  s' ← for_each moves SelectionTool.mouse_move sc.1;
  SelectionTool.mouse_release s' sc.2 release.




(** A byte of the buffer after its pixel has been snapped: [j] is any of the
    four offsets of the pixel, [4 * (j / 4) + 3] the offset of its alpha. *)
Definition snap_at (data : list Z) (j : Z) : Z :=
  if byte_of data (4 * (j / 4) + 3) =? 0 then 0
  else if j mod 4 =? 3 then 255
  else byte_of data j.

(** *** Vocabulary of the flood fill *)

(** A coordinate of a [w] x [h] image. *)
Definition inside (w h : Z) (p : Z * Z) : Prop := 0 <= p.1 < w /\ 0 <= p.2 < h.

(** The pixel has the raw RGBA value [target_rgb]. *)
Definition matches (img : QPixmap) (target_rgb : Z) (p : Z * Z) : Prop :=
  rgba (pixelColor img p.1 p.2) = target_rgb.

(** The 4-connected component of the seed among the pixels of [img] that
    have the value [target_rgb]. *)
Inductive connected (img : QPixmap) (target_rgb : Z) (seed : Z * Z) : Z * Z -> Prop :=
| connected_seed :
    matches img target_rgb seed -> connected img target_rgb seed seed
| connected_step p q :
    connected img target_rgb seed p ->
    q ∈ FloodFill.neighbours p.1 p.2 ->
    inside (pm_width img) (pm_height img) q ->
    matches img target_rgb q ->
    connected img target_rgb seed q.

(** The coordinates of the image that are not in the visited set. *)
Definition unvisited (w h : Z) (visited : gset (Z * Z)) : list (Z * Z) :=
  filter (fun p => p ∉ visited) (coords w h).

(** What remains to be done: at most this many iterations. *)
Definition flood_measure (w h : Z) (s : FloodFill.state) : nat :=
  (length (unvisited w h (FloodFill.visited s)) + length (FloodFill.queue s))%nat.

(** The invariant of the [while] loop of the flood fill started at [seed]
    on the image [img0] with the seed's value [target_rgb]. *)
Record flood_inv (img0 : QPixmap) (target_rgb : Z) (fill : QColor) (seed : Z * Z)
       (s : FloodFill.state) : Prop := {
  inv_width : pm_width (FloodFill.img s) = pm_width img0;
  inv_height : pm_height (FloodFill.img s) = pm_height img0;
  inv_visited_inside :
    forall p, p ∈ FloodFill.visited s -> inside (pm_width img0) (pm_height img0) p;
  inv_queue_visited : forall p, p ∈ FloodFill.queue s -> p ∈ FloodFill.visited s;
  inv_queue_nodup : NoDup (FloodFill.queue s);
  inv_writes_nodup : NoDup (FloodFill.writes s);
  inv_writes :
    forall p, p ∈ FloodFill.writes s ->
      (p ∈ FloodFill.visited s) /\ (p ∉ FloodFill.queue s) /\
      connected img0 target_rgb seed p;
  inv_pixel :
    forall x y, pm_pixel (FloodFill.img s) x y =
                if bool_decide ((x, y) ∈ FloodFill.writes s) then fill
                else pm_pixel img0 x y;
  inv_visited_connected :
    forall p, p ∈ FloodFill.visited s -> matches img0 target_rgb p ->
              connected img0 target_rgb seed p;
  inv_closed :
    forall p q, p ∈ FloodFill.writes s -> q ∈ FloodFill.neighbours p.1 p.2 ->
                inside (pm_width img0) (pm_height img0) q -> q ∈ FloodFill.visited s;
  inv_done :
    forall p, p ∈ FloodFill.visited s -> matches img0 target_rgb p ->
              p ∈ FloodFill.queue s \/ p ∈ FloodFill.writes s;
  inv_seed : seed ∈ FloodFill.visited s
}.


(** *** Vocabulary of a session with the selection tool *)

(** What reaches the selection tool: the three mouse events, Select All,
    and the switch to another tool. *)
Inductive tool_event :=
| EvPress (e : MouseEvent)
| EvMove (e : MouseEvent)
| EvRelease (e : MouseEvent)
| EvSelectAll
| EvDeactivate.

Definition tool_step `{QtRaster} (sc : SelectionTool.t * Canvas.t) (e : tool_event)
  : option (SelectionTool.t * Canvas.t) :=
  match e with
  | EvPress e => SelectionTool.mouse_press sc.1 sc.2 e
  | EvMove e => s ← SelectionTool.mouse_move sc.1 e; Some (s, sc.2)
  | EvRelease e => SelectionTool.mouse_release sc.1 sc.2 e
  | EvSelectAll => SelectionTool.select_all sc.1 sc.2
  | EvDeactivate => SelectionTool.deactivate sc.1 sc.2
  end.

(** The attributes that the handlers of a state read are set. *)
Definition gesture_ready (s : SelectionTool.t) : Prop :=
  match SelectionTool._state s with
  | SelectionTool.selecting => is_Some (SelectionTool._start s)
  | SelectionTool.resizing =>
      is_Some (SelectionTool._resize_anchor s) /\
      is_Some (SelectionTool._active_handle s) /\
      is_Some (SelectionTool._drag_start_rect s)
  | SelectionTool.rotating =>
      is_Some (SelectionTool._drag_start_sel_angle s) /\
      is_Some (SelectionTool._drag_start_angle s)
  | _ => True
  end.

(** *** Vocabulary of the view *)

(** The zoom lies between [ZOOM_MIN] and [ZOOM_MAX]. *)
Definition zoom_in_range (v : View.t) : Prop :=
  (ZOOM_MIN <= View.zoom v)%Q /\ (View.zoom v <= ZOOM_MAX)%Q.

(** The ways in which the zoom is changed. *)
Inductive zoom_request :=
| ZoomSet (z : Q) (anchor : option QPoint)
| ZoomIn
| ZoomOut
| ZoomReset.

Definition zoom_step (v : View.t) (r : zoom_request) : option View.t :=
  match r with
  | ZoomSet z anchor => View.set_zoom v z anchor
  | ZoomIn => View.zoom_in v
  | ZoomOut => View.zoom_out v
  | ZoomReset => View.zoom_reset v
  end.

(** *** Vocabulary of the trim *)

(** A pixel that [_on_trim] counts as content: not fully transparent and
    not pure white. *)
Definition is_content (pm : QPixmap) (x y : Z) : bool :=
  let c := pm_pixel pm x y in
  negb (alpha c =? 0)
  && negb ((red c =? 255) && (green c =? 255) && (blue c =? 255)).

(** The update of the bounding box at a content pixel. *)
Definition bbox_add (bb : Z * Z * Z * Z) (x y : Z) : Z * Z * Z * Z :=
  let '(min_x, min_y, max_x, max_y) := bb in
  (if x <? min_x then x else min_x, if y <? min_y then y else min_y,
   if x >? max_x then x else max_x, if y >? max_y then y else max_y).

(** *** Vocabulary of the cursors *)

(** The table from which [_cursor_for_handle] picks. *)
Definition cursor_table : list CursorShape :=
  [ SizeVerCursor; SizeBDiagCursor; SizeHorCursor; SizeFDiagCursor;
    SizeVerCursor; SizeBDiagCursor; SizeHorCursor; SizeFDiagCursor ].
(** * Properties *)

(** ** The undo/redo log *)

Lemma list_pop_nil {A} : list_pop (@nil A) = None.
Proof. reflexivity. Qed.

Lemma list_pop_snoc {A} (l : list A) (x : A) : list_pop (l ++ [x]) = Some (l, x).
Proof. unfold list_pop. rewrite reverse_snoc. by rewrite reverse_involutive. Qed.

Lemma list_pop_Some {A} (l r : list A) (x : A) :
  list_pop l = Some (r, x) -> l = r ++ [x].
Proof.
  unfold list_pop. destruct (reverse l) as [|y r'] eqn:E; [done|].
  intros [= <- <-]. rewrite <- (reverse_involutive l), E.
  by rewrite reverse_cons.
Qed.

Lemma list_pop_None {A} (l : list A) : list_pop l = None -> l = [].
Proof.
  unfold list_pop. destruct (reverse l) eqn:E; [|done].
  intros _. rewrite <- (reverse_involutive l), E. done.
Qed.

Section LogFacts.
Context `{QtRaster}.

Lemma set_pixmap_alpha c pm :
  hasAlphaChannel pm = true -> Canvas.set_pixmap c pm = Canvas.with_pixmap c pm.
Proof. unfold Canvas.set_pixmap. by intros ->. Qed.

Lemma set_pixmap_has_alpha c pm :
  hasAlphaChannel (Canvas.pixmap (Canvas.set_pixmap c pm)) = true.
Proof.
  unfold Canvas.set_pixmap. destruct (hasAlphaChannel pm) eqn:E; simpl; [done|].
  unfold hasAlphaChannel. simpl. by rewrite orb_true_r.
Qed.

Lemma set_pixmap_stacks c pm :
  Canvas._undo_stack (Canvas.set_pixmap c pm) = Canvas._undo_stack c /\
  Canvas._redo_stack (Canvas.set_pixmap c pm) = Canvas._redo_stack c.
Proof. unfold Canvas.set_pixmap. by destruct (negb _). Qed.

(** Undo on a non-empty log, spelled out. *)
Lemma undo_snoc c rest top :
  Canvas._undo_stack c = rest ++ [top] ->
  Canvas.undo c =
    Canvas.set_modified
      (Canvas.set_pixmap
         (Canvas.with_stacks c rest (Canvas._redo_stack c ++ [Canvas.pixmap c])) top)
      true.
Proof. intros E. unfold Canvas.undo. by rewrite E, list_pop_snoc. Qed.

Lemma redo_snoc c rest top :
  Canvas._redo_stack c = rest ++ [top] ->
  Canvas.redo c =
    Canvas.set_modified
      (Canvas.set_pixmap
         (Canvas.with_stacks c (Canvas._undo_stack c ++ [Canvas.pixmap c]) rest) top)
      true.
Proof. intros E. unfold Canvas.redo. by rewrite E, list_pop_snoc. Qed.

(** Undo followed by redo, for a buffer that has an alpha channel. *)
Lemma undo_redo_pixmap c :
  Canvas._undo_stack c <> [] ->
  hasAlphaChannel (Canvas.pixmap c) = true ->
  Canvas.pixmap (Canvas.redo (Canvas.undo c)) = Canvas.pixmap c /\
  Canvas._redo_stack (Canvas.redo (Canvas.undo c)) = Canvas._redo_stack c /\
  length (Canvas._undo_stack (Canvas.redo (Canvas.undo c)))
    = length (Canvas._undo_stack c).
Proof.
  intros Hne Ha.
  destruct (list_pop (Canvas._undo_stack c)) as [[rest top]|] eqn:E.
  2: { by apply list_pop_None in E. }
  apply list_pop_Some in E.
  rewrite (undo_snoc c rest top E).
  set (c1 := Canvas.set_modified _ _).
  assert (Hr : Canvas._redo_stack c1 = Canvas._redo_stack c ++ [Canvas.pixmap c]).
  { unfold c1. simpl. by rewrite (proj2 (set_pixmap_stacks _ _)). }
  assert (Hu : Canvas._undo_stack c1 = rest).
  { unfold c1. simpl. by rewrite (proj1 (set_pixmap_stacks _ _)). }
  rewrite (redo_snoc c1 _ _ Hr). simpl.
  rewrite set_pixmap_alpha by done. simpl.
  rewrite (proj1 (set_pixmap_stacks _ _)). simpl.
  rewrite E, !length_app. done.
Qed.

Lemma undo_stacks c rest top :
  Canvas._undo_stack c = rest ++ [top] ->
  Canvas._undo_stack (Canvas.undo c) = rest /\
  Canvas._redo_stack (Canvas.undo c) = Canvas._redo_stack c ++ [Canvas.pixmap c].
Proof.
  intros E. rewrite (undo_snoc c rest top E).
  unfold Canvas.set_modified; cbn [Canvas._undo_stack Canvas._redo_stack].
  destruct (set_pixmap_stacks
              (Canvas.with_stacks c rest (Canvas._redo_stack c ++ [Canvas.pixmap c]))
              top) as [-> ->].
  done.
Qed.

Lemma redo_stacks c rest top :
  Canvas._redo_stack c = rest ++ [top] ->
  Canvas._undo_stack (Canvas.redo c) = Canvas._undo_stack c ++ [Canvas.pixmap c] /\
  Canvas._redo_stack (Canvas.redo c) = rest.
Proof.
  intros E. rewrite (redo_snoc c rest top E).
  unfold Canvas.set_modified; cbn [Canvas._undo_stack Canvas._redo_stack].
  destruct (set_pixmap_stacks
              (Canvas.with_stacks c (Canvas._undo_stack c ++ [Canvas.pixmap c]) rest)
              top) as [-> ->].
  done.
Qed.

Lemma undo_empty c : Canvas._undo_stack c = [] -> Canvas.undo c = c.
Proof. intros E. unfold Canvas.undo. by rewrite E. Qed.

(** The buffer of every canvas that a session reaches has an alpha
    channel: the invariant that the [pixmap] setter maintains. *)
Lemma step_has_alpha c o :
  hasAlphaChannel (Canvas.pixmap c) = true ->
  hasAlphaChannel (Canvas.pixmap (Canvas.step c o)) = true.
Proof.
  intros Ha. destruct o; simpl; try done.
  - unfold Canvas.undo. destruct (list_pop _) as [[??]|]; [|done].
    simpl. apply set_pixmap_has_alpha.
  - unfold Canvas.redo. destruct (list_pop _) as [[??]|]; [|done].
    simpl. apply set_pixmap_has_alpha.
  - unfold Canvas.load_image. destruct (isNull img); [done|].
    simpl. apply set_pixmap_has_alpha.
  - unfold Canvas.new_canvas. simpl.
    apply (set_pixmap_has_alpha c (QPixmap_filled w h Qt_transparent)).
  - apply set_pixmap_has_alpha.
Qed.

Lemma run_has_alpha c ops :
  hasAlphaChannel (Canvas.pixmap c) = true ->
  hasAlphaChannel (Canvas.pixmap (Canvas.run c ops)) = true.
Proof.
  revert c. induction ops as [|o ops IH]; intros c Ha; [done|].
  simpl. apply IH. by apply step_has_alpha.
Qed.

Lemma init_has_alpha w h : hasAlphaChannel (Canvas.pixmap (Canvas.init w h)) = true.
Proof. unfold hasAlphaChannel. simpl. by rewrite orb_true_r. Qed.
End LogFacts.

(** C4. On every canvas that a session reaches from a fresh canvas, undo
    followed by redo leaves the buffer exactly as it was before the undo
    when the undo stack is not empty (the redo stack and the depth of the
    undo stack are restored as well), and undo on an empty undo stack
    changes nothing: buffer, both stacks and all other attributes stay. *)
Theorem undo_then_redo_restores_buffer `{QtRaster} (w h : Z) (ops : list Canvas.op) :
  let c := Canvas.run (Canvas.init w h) ops in
  (Canvas._undo_stack c <> [] ->
     Canvas.pixmap (Canvas.redo (Canvas.undo c)) = Canvas.pixmap c /\
     Canvas._redo_stack (Canvas.redo (Canvas.undo c)) = Canvas._redo_stack c /\
     length (Canvas._undo_stack (Canvas.redo (Canvas.undo c)))
       = length (Canvas._undo_stack c)) /\
  (Canvas._undo_stack c = [] -> Canvas.undo c = c).
Proof.
  intros c. split.
  - intros Hne. apply undo_redo_pixmap; [done|].
    apply run_has_alpha, init_has_alpha.
  - apply undo_empty.
Qed.


Section SaveUndoFacts.
Context `{QtRaster}.

Lemma save_undo_stack c :
  Canvas._undo_stack (Canvas.save_undo c) =
    (if decide (MAX_UNDO <= length (Canvas._undo_stack c))%nat
     then tail (Canvas._undo_stack c) else Canvas._undo_stack c)
    ++ [Canvas.pixmap c].
Proof.
  unfold Canvas.save_undo. simpl. rewrite length_app. simpl.
  destruct (Canvas._undo_stack c) as [|p l] eqn:E; simpl.
  - unfold MAX_UNDO. repeat case_decide; try lia; done.
  - repeat case_decide; try lia; done.
Qed.

Lemma save_undo_length c :
  (length (Canvas._undo_stack c) <= MAX_UNDO)%nat ->
  (length (Canvas._undo_stack (Canvas.save_undo c)) <= MAX_UNDO)%nat.
Proof.
  intros Hl. rewrite save_undo_stack, length_app. simpl.
  case_decide.
  - destruct (Canvas._undo_stack c); simpl in *; unfold MAX_UNDO in *; lia.
  - lia.
Qed.

Lemma step_log_bounded c o : log_bounded c -> log_bounded (Canvas.step c o).
Proof.
  unfold log_bounded. intros Hb. destruct o; simpl.
  - rewrite Nat.add_0_r. apply save_undo_length. lia.
  - destruct (list_pop (Canvas._undo_stack c)) as [[rest top]|] eqn:E.
    + apply list_pop_Some in E.
      destruct (undo_stacks c rest top E) as [-> ->].
      rewrite E in Hb. rewrite !length_app in *. simpl in *. lia.
    + unfold Canvas.undo. by rewrite E.
  - destruct (list_pop (Canvas._redo_stack c)) as [[rest top]|] eqn:E.
    + apply list_pop_Some in E.
      destruct (redo_stacks c rest top E) as [-> ->].
      rewrite E in Hb. rewrite !length_app in *. simpl in *. lia.
    + unfold Canvas.redo. by rewrite E.
  - unfold Canvas.load_image. destruct (isNull img); [done|]. simpl. lia.
  - simpl. lia.
  - done.
  - by destruct (set_pixmap_stacks c pm) as [-> ->].
Qed.

Lemma run_log_bounded c ops : log_bounded c -> log_bounded (Canvas.run c ops).
Proof.
  revert c. induction ops as [|o ops IH]; intros c Hb; [done|].
  simpl. apply IH. by apply step_log_bounded.
Qed.
End SaveUndoFacts.

(** C5. [save_undo] appends a copy of the current buffer to the undo stack,
    drops the oldest snapshot when the stack would then hold more than
    [MAX_UNDO] = 50, empties the redo stack and leaves the buffer alone; and
    in every canvas that a session reaches from a fresh canvas the undo
    stack holds at most 50 snapshots. *)
Theorem save_undo_pushes_evicts_clears `{QtRaster} :
  (forall c : Canvas.t,
     Canvas._undo_stack (Canvas.save_undo c) =
       (if decide (MAX_UNDO <= length (Canvas._undo_stack c))%nat
        then tail (Canvas._undo_stack c) else Canvas._undo_stack c)
       ++ [copy (Canvas.pixmap c)] /\
     Canvas._redo_stack (Canvas.save_undo c) = [] /\
     Canvas.pixmap (Canvas.save_undo c) = Canvas.pixmap c) /\
  MAX_UNDO = 50%nat /\
  (forall (w h : Z) (ops : list Canvas.op),
     (length (Canvas._undo_stack (Canvas.run (Canvas.init w h) ops)) <= MAX_UNDO)%nat).
Proof.
  split; [|split; [done|]].
  - intros c. split; [apply save_undo_stack|done].
  - intros w h ops.
    assert (Hb : log_bounded (Canvas.run (Canvas.init w h) ops)).
    { apply run_log_bounded. unfold log_bounded, MAX_UNDO. simpl. lia. }
    unfold log_bounded in Hb. lia.
Qed.

(** ** Fill and picker: the cases without effect *)



Lemma out_of_bounds_test pm pos :
  out_of_bounds pm pos ->
  (pt_x pos <? 0) || (pt_x pos >=? pm_width pm)
    || (pt_y pos <? 0) || (pt_y pos >=? pm_height pm) = true.
Proof.
  unfold out_of_bounds. intros Ho.
  destruct (Z.ltb_spec (pt_x pos) 0); [done|].
  destruct (Z.geb_spec (pt_x pos) (pm_width pm)); [done|].
  destruct (Z.ltb_spec (pt_y pos) 0); [done|].
  destruct (Z.geb_spec (pt_y pos) (pm_height pm)); [done|].
  lia.
Qed.

(** C9. For a position outside the buffer, the flood fill of the fill tool
    and the colour picker return the canvas untouched (buffer, colours and
    log), the alpha flood fill returns its canvas untouched, and the press
    of the alpha brush that calls it leaves the buffer unchanged; none of
    them raises. *)
Theorem out_of_bounds_seed_is_ignored `{QtRaster} (c : Canvas.t) (event : MouseEvent) :
  out_of_bounds (Canvas.pixmap c) (ev_pos event) ->
  FillTool.mouse_press c event = Some c /\
  AlphaBrushTool._alpha_flood_fill c (ev_pos event) = Some c /\
  (exists c', AlphaBrushTool.mouse_press_shift c event = Some c' /\
              Canvas.pixmap c' = Canvas.pixmap c) /\
  PickerTool.mouse_press c event = c.
Proof.
  intros Ho. pose proof (out_of_bounds_test _ _ Ho) as Ht.
  repeat split.
  - unfold FillTool.mouse_press, toImage. by rewrite Ht.
  - unfold AlphaBrushTool._alpha_flood_fill, toImage. by rewrite Ht.
  - exists (Canvas.save_undo c). split; [|done].
    unfold AlphaBrushTool.mouse_press_shift, AlphaBrushTool._alpha_flood_fill, toImage.
    change (Canvas.pixmap (Canvas.save_undo c)) with (Canvas.pixmap c).
    by rewrite Ht.
  - unfold PickerTool.mouse_press, toImage.
    destruct Ho as [?|[?|[?|?]]].
    + destruct (Z.leb_spec 0 (pt_x (ev_pos event))); [lia|done].
    + destruct (Z.ltb_spec (pt_x (ev_pos event)) (pm_width (Canvas.pixmap c)));
        [lia|]. by rewrite andb_false_r.
    + destruct (Z.leb_spec 0 (pt_y (ev_pos event))); [lia|].
      by rewrite andb_false_r.
    + destruct (Z.ltb_spec (pt_y (ev_pos event)) (pm_height (Canvas.pixmap c)));
        [lia|]. by rewrite andb_false_r.
Qed.

(** ** Selecting *)

Section SelectingFacts.
Context `{QtRaster}.
Import SelectionTool.

(** A press that starts a new selection on a tool without floating
    selection. *)
Lemma press_starts_selecting s c press :
  floating (_state s) = false ->
  ev_button press = LeftButton ->
  exists s1, mouse_press s c press = Some (s1, Canvas.save_undo c) /\
             _state s1 = selecting /\ _start s1 = Some (ev_pos press) /\
             _angle s1 = 0%Q.
Proof.
  intros Hf Hb. unfold mouse_press.
  rewrite decide_False by (intros Hn; by apply Hn).
  unfold press_outside.
  destruct (_state s) eqn:Es; try discriminate; rewrite ?Es; simpl; eauto.
Qed.

(** Moves during [selecting] only change the rectangle. *)
Lemma moves_keep_selecting moves : forall s p,
  _state s = selecting -> _start s = Some p ->
  exists s', for_each moves mouse_move s = Some s' /\
             _state s' = selecting /\ _start s' = Some p /\ _angle s' = _angle s.
Proof.
  induction moves as [|m moves IH]; intros s p Hs Hp; cbn [for_each].
  - eauto.
  - assert (Em : mouse_move s m
                 = Some (with_rect s (normalized (QRect_of_points p (ev_pos m)))))
      by (unfold mouse_move; by rewrite Hs, Hp).
    rewrite Em. simpl.
    destruct (IH (with_rect s (normalized (QRect_of_points p (ev_pos m)))) p)
      as (s' & E & ? & ? & ?); try done.
    exists s'. by rewrite E.
Qed.

(** The drag up to the release, for a tool without floating selection. *)
Lemma drag_reaches_release s c press moves release :
  floating (_state s) = false ->
  ev_button press = LeftButton ->
  exists s', drag s c press moves release
               = mouse_release s' (Canvas.save_undo c) release /\
             _state s' = selecting /\ _start s' = Some (ev_pos press) /\
             _angle s' = 0%Q.
Proof.
  intros Hf Hb.
  destruct (press_starts_selecting s c press Hf Hb) as (s1 & E1 & Hs & Hp & Ha).
  destruct (moves_keep_selecting moves s1 _ Hs Hp) as (s' & E2 & Hs' & Hp' & Ha').
  exists s'. unfold drag. rewrite E1. simpl. rewrite E2. simpl.
  repeat split; try done. congruence.
Qed.
End SelectingFacts.

(** C10. A drag with the selection tool (no floating selection before it)
    that is released on a rectangle of width or height at most 1 leaves the
    buffer unchanged and puts the tool back in its idle, reset state; the
    press has nevertheless appended a snapshot of the buffer to the undo
    stack (dropping the oldest one at capacity) and emptied the redo
    stack. *)
Theorem degenerate_drag_still_logs `{QtRaster}
        (s : SelectionTool.t) (c : Canvas.t)
        (press : MouseEvent) (moves : list MouseEvent) (release : MouseEvent) :
  SelectionTool.floating (SelectionTool._state s) = false ->
  ev_button press = LeftButton ->
  (let rect := normalized (QRect_of_points (ev_pos press) (ev_pos release)) in
   rect_width rect <= 1 \/ rect_height rect <= 1) ->
  exists c',
    drag s c press moves release = Some (SelectionTool._reset, c') /\
    SelectionTool._state SelectionTool._reset = SelectionTool.idle /\
    Canvas.pixmap c' = Canvas.pixmap c /\
    Canvas._undo_stack c' =
      (if decide (MAX_UNDO <= length (Canvas._undo_stack c))%nat
       then tail (Canvas._undo_stack c) else Canvas._undo_stack c)
      ++ [copy (Canvas.pixmap c)] /\
    Canvas._redo_stack c' = [].
Proof.
  intros Hf Hb Hdeg.
  destruct (drag_reaches_release s c press moves release Hf Hb)
    as (s' & E & Hs & Hp & _).
  exists (Canvas.save_undo c). rewrite E.
  unfold SelectionTool.mouse_release. rewrite Hs, Hp. simpl.
  set (rect := normalized _) in *.
  assert (Ht : (rect_width rect >? 1) && (rect_height rect >? 1) = false).
  { destruct Hdeg.
    - destruct (Z.gtb_spec (rect_width rect) 1); [lia|done].
    - destruct (Z.gtb_spec (rect_height rect) 1); [lia|]. by rewrite andb_false_r. }
  rewrite Ht. repeat split; try done. apply save_undo_stack.
Qed.

(** ** Select, then commit *)

Lemma py_int_inject_Z (z : Z) : py_int (inject_Z z) = z.
Proof.
  unfold py_int. destruct (Qle_bool 0 (inject_Z z)).
  - apply Qfloor_Z.
  - apply Qceiling_Z.
Qed.

Lemma intersected_inside (pm : QPixmap) (rect : QRect) :
  x1 rect <= x2 rect -> y1 rect <= y2 rect ->
  0 <= x1 rect -> 0 <= y1 rect ->
  x2 rect < pm_width pm -> y2 rect < pm_height pm ->
  intersected (pm_rect pm) rect = rect.
Proof.
  intros. destruct rect as [a b a' b']. simpl in *.
  unfold intersected, rect_isEmpty, pm_rect, QRect_xywh. simpl.
  repeat match goal with
         | |- context [?u <? ?v] => destruct (Z.ltb_spec u v); try lia; simpl
         end.
  f_equal; lia.
Qed.

Section CommitFacts.
Context `{QtRaster}.
Import SelectionTool.

Lemma commit_size_of_rect s :
  1 <= rect_width (_rect s) -> 1 <= rect_height (_rect s) ->
  commit_size s = (rect_width (_rect s), rect_height (_rect s)).
Proof.
  intros. unfold commit_size, QRectF_of. simpl.
  rewrite !py_int_inject_Z. f_equal; lia.
Qed.

(** The unrotated commit of a snippet that has the size of the rectangle,
    with the rectangle inside the buffer: the snippet replaces the pixels
    of the rectangle, nothing else changes. *)
Lemma commit_in_place s c snippet :
  _snippet s = Some snippet ->
  floating (_state s) = true ->
  _angle s = 0%Q ->
  1 <= rect_width (_rect s) -> 1 <= rect_height (_rect s) ->
  pm_width snippet = rect_width (_rect s) ->
  pm_height snippet = rect_height (_rect s) ->
  x2 (_rect s) < pm_width (Canvas.pixmap c) ->
  y2 (_rect s) < pm_height (Canvas.pixmap c) ->
  _commit s c =
    Some (Canvas.with_pixmap c
            (drawPixmap_source (Canvas.pixmap c) (x1 (_rect s)) (y1 (_rect s)) snippet)).
Proof.
  intros Hsn Hf Ha Hw Hh Hsw Hsh Hx Hy.
  unfold _commit. rewrite Hsn, Hf.
  assert (Hnn : isNull snippet = false).
  { unfold isNull. rewrite Hsw, Hsh.
    destruct (Z.leb_spec (rect_width (_rect s)) 0); [lia|].
    destruct (Z.leb_spec (rect_height (_rect s)) 0); [lia|done]. }
  rewrite Hnn. cbn [negb andb].
  unfold unrotated_stamp.
  rewrite (commit_size_of_rect s Hw Hh), Ha.
  change (Qlt_bool (Qabs 0) (1 # 100)) with true. cbv iota.
  rewrite Hsw, Hsh, !Z.eqb_refl. simpl.
  unfold rect_x, rect_y, rect_width, rect_height in *.
  destruct (Z.gtb_spec (x1 (_rect s) + (x2 (_rect s) - x1 (_rect s) + 1))
                       (pm_width (Canvas.pixmap c))); [lia|].
  destruct (Z.gtb_spec (y1 (_rect s) + (y2 (_rect s) - y1 (_rect s) + 1))
                       (pm_height (Canvas.pixmap c))); [lia|].
  done.
Qed.
End CommitFacts.

(** C1. Dragging out a rectangle of width and height above 1 that lies
    wholly inside the buffer (on a tool without floating selection) leaves
    the tool in state [selected] with angle 0, the rectangle, and the copy of
    the rectangle as snippet, and the buffer with the rectangle painted in
    the background colour (which, for an opaque background colour, makes
    every pixel of the rectangle that colour); committing that selection as it is returns a
    buffer of the same size whose pixels inside the rectangle are those of
    the buffer before the drag. *)
Theorem select_then_commit_round_trip `{QtRaster}
        (s : SelectionTool.t) (c : Canvas.t)
        (press : MouseEvent) (moves : list MouseEvent) (release : MouseEvent) :
  let rect := normalized (QRect_of_points (ev_pos press) (ev_pos release)) in
  let pm := Canvas.pixmap c in
  SelectionTool.floating (SelectionTool._state s) = false ->
  ev_button press = LeftButton ->
  1 < rect_width rect -> 1 < rect_height rect ->
  0 <= x1 rect -> 0 <= y1 rect ->
  x2 rect < pm_width pm -> y2 rect < pm_height pm ->
  exists s' c1 c2,
    drag s c press moves release = Some (s', c1) /\
    SelectionTool._state s' = SelectionTool.selected /\
    SelectionTool._rect s' = rect /\
    SelectionTool._angle s' = 0%Q /\
    SelectionTool._snippet s' = Some (copy_rect pm rect) /\
    Canvas.pixmap c1 = fillRect pm rect (Canvas.bg_color c) /\
    (alpha (Canvas.bg_color c) = 255 ->
     forall x y, rect_contains rect x y = true ->
                 pm_pixel (Canvas.pixmap c1) x y = Canvas.bg_color c) /\
    SelectionTool._commit s' c1 = Some c2 /\
    pm_width (Canvas.pixmap c2) = pm_width pm /\
    pm_height (Canvas.pixmap c2) = pm_height pm /\
    forall x y, rect_contains rect x y = true ->
                pm_pixel (Canvas.pixmap c2) x y = pm_pixel pm x y.
Proof.
  intros rect pm Hf Hb Hw Hh Hx1 Hy1 Hx2 Hy2.
  destruct (drag_reaches_release s c press moves release Hf Hb)
    as (s0 & E & Hs & Hp & Ha).
  rewrite E. unfold SelectionTool.mouse_release. rewrite Hs, Hp. simpl.
  fold rect.
  destruct (Z.gtb_spec (rect_width rect) 1); [|lia].
  destruct (Z.gtb_spec (rect_height rect) 1); [|lia]. simpl.
  change (Canvas.pixmap (Canvas.save_undo c)) with pm.
  change (Canvas.bg_color (Canvas.save_undo c)) with (Canvas.bg_color c).
  set (s1 := SelectionTool.with_state _ _).
  set (c1 := Canvas.with_pixmap _ _).
  assert (Hcopy : copy_rect pm rect
                  = mkQPixmap (rect_width rect) (rect_height rect) (pm_alpha pm)
                      (fun x y => pm_pixel pm (rect_x rect + x) (rect_y rect + y))).
  { unfold copy_rect, rect_width, rect_height in *.
    replace (rect_isEmpty rect) with false.
    2: { unfold rect_isEmpty.
         destruct (Z.ltb_spec (x2 rect) (x1 rect)); [lia|].
         destruct (Z.ltb_spec (y2 rect) (y1 rect)); [lia|done]. }
    rewrite intersected_inside by (fold pm; lia). done. }
  assert (Hcommit : SelectionTool._commit s1 c1
                    = Some (Canvas.with_pixmap c1
                              (drawPixmap_source (Canvas.pixmap c1)
                                 (x1 rect) (y1 rect) (copy_rect pm rect)))).
  { apply (commit_in_place s1 c1 (copy_rect pm rect)).
    - reflexivity.
    - reflexivity.
    - exact Ha.
    - change (1 <= rect_width rect). lia.
    - change (1 <= rect_height rect). lia.
    - by rewrite Hcopy.
    - by rewrite Hcopy.
    - change (x2 rect < pm_width pm). lia.
    - change (y2 rect < pm_height pm). lia. }
  exists s1, c1, (Canvas.with_pixmap c1
                    (drawPixmap_source (Canvas.pixmap c1)
                       (x1 rect) (y1 rect) (copy_rect pm rect))).
  split; [done|]. split; [done|]. split; [done|]. split; [done|].
  split; [done|]. split; [done|].
  split.
  { intros Hop x y Hin. subst c1. cbn [Canvas.pixmap Canvas.with_pixmap Canvas._pixmap
                                       fillRect pm_pixel].
    rewrite Hin. unfold source_over. by rewrite Hop. }
  split; [done|]. split; [done|]. split; [done|].
  intros x y Hin. rewrite Hcopy. simpl.
  unfold rect_contains in Hin. unfold in_bounds, rect_width, rect_height, rect_x, rect_y.
  apply andb_prop in Hin as [Hin Hd]. apply andb_prop in Hin as [Hin Hc].
  apply andb_prop in Hin as [Ha' Hb'].
  apply Z.leb_le in Ha', Hb', Hc, Hd.
  destruct (Z.leb_spec 0 (x - x1 rect)); [|lia].
  destruct (Z.ltb_spec (x - x1 rect) (x2 rect - x1 rect + 1)); [|lia].
  destruct (Z.leb_spec 0 (y - y1 rect)); [|lia].
  destruct (Z.ltb_spec (y - y1 rect) (y2 rect - y1 rect + 1)); [|lia].
    simpl. f_equal; lia.
Qed.

(** ** Resizing *)

#[export] Instance py_int_comp : Proper (Qeq ==> eq) py_int.
Proof.
  intros a b E. unfold py_int. rewrite E.
  destruct (Qle_bool 0 b); by rewrite E.
Qed.

#[export] Instance py_max_comp : Proper (Qeq ==> Qeq ==> Qeq) py_max.
Proof.
  intros a b E a' b' E'. unfold py_max. rewrite E, E'.
  by destruct (Qle_bool b' b).
Qed.

Lemma py_max_ge_r (a b : Q) : (b <= py_max a b)%Q.
Proof.
  unfold py_max. destruct (Qle_bool b a) eqn:E.
  - by apply Qle_bool_iff.
  - apply Qle_refl.
Qed.

Lemma py_max_l (a b : Q) : (b <= a)%Q -> py_max a b = a.
Proof. intros L. unfold py_max. apply Qle_bool_iff in L. by rewrite L. Qed.

Lemma py_int_ge (q : Q) (z : Z) : 0 <= z -> (inject_Z z <= q)%Q -> z <= py_int q.
Proof.
  intros Hz Hq. unfold py_int.
  assert (H0 : (0 <= q)%Q).
  { eapply Qle_trans; [|exact Hq]. change 0%Q with (inject_Z 0). by rewrite <- Zle_Qle. }
  apply Qle_bool_iff in H0. rewrite H0.
  rewrite <- (Qfloor_Z z). by apply Qfloor_resp_le.
Qed.

Lemma py_int_of_Z (q : Q) (z : Z) : (q == inject_Z z)%Q -> py_int q = z.
Proof. intros E. rewrite E. apply py_int_inject_Z. Qed.

Lemma rect_xywh_width x y w h : rect_width (QRect_xywh x y w h) = w.
Proof. unfold rect_width, QRect_xywh. simpl. lia. Qed.

Lemma rect_xywh_height x y w h : rect_height (QRect_xywh x y w h) = h.
Proof. unfold rect_height, QRect_xywh. simpl. lia. Qed.

Section ResizeFacts.
Context `{QtRaster}.
Import SelectionTool.

(** What one [_do_resize] makes of the width and the height. *)
Lemma do_resize_dims s pos s' handle start_rect :
  _active_handle s = Some handle ->
  _drag_start_rect s = Some start_rect ->
  _do_resize s pos = Some s' ->
  (if _CHANGES_X handle then 4 <= rect_width (_rect s')
   else rect_width (_rect s') = py_int (rf_w start_rect)) /\
  (if _CHANGES_Y handle then 4 <= rect_height (_rect s')
   else rect_height (_rect s') = py_int (rf_h start_rect)) /\
  _state s' = _state s /\ _active_handle s' = _active_handle s /\
  _drag_start_rect s' = _drag_start_rect s /\ _resize_anchor s' = _resize_anchor s.
Proof.
  intros Hh Hr. unfold _do_resize. rewrite Hh, Hr.
  destruct (_resize_anchor s) as [anchor|] eqn:Ea; [|done]. simpl.
  intros [= <-]. simpl. rewrite rect_xywh_width, rect_xywh_height.
  split; [|split; [|done]].
  - destruct (_CHANGES_X handle); [|done].
    apply py_int_ge; [lia|]. apply (py_max_ge_r _ 4).
  - destruct (_CHANGES_Y handle); [|done].
    apply py_int_ge; [lia|]. apply (py_max_ge_r _ 4).
Qed.

(** A press that begins a resize: it hit a resize handle of a rectangle of
    width and height at least 2, fixed the opposite handle as anchor and
    recorded the rectangle. *)
Lemma press_enters_resizing s c press s1 c1 :
  mouse_press s c press = Some (s1, c1) ->
  _state s <> resizing -> _state s1 = resizing ->
  exists handle anchor,
    _hit_handle s c (ev_pos press) = Some (Some handle) /\
    _active_handle s1 = Some handle /\
    _resize_anchor s1 = Some anchor /\
    _drag_start_rect s1 = Some (QRectF_of (_rect s)) /\
    _rect s1 = _rect s /\ _angle s1 = _angle s /\
    2 <= rect_width (_rect s) /\ 2 <= rect_height (_rect s).
Proof.
  unfold mouse_press. intros E Hn Hr.
  destruct (decide (ev_button press ≠ LeftButton)).
  { injection E as <- <-. done. }
  assert (Hout : forall s2 c2, press_outside s c (ev_pos press) = Some (s2, c2) ->
                               _state s2 = selecting).
  { unfold press_outside. intros s2 c2.
    destruct (if floating (_state s) then _ else _); simpl; [|done].
    by intros [= <- _]. }
  assert (Hsel : _state s = selected \/ _state s = moving).
  { destruct (_state s); auto; apply Hout in E; congruence. }
  assert (E' :
    (handle ← _hit_handle s c (ev_pos press);
     match handle with
     | Some H_rotate =>
         let center := QPointF_of (rect_center (_rect s)) in
         let a := atan2_deg (inject_Z (pt_y (ev_pos press)) - ptf_y center)
                            (inject_Z (pt_x (ev_pos press)) - ptf_x center) in
         Some (mk rotating (_start s) (_rect s) (_snippet s) (_angle s)
                  (_move_offset s) (_active_handle s) (_resize_anchor s)
                  (_drag_start_rect s) (Some a) (Some (_angle s)), c)
     | Some handle =>
         opp ← _OPPOSITE handle;
         anchor ← handle_lookup (_get_handle_positions s c) opp;
         Some (mk resizing (_start s) (_rect s) (_snippet s) (_angle s)
                  (_move_offset s) (Some handle) (Some anchor)
                  (Some (QRectF_of (_rect s)))
                  (_drag_start_angle s) (_drag_start_sel_angle s), c)
     | None =>
         if _point_in_selection s (ev_pos press) then
           let ctr := rect_center (_rect s) in
           let off := mkQPointF (inject_Z (pt_x (ev_pos press)) - inject_Z (pt_x ctr))
                                (inject_Z (pt_y (ev_pos press)) - inject_Z (pt_y ctr)) in
           Some (mk moving (_start s) (_rect s) (_snippet s) (_angle s)
                    (Some off) (_active_handle s) (_resize_anchor s)
                    (_drag_start_rect s) (_drag_start_angle s)
                    (_drag_start_sel_angle s), c)
         else press_outside s c (ev_pos press)
     end) = Some (s1, c1)).
  { destruct Hsel as [Hs|Hs]; rewrite Hs in E; exact E. }
  clear E.
  destruct (_hit_handle s c (ev_pos press)) as [[handle|]|] eqn:Eh; simpl in E';
    [| |done].
  2: { destruct (_point_in_selection s (ev_pos press)).
       - injection E' as <- <-. done.
       - apply Hout in E'. congruence. }
  assert (Hpos : _get_handle_positions s c <> []).
  { unfold _hit_handle in Eh. intros Hnil. rewrite Hnil in Eh.
    destruct Hsel as [Hs|Hs]; rewrite Hs in Eh;
      destruct (Qeq_bool (Canvas.zoom c) 0); done. }
  assert (Hdim : 2 <= rect_width (_rect s) /\ 2 <= rect_height (_rect s)).
  { unfold _get_handle_positions in Hpos.
    destruct (Z.ltb_spec (rect_width (_rect s)) 2); [done|].
    destruct (Z.ltb_spec (rect_height (_rect s)) 2); [done|]. lia. }
  destruct Hdim as [Hd1 Hd2].
  destruct handle; cbn [_OPPOSITE mbind option_bind] in E'.
  all: try (destruct (handle_lookup (_get_handle_positions s c) _) as [anchor|];
         [|done]; cbn [mbind option_bind] in E';
         injection E' as <- <-; eexists _, anchor; by repeat split).
  injection E' as <- <-. done.
Qed.

Lemma handle_lookup_west (g : QPointF -> QPointF) (p1 p2 p3 p4 p5 p6 p7 p8 p9 : QPointF) :
  handle_lookup
    ((fun nl : handle * QPointF => (nl.1, g nl.2)) <$>
       [ (H_nw, p1); (H_n, p2); (H_ne, p3); (H_e, p4); (H_se, p5); (H_s, p6);
         (H_sw, p7); (H_w, p8); (H_rotate, p9) ])
    H_w = Some (g p8).
Proof. reflexivity. Qed.

(** The west handle of an unrotated rectangle is the midpoint of its west
    edge. *)
Lemma west_handle_at_angle_zero s c (x y w h : Z) :
  (cos_deg 0 == 1)%Q -> (sin_deg 0 == 0)%Q ->
  _rect s = QRect_xywh x y w h -> _angle s = 0%Q ->
  2 <= w -> 2 <= h ->
  exists anchor,
    handle_lookup (_get_handle_positions s c) H_w = Some anchor /\
    (ptf_x anchor == inject_Z x)%Q /\
    (ptf_y anchor == inject_Z y + inject_Z h / 2)%Q.
Proof.
  intros Hcos Hsin Hr Ha Hw Hh.
  unfold _get_handle_positions. rewrite Hr, Ha, rect_xywh_width, rect_xywh_height.
  destruct (Z.ltb_spec w 2); [lia|]. destruct (Z.ltb_spec h 2); [lia|].
  cbn [orb].
  eexists. split.
  - apply (handle_lookup_west
             (fun p => _rotate_point
                         (mkQPointF (ptf_x (rectf_center (QRectF_of (QRect_xywh x y w h)))
                                     + ptf_x p)
                                    (ptf_y (rectf_center (QRectF_of (QRect_xywh x y w h)))
                                     + ptf_y p))
                         (rectf_center (QRectF_of (QRect_xywh x y w h))) 0)).
  - unfold _rotate_point, rectf_center, QRectF_of.
    rewrite rect_xywh_width, rect_xywh_height.
    cbn [ptf_x ptf_y rf_x rf_y rf_w rf_h rect_x rect_y QRect_xywh x1 y1].
    rewrite Hcos, Hsin. split; field.
Qed.

(** One resize step with the east handle at angle 0, the pointer [e] pixels
    east of the anchor. *)
Lemma do_resize_east_at_angle_zero s pos anchor (x y e h : Z) :
  (cos_deg 0 == 1)%Q -> (sin_deg 0 == 0)%Q ->
  _angle s = 0%Q ->
  _active_handle s = Some H_e ->
  _resize_anchor s = Some anchor ->
  (exists r0, _drag_start_rect s = Some r0 /\ rf_h r0 = inject_Z h) ->
  (ptf_x anchor == inject_Z x)%Q ->
  (ptf_y anchor == inject_Z y + inject_Z h / 2)%Q ->
  pt_x pos = x + e -> 4 <= e ->
  _do_resize s pos = Some (with_rect s (QRect_xywh x y e h)).
Proof.
  intros Hcos Hsin Ha Hh Han (r0 & Hr0 & Hrh) Hax Hay Hpx He.
  unfold _do_resize. rewrite Han, Hh, Hr0, Ha. cbn [mbind option_bind _CHANGES_X _CHANGES_Y].
  unfold QPointF_of. cbn [ptf_x ptf_y]. rewrite Hpx, Hrh.
  assert (Hproj : ((inject_Z (x + e) - ptf_x anchor) * cos_deg 0
                   + (inject_Z (pt_y pos) - ptf_y anchor) * sin_deg 0
                   == inject_Z e)%Q).
  { rewrite Hcos, Hsin, Hax, inject_Z_plus. ring. }
  assert (Hnw : (py_max (Qabs ((inject_Z (x + e) - ptf_x anchor) * cos_deg 0
                               + (inject_Z (pt_y pos) - ptf_y anchor) * sin_deg 0)) 4
                 == inject_Z e)%Q).
  { rewrite Hproj. rewrite Qabs_pos.
    - rewrite py_max_l; [reflexivity|].
      change 4%Q with (inject_Z 4). by rewrite <- Zle_Qle.
    - change 0%Q with (inject_Z 0). rewrite <- Zle_Qle. lia. }
  do 2 f_equal. unfold QRect_xywh.
  assert (E1 : py_int
                 (ptf_x anchor
                  + ((inject_Z (x + e) - ptf_x anchor) * cos_deg 0
                     + (inject_Z (pt_y pos) - ptf_y anchor) * sin_deg 0) / 2 * cos_deg 0
                  - 0 * sin_deg 0
                  - py_max (Qabs ((inject_Z (x + e) - ptf_x anchor) * cos_deg 0
                                  + (inject_Z (pt_y pos) - ptf_y anchor) * sin_deg 0)) 4 / 2)
               = x).
  { apply py_int_of_Z.
    rewrite Hnw, Hproj, Hcos, Hsin, Hax. field. }
  assert (E2 : py_int
                 (ptf_y anchor
                  + ((inject_Z (x + e) - ptf_x anchor) * cos_deg 0
                     + (inject_Z (pt_y pos) - ptf_y anchor) * sin_deg 0) / 2 * sin_deg 0
                  + 0 * cos_deg 0 - inject_Z h / 2)
               = y).
  { apply py_int_of_Z.
    rewrite Hproj, Hcos, Hsin, Hay. field. }
  assert (E3 : py_int (py_max (Qabs ((inject_Z (x + e) - ptf_x anchor) * cos_deg 0
                                     + (inject_Z (pt_y pos) - ptf_y anchor) * sin_deg 0)) 4)
               = e).
  { by apply py_int_of_Z. }
  rewrite E1, E2, E3, py_int_inject_Z. done.
Qed.
End ResizeFacts.

Section ResizeGesture.
Context `{QtRaster}.
Import SelectionTool.

(** The moves of a resize gesture all succeed; each leaves a rectangle whose
    changed dimensions are at least 4 and whose other dimensions are those
    of the start rectangle. *)
Lemma resize_moves_dims moves : forall s mv handle anchor start_rect,
  _state s = resizing ->
  _active_handle s = Some handle ->
  _resize_anchor s = Some anchor ->
  _drag_start_rect s = Some start_rect ->
  exists s', for_each (moves ++ [mv]) mouse_move s = Some s' /\
    (if _CHANGES_X handle then 4 <= rect_width (_rect s')
     else rect_width (_rect s') = py_int (rf_w start_rect)) /\
    (if _CHANGES_Y handle then 4 <= rect_height (_rect s')
     else rect_height (_rect s') = py_int (rf_h start_rect)).
Proof.
  induction moves as [|m moves IH]; intros s mv handle anchor start_rect Hs Hh Ha Hr.
  - cbn [app for_each].
    assert (E : exists s', _do_resize s (ev_pos mv) = Some s').
    { unfold _do_resize. rewrite Ha, Hh, Hr. simpl. eauto. }
    destruct E as (s' & E).
    assert (Em : mouse_move s mv = Some s') by (unfold mouse_move; by rewrite Hs).
    rewrite Em. cbn [mbind option_bind]. exists s'. split; [done|].
    destruct (do_resize_dims s _ s' handle start_rect Hh Hr E) as (? & ? & _).
    done.
  - cbn [app for_each].
    assert (E : exists s', _do_resize s (ev_pos m) = Some s').
    { unfold _do_resize. rewrite Ha, Hh, Hr. simpl. eauto. }
    destruct E as (s' & E).
    assert (Em : mouse_move s m = Some s') by (unfold mouse_move; by rewrite Hs).
    rewrite Em. cbn [mbind option_bind].
    destruct (do_resize_dims s _ s' handle start_rect Hh Hr E)
      as (_ & _ & Hs' & Hh' & Hr' & Ha').
    apply (IH s' mv handle anchor start_rect); congruence.
Qed.
End ResizeGesture.

(** C6 (amended). At angle 0 (cosine 1, sine 0), a press on the east handle
    of a selection whose rectangle is 40 x 40 fixes the midpoint of the west
    edge as anchor, and a move of the pointer to 80 pixels east of that
    anchor yields the rectangle with the same west edge and the same top,
    width 80 (east edge at west + 80) and height 40.  In every resize
    gesture (a press that enters [resizing], then one or more moves) each
    move succeeds, a dimension that the active handle changes is at least 4
    afterwards, and a dimension that it does not change is the one the
    rectangle had at the press, which is at least 2; so width and height are
    never zero or negative. *)
Theorem resize_east_handle_and_floor `{QtRaster} :
  (forall (s : SelectionTool.t) (c : Canvas.t) (press mv : MouseEvent) (x y : Z),
     (cos_deg 0 == 1)%Q -> (sin_deg 0 == 0)%Q ->
     SelectionTool._state s = SelectionTool.selected ->
     SelectionTool._rect s = QRect_xywh x y 40 40 ->
     SelectionTool._angle s = 0%Q ->
     ev_button press = LeftButton ->
     SelectionTool._hit_handle s c (ev_pos press) = Some (Some SelectionTool.H_e) ->
     pt_x (ev_pos mv) = x + 80 ->
     exists s1 anchor s2,
       SelectionTool.mouse_press s c press = Some (s1, c) /\
       SelectionTool._state s1 = SelectionTool.resizing /\
       SelectionTool._resize_anchor s1 = Some anchor /\
       (ptf_x anchor == inject_Z x)%Q /\ (ptf_y anchor == inject_Z y + 20)%Q /\
       SelectionTool.mouse_move s1 mv = Some s2 /\
       SelectionTool._rect s2 = QRect_xywh x y 80 40 /\
       x1 (SelectionTool._rect s2) = x1 (SelectionTool._rect s) /\
       x2 (SelectionTool._rect s2) + 1 = x1 (SelectionTool._rect s) + 80 /\
       rect_height (SelectionTool._rect s2) = rect_height (SelectionTool._rect s)) /\
  (forall (s : SelectionTool.t) (c : Canvas.t) (press : MouseEvent)
          (s1 : SelectionTool.t) (c1 : Canvas.t)
          (moves : list MouseEvent) (mv : MouseEvent),
     SelectionTool.mouse_press s c press = Some (s1, c1) ->
     SelectionTool._state s <> SelectionTool.resizing ->
     SelectionTool._state s1 = SelectionTool.resizing ->
     exists handle s2,
       SelectionTool._active_handle s1 = Some handle /\
       for_each (moves ++ [mv]) SelectionTool.mouse_move s1 = Some s2 /\
       (if SelectionTool._CHANGES_X handle
        then 4 <= rect_width (SelectionTool._rect s2)
        else rect_width (SelectionTool._rect s2) = rect_width (SelectionTool._rect s)) /\
       (if SelectionTool._CHANGES_Y handle
        then 4 <= rect_height (SelectionTool._rect s2)
        else rect_height (SelectionTool._rect s2) = rect_height (SelectionTool._rect s)) /\
       2 <= rect_width (SelectionTool._rect s2) /\
       2 <= rect_height (SelectionTool._rect s2)).
Proof.
  split.
  - intros s c press mv x y Hcos Hsin Hs Hr Ha Hb Hhit Hpx.
    destruct (west_handle_at_angle_zero s c x y 40 40 Hcos Hsin Hr Ha)
      as (anchor & Hl & Hax & Hay); [lia|lia|].
    set (s1 := SelectionTool.mk SelectionTool.resizing (SelectionTool._start s)
                 (SelectionTool._rect s) (SelectionTool._snippet s)
                 (SelectionTool._angle s) (SelectionTool._move_offset s)
                 (Some SelectionTool.H_e) (Some anchor)
                 (Some (QRectF_of (SelectionTool._rect s)))
                 (SelectionTool._drag_start_angle s)
                 (SelectionTool._drag_start_sel_angle s)).
    assert (Ep : SelectionTool.mouse_press s c press = Some (s1, c)).
    { unfold SelectionTool.mouse_press.
      rewrite decide_False by (intros Hn; by apply Hn).
      rewrite Hs, Hhit. cbn [mbind option_bind SelectionTool._OPPOSITE].
      by rewrite Hl. }
    assert (Ed : SelectionTool._do_resize s1 (ev_pos mv)
                 = Some (SelectionTool.with_rect s1 (QRect_xywh x y 80 40))).
    { apply (do_resize_east_at_angle_zero s1 (ev_pos mv) anchor x y 80 40);
        try done; try lia.
      all: first [ by (eexists; split; [reflexivity|]; simpl;
                       rewrite Hr, rect_xywh_height)
                 | (rewrite Hay; field) ]. }
    exists s1, anchor, (SelectionTool.with_rect s1 (QRect_xywh x y 80 40)).
    repeat split; try done.
    + rewrite Hay. apply Qplus_comp; [reflexivity|]. vm_compute. reflexivity.
    + by rewrite Hr.
    + rewrite Hr. simpl. lia.
    + change (rect_height (QRect_xywh x y 80 40)
              = rect_height (SelectionTool._rect s)).
      by rewrite Hr, !rect_xywh_height.
  - intros s c press s1 c1 moves mv Ep Hn Hs1.
    destruct (press_enters_resizing s c press s1 c1 Ep Hn Hs1)
      as (handle & anchor & _ & Hh & Ha & Hr & _ & _ & Hw2 & Hh2).
    destruct (resize_moves_dims moves s1 mv handle anchor _ Hs1 Hh Ha Hr)
      as (s2 & E & Hx & Hy).
    exists handle, s2. simpl in Hx, Hy. rewrite !py_int_inject_Z in *.
    repeat split; try done.
    + destruct (SelectionTool._CHANGES_X handle); lia.
    + destruct (SelectionTool._CHANGES_Y handle); lia.
Qed.

(** ** Alpha snapping *)

Lemma getitem_in_range (data : list Z) (i : Z) :
  0 <= i < Z.of_nat (length data) -> getitem data i = Some (byte_of data i).
Proof.
  intros Hi. unfold getitem, byte_of.
  destruct (Z.leb_spec 0 i); [|lia].
  destruct (Z.ltb_spec i (Z.of_nat (length data))); [|lia]. simpl.
  destruct (data !! Z.to_nat i) eqn:E; [done|].
  apply lookup_ge_None in E. lia.
Qed.

Lemma setitem_in_range (data : list Z) (i v : Z) :
  0 <= i < Z.of_nat (length data) ->
  setitem data i v = Some (<[Z.to_nat i := v]> data).
Proof.
  intros Hi. unfold setitem.
  destruct (Z.leb_spec 0 i); [|lia].
  destruct (Z.ltb_spec i (Z.of_nat (length data))); [|lia]. done.
Qed.

Lemma byte_of_insert (data : list Z) (i j v : Z) :
  0 <= i < Z.of_nat (length data) -> 0 <= j ->
  byte_of (<[Z.to_nat i := v]> data) j = if j =? i then v else byte_of data j.
Proof.
  intros Hi Hj. unfold byte_of.
  destruct (Z.eqb_spec j i) as [->|Hne].
  - rewrite list_lookup_insert_eq by lia. done.
  - rewrite list_lookup_insert_ne by lia. done.
Qed.

(** One step of the inner loop: it succeeds, keeps the length, and snaps
    exactly the pixel whose alpha is at [i]. *)
Lemma snap_byte_spec `{QtRaster} (data : list Z) (i : Z) :
  3 <= i < Z.of_nat (length data) -> i mod 4 = 3 ->
  exists data',
    SelectionTool.snap_byte data i = Some data' /\
    length data' = length data /\
    forall j, 0 <= j ->
      byte_of data' j = if 4 * (j / 4) + 3 =? i then snap_at data j else byte_of data j.
Proof.
  intros Hi Hm. unfold SelectionTool.snap_byte.
  rewrite getitem_in_range by lia. cbn [mbind option_bind].
  destruct (Z.eqb_spec (byte_of data i) 0) as [Ez|Enz].
  - rewrite (setitem_in_range data) by lia. cbn [mbind option_bind].
    rewrite setitem_in_range by (rewrite length_insert; lia). cbn [mbind option_bind].
    rewrite setitem_in_range by (rewrite !length_insert; lia).
    eexists. split; [reflexivity|]. split; [by rewrite !length_insert|].
    intros j Hj.
    rewrite !byte_of_insert by (rewrite ?length_insert; lia).
    unfold snap_at.
    destruct (Z.eqb_spec (4 * (j / 4) + 3) i) as [Ea|Ea].
    + rewrite Ea, Ez. simpl.
      destruct (Z.eqb_spec j (i - 1)); [done|].
      destruct (Z.eqb_spec j (i - 2)); [done|].
      destruct (Z.eqb_spec j (i - 3)); [done|].
      assert (j = i) as -> by (Z.div_mod_to_equations; lia). done.
    + destruct (Z.eqb_spec j (i - 1)); [exfalso; Z.div_mod_to_equations; lia|].
      destruct (Z.eqb_spec j (i - 2)); [exfalso; Z.div_mod_to_equations; lia|].
      destruct (Z.eqb_spec j (i - 3)); [exfalso; Z.div_mod_to_equations; lia|].
      done.
  - rewrite setitem_in_range by lia.
    eexists. split; [reflexivity|]. split; [by rewrite length_insert|].
    intros j Hj. rewrite byte_of_insert by lia. unfold snap_at.
    destruct (Z.eqb_spec (4 * (j / 4) + 3) i) as [Ea|Ea].
    + rewrite Ea. destruct (Z.eqb_spec (byte_of data i) 0); [done|].
      destruct (Z.eqb_spec j i) as [->|Hne].
      * rewrite Hm. done.
      * destruct (Z.eqb_spec (j mod 4) 3); [exfalso; Z.div_mod_to_equations; lia|done].
    + destruct (Z.eqb_spec j i) as [->|Hne]; [|done].
      exfalso. Z.div_mod_to_equations. lia.
Qed.

Lemma snap_at_idempotent (data d1 : list Z) (i j : Z) :
  0 <= j ->
  (forall k, 0 <= k ->
     byte_of d1 k = if 4 * (k / 4) + 3 =? i then snap_at data k else byte_of data k) ->
  snap_at d1 j = snap_at data j.
Proof.
  intros Hj Hd. unfold snap_at at 1.
  assert (Ha : 0 <= 4 * (j / 4) + 3) by (Z.div_mod_to_equations; lia).
  assert (Hg : 4 * ((4 * (j / 4) + 3) / 4) + 3 = 4 * (j / 4) + 3)
    by (Z.div_mod_to_equations; lia).
  assert (Hm : (4 * (j / 4) + 3) mod 4 = 3) by (Z.div_mod_to_equations; lia).
  rewrite (Hd (4 * (j / 4) + 3) Ha), (Hd j Hj), Hg.
  destruct (Z.eqb_spec (4 * (j / 4) + 3) i) as [Ea|Ea]; [|done].
  unfold snap_at. rewrite Hg, Hm.
  destruct (Z.eqb_spec (byte_of data (4 * (j / 4) + 3)) 0); [done|].
  simpl. by destruct (Z.eqb_spec (j mod 4) 3).
Qed.

(** The inner loop body run over any list of alpha offsets. *)
Lemma for_each_snap_spec `{QtRaster} (L : list Z) : forall data : list Z,
  Forall (fun i => 3 <= i < Z.of_nat (length data) /\ i mod 4 = 3) L ->
  exists data',
    for_each L SelectionTool.snap_byte data = Some data' /\
    length data' = length data /\
    forall j, 0 <= j ->
      byte_of data' j = if bool_decide (4 * (j / 4) + 3 ∈ L) then snap_at data j
                        else byte_of data j.
Proof.
  induction L as [|i L IH]; intros data HL.
  - exists data. by repeat split.
  - apply Forall_cons in HL as [[Hi Hm] HL].
    destruct (snap_byte_spec data i Hi Hm) as (d1 & E1 & Hl1 & Hd1).
    destruct (IH d1) as (data' & E2 & Hl2 & Hd2).
    { rewrite Hl1. exact HL. }
    exists data'. cbn [for_each]. rewrite E1. cbn [mbind option_bind].
    split; [done|]. split; [congruence|].
    intros j Hj. rewrite (Hd2 j Hj).
    destruct (bool_decide (4 * (j / 4) + 3 ∈ L)) eqn:EL.
    + apply bool_decide_eq_true in EL.
      rewrite bool_decide_eq_true_2 by (apply elem_of_cons; by right).
      by apply (snap_at_idempotent data d1 i).
    + apply bool_decide_eq_false in EL. rewrite (Hd1 j Hj).
      destruct (Z.eqb_spec (4 * (j / 4) + 3) i) as [Ea|Ea].
      * rewrite bool_decide_eq_true_2; [done|]. apply elem_of_cons. by left.
      * rewrite bool_decide_eq_false_2; [done|].
        intros [?|?]%elem_of_cons; done.
Qed.

(** The two nested loops visit one flat list of offsets. *)
Lemma for_each_nested {A B S} (ys : list A) (xs : list B)
      (g : A -> B -> Z) (f : S -> Z -> option S) : forall s : S,
  for_each ys (fun s y => for_each xs (fun s x => f s (g y x)) s) s
  = for_each (y ← ys; (g y <$> xs)) f s.
Proof.
  assert (Happ : forall (l1 l2 : list Z) (s : S),
             for_each (l1 ++ l2) f s = s' ← for_each l1 f s; for_each l2 f s').
  { induction l1 as [|a l1 IH1]; intros l2 s; cbn [app for_each]; [done|].
    destruct (f s a); cbn [mbind option_bind]; [apply IH1|done]. }
  assert (Hmap : forall (y : A) (l : list B) (s : S),
             for_each l (fun s x => f s (g y x)) s = for_each (g y <$> l) f s).
  { intros y. induction l as [|b l IHl]; intros s; cbn [fmap list_fmap for_each]; [done|].
    destruct (f s (g y b)); cbn [mbind option_bind]; [apply IHl|done]. }
  induction ys as [|y ys IH]; intros s.
  - done.
  - cbn [for_each]. change (y :: ys) with ([y] ++ ys).
    rewrite bind_app, Happ. cbn [mbind list_bind]. rewrite app_nil_r, Hmap.
    destruct (for_each (g y <$> xs) f s); cbn [mbind option_bind]; [apply IH|done].
Qed.

Lemma elem_of_py_range (start stop step i : Z) :
  0 < step ->
  i ∈ py_range start stop step <->
  exists k, 0 <= k /\ i = start + step * k /\ i < stop.
Proof.
  intros Hs. unfold py_range. rewrite list_elem_of_fmap. split.
  - intros (k & -> & Hk). apply elem_of_seqZ in Hk. exists k.
    split; [lia|]. split; [done|].
    pose proof (Z.mul_div_le (stop - start + step - 1) step Hs).
    assert (step * (k + 1) <= step * ((stop - start + step - 1) / step)) by nia.
    lia.
  - intros (k & Hk & -> & Hlt). exists k. split; [done|].
    apply elem_of_seqZ. split; [lia|].
    assert (k + 1 <= (stop - start + step - 1) / step); [|lia].
    apply Z.div_le_lower_bound; [lia|]. lia.
Qed.

(** Offsets of the four bytes of pixel (x, y) in a buffer of [4 * w] bytes
    per line. *)
Lemma pixel_offset (w x y k : Z) :
  0 <= x < w -> 0 <= y -> 0 <= k < 4 ->
  let j := y * (4 * w) + 4 * x + k in
  0 <= j /\ j / 4 = y * w + x /\ j mod 4 = k /\
  j / (4 * w) = y /\ (j mod (4 * w)) / 4 = x.
Proof.
  intros Hx Hy Hk j.
  assert (H0 : 0 <= j) by (unfold j; nia).
  assert (H1 : j / 4 = y * w + x).
  { symmetry. apply (Z.div_unique j 4 (y * w + x) k); [lia|unfold j; lia]. }
  assert (H2 : j mod 4 = k).
  { symmetry. apply (Z.mod_unique j 4 (y * w + x) k); [lia|unfold j; lia]. }
  assert (H3 : j / (4 * w) = y).
  { symmetry. apply (Z.div_unique j (4 * w) y (4 * x + k)); [lia|unfold j; lia]. }
  assert (H4 : j mod (4 * w) = 4 * x + k).
  { symmetry. apply (Z.mod_unique j (4 * w) y (4 * x + k)); [lia|unfold j; lia]. }
  repeat split; try done.
  rewrite H4. symmetry. apply (Z.div_unique (4 * x + k) 4 x k); lia.
Qed.

(** The byte buffer of the converted image holds the channels B, G, R, A of
    every pixel. *)
Lemma byte_of_convert (pm : QPixmap) (x y k : Z) :
  0 <= x < pm_width pm -> 0 <= y < pm_height pm -> 0 <= k < 4 ->
  byte_of (im_bits (convertToFormat_ARGB32 pm)) (y * (4 * pm_width pm) + 4 * x + k)
  = match k with
    | 0 => blue (pm_pixel pm x y)
    | 1 => green (pm_pixel pm x y)
    | 2 => red (pm_pixel pm x y)
    | _ => alpha (pm_pixel pm x y)
    end.
Proof.
  intros Hx Hy Hk.
  destruct (pixel_offset (pm_width pm) x y k) as (H0 & _ & H2 & H3 & H4); try lia.
  set (j := y * (4 * pm_width pm) + 4 * x + k) in *.
  unfold byte_of, convertToFormat_ARGB32. cbn [im_bits].
  rewrite list_lookup_fmap.
  assert (Hl : seqZ 0 (pm_height pm * (4 * pm_width pm)) !! Z.to_nat j = Some j).
  { apply lookup_seqZ. split; [lia|]. unfold j. nia. }
  rewrite Hl. cbn [fmap option_fmap option_map default].
  by rewrite H2, H3, H4.
Qed.

Section SnapFacts.
Context `{QtRaster}.
Import SelectionTool.

(** The loops of [_snap_alpha] on the converted image: they finish without
    exception and snap the four bytes of every pixel. *)
Lemma snap_bits_spec (pm : QPixmap) :
  exists data',
    snap_bits (convertToFormat_ARGB32 pm) = Some data' /\
    forall x y k, 0 <= x < pm_width pm -> 0 <= y < pm_height pm -> 0 <= k < 4 ->
      byte_of data' (y * (4 * pm_width pm) + 4 * x + k)
      = snap_at (im_bits (convertToFormat_ARGB32 pm)) (y * (4 * pm_width pm) + 4 * x + k).
Proof.
  set (w := pm_width pm). set (h := pm_height pm).
  set (bits := im_bits (convertToFormat_ARGB32 pm)).
  set (L := y ← py_range 0 h 1; ((fun x => y * (4 * w) + x) <$> py_range 3 (w * 4) 4)).
  assert (Hrun : snap_bits (convertToFormat_ARGB32 pm) = for_each L snap_byte bits).
  { unfold snap_bits. cbn [im_bytesPerLine im_width im_height convertToFormat_ARGB32].
    apply (for_each_nested (py_range 0 h 1) (py_range 3 (w * 4) 4)
             (fun y x => y * (4 * w) + x) snap_byte). }
  assert (Hin : forall i, i ∈ L <->
                  exists y k, 0 <= y < h /\ 0 <= k < w /\ i = y * (4 * w) + 4 * k + 3).
  { intros i. unfold L. rewrite list_elem_of_bind. split.
    - intros (y & Hi & Hy). apply list_elem_of_fmap in Hi as (x & -> & Hx).
      apply elem_of_py_range in Hy as (ky & ? & -> & ?); [|lia].
      apply elem_of_py_range in Hx as (kx & ? & -> & ?); [|lia].
      exists (0 + 1 * ky), kx. lia.
    - intros (y & k & Hy & Hk & ->). exists y. split.
      + apply list_elem_of_fmap. exists (3 + 4 * k). split; [lia|].
        apply elem_of_py_range; [lia|]. exists k. lia.
      + apply elem_of_py_range; [lia|]. exists y. lia. }
  assert (Hlen : Z.of_nat (length bits) = Z.max 0 (h * (4 * w))).
  { unfold bits, convertToFormat_ARGB32. cbn [im_bits].
    rewrite length_fmap, length_seqZ. fold w h. lia. }
  destruct (for_each_snap_spec L bits) as (data' & E & _ & Hd).
  { apply Forall_forall. intros i Hi. apply Hin in Hi as (y & k & Hy & Hk & ->).
    destruct (pixel_offset w k y 3) as (? & ? & ? & _); try lia.
    split; [|done]. split; [nia|]. rewrite Hlen. nia. }
  exists data'. split; [congruence|].
  intros x y k Hx Hy Hk.
  destruct (pixel_offset w x y k) as (H0 & H1 & _); try lia.
  rewrite (Hd _ H0), H1.
  rewrite bool_decide_eq_true_2; [done|].
  apply Hin. exists y, x. lia.
Qed.
End SnapFacts.

Section SnapPixmap.
Context `{QtRaster}.
Import SelectionTool.

(** [_snap_alpha] on pixels. *)
Lemma snap_alpha_spec (pm : QPixmap) :
  exists out,
    _snap_alpha pm = Some out /\
    pm_width out = pm_width pm /\ pm_height out = pm_height pm /\
    forall x y, 0 <= x < pm_width pm -> 0 <= y < pm_height pm ->
      pm_pixel out x y =
        (let c := pm_pixel pm x y in
         if alpha c =? 0 then mkQColor 0 0 0 0
         else mkQColor (red c) (green c) (blue c) 255).
Proof.
  destruct (snap_bits_spec pm) as (data' & E & Hd).
  unfold _snap_alpha, toImage. rewrite E. cbn [mbind option_bind].
  eexists. split; [reflexivity|]. split; [done|]. split; [done|].
  intros x y Hx Hy.
  cbn [fromImage_ARGB32 fromImage pm_pixel pm_width pm_height
       convertToFormat_ARGB32 im_width im_height im_bytesPerLine].
  assert (Hs : forall k, 0 <= k < 4 ->
            byte_of data' (y * (4 * pm_width pm) + 4 * x + k)
            = if alpha (pm_pixel pm x y) =? 0 then 0
              else if k =? 3 then 255
              else byte_of (im_bits (convertToFormat_ARGB32 pm))
                           (y * (4 * pm_width pm) + 4 * x + k)).
  { intros k Hk. rewrite (Hd x y k Hx Hy Hk). unfold snap_at.
    destruct (pixel_offset (pm_width pm) x y k) as (_ & H1 & H2 & _); try lia.
    rewrite H1, H2.
    replace (4 * (y * pm_width pm + x) + 3)
      with (y * (4 * pm_width pm) + 4 * x + 3) by lia.
    rewrite (byte_of_convert pm x y 3) by lia. done. }
  replace (byte_of data' (y * (4 * pm_width pm) + 4 * x))
    with (byte_of data' (y * (4 * pm_width pm) + 4 * x + 0))
    by (f_equal; lia).
  rewrite !Hs by lia.
  rewrite (byte_of_convert pm x y 0), (byte_of_convert pm x y 1),
    (byte_of_convert pm x y 2) by lia.
  cbn zeta. by destruct (alpha (pm_pixel pm x y) =? 0).
Qed.


(** A rotated commit has something to composite whenever the snippet is
    not empty. *)
Lemma rotated_result_exists (s : t) (snippet : QPixmap) :
  _snippet s = Some snippet -> isNull snippet = false ->
  exists rendered result,
    _render_rotated s (commit_size s).1 (commit_size s).2 None = Some rendered /\
    _snap_alpha rendered = Some result /\
    rotated_result s = Some result.
Proof.
  intros Hs Hn. unfold rotated_result.
  destruct (commit_size s) as [w h]. cbn [fst snd].
  unfold _render_rotated. rewrite Hs. cbn [mbind option_bind].
  assert (Hz : (pm_width snippet =? 0) || (pm_height snippet =? 0) = false).
  { unfold isNull in Hn. apply orb_false_iff in Hn as [Hw Hh].
    apply Z.leb_gt in Hw, Hh.
    destruct (Z.eqb_spec (pm_width snippet) 0); [lia|].
    destruct (Z.eqb_spec (pm_height snippet) 0); [lia|done]. }
  rewrite Hz.
  match goal with |- context [Some ?r] => destruct (snap_alpha_spec r) as (res & E & _) end.
  eexists _, res. split; [reflexivity|]. split; [exact E|exact E].
Qed.
End SnapPixmap.


(** ** Rotated commit *)

Section RotatedCommit.
Context `{QtRaster}.
Import SelectionTool.




End RotatedCommit.


(** ** Flood fill *)

Lemma elem_of_coords (w h : Z) (p : Z * Z) : p ∈ coords w h <-> inside w h p.
Proof.
  destruct p as [px py]. unfold coords, inside. cbn [fst snd].
  rewrite list_elem_of_bind. split.
  - intros (y & Hp & Hy). apply list_elem_of_bind in Hp as (x & Hp & Hx).
    apply list_elem_of_singleton in Hp. injection Hp as -> ->.
    apply elem_of_seqZ in Hx, Hy. lia.
  - intros [Hx Hy]. exists py. split; [|apply elem_of_seqZ; lia].
    apply list_elem_of_bind. exists px. split; [|apply elem_of_seqZ; lia].
    by apply list_elem_of_singleton.
Qed.

Lemma length_bind_const {A B} (f : A -> list B) (n : nat) (l : list A) :
  (forall a, length (f a) = n) -> length (l ≫= f) = (length l * n)%nat.
Proof.
  intros Hf. induction l as [|a l IH]; [done|].
  cbn [mbind list_bind]. change (length (f a ++ (l ≫= f)) = (S (length l) * n)%nat).
  rewrite length_app, Hf, IH. lia.
Qed.

Lemma length_coords (w h : Z) : 0 <= w -> 0 <= h -> length (coords w h) = Z.to_nat (w * h).
Proof.
  intros Hw Hh. unfold coords.
  rewrite (length_bind_const _ (Z.to_nat w)).
  - rewrite length_seqZ. rewrite <- Z2Nat.inj_mul by lia. f_equal. lia.
  - intros y. rewrite (length_bind_const _ 1%nat); [|done].
    rewrite length_seqZ. lia.
Qed.

(** Marking one more coordinate of the list as visited shortens the list of
    unvisited coordinates. *)
Lemma unvisited_shrinks (l : list (Z * Z)) (V : gset (Z * Z)) (q : Z * Z) :
  q ∈ l -> q ∉ V ->
  (length (filter (fun p => p ∉ {[q]} ∪ V) l) < length (filter (fun p => p ∉ V) l))%nat.
Proof.
  intros Hq Hv.
  assert (Hle : forall l' : list (Z * Z),
            (length (filter (fun p => p ∉ {[q]} ∪ V) l')
             <= length (filter (fun p => p ∉ V) l'))%nat).
  { induction l' as [|a l' IH]; [done|].
    rewrite !filter_cons.
    destruct (decide (a ∉ {[q]} ∪ V)) as [Ha|Ha].
    - rewrite decide_True by set_solver. simpl. lia.
    - destruct (decide (a ∉ V)); simpl; lia. }
  induction l as [|a l IH]; [by apply elem_of_nil in Hq|].
  rewrite !filter_cons. apply elem_of_cons in Hq as [<-|Hq].
  - rewrite decide_False by set_solver. rewrite decide_True by done.
    simpl. specialize (Hle l). lia.
  - specialize (IH Hq).
    destruct (decide (a ∉ {[q]} ∪ V)) as [Ha|Ha].
    + rewrite decide_True by set_solver. simpl. lia.
    + destruct (decide (a ∉ V)); simpl; lia.
Qed.

(** The [for] loop over the neighbours: what it appends to the queue and
    adds to the visited set. *)
Lemma enqueue_all_spec (w h : Z) (ns : list (Z * Z)) :
  forall (q : list (Z * Z)) (v : gset (Z * Z)),
  exists new,
    foldl (FloodFill.enqueue w h) (q, v) ns = (q ++ new, list_to_set new ∪ v) /\
    NoDup new /\
    (forall p, p ∈ new -> p ∈ ns /\ inside w h p /\ p ∉ v) /\
    (forall p, p ∈ ns -> inside w h p -> p ∈ list_to_set new ∪ v) /\
    (length (unvisited w h (list_to_set new ∪ v)) + length new
     <= length (unvisited w h v))%nat.
Proof.
  induction ns as [|[nx ny] ns IH]; intros q v.
  - exists []. cbn [foldl]. rewrite app_nil_r.
    replace (list_to_set [] ∪ v) with v by set_solver.
    split; [done|]. split; [by apply NoDup_nil|].
    split; [intros p Hp; by apply elem_of_nil in Hp|].
    split; [intros p Hp; by apply elem_of_nil in Hp|].
    simpl. lia.
  - cbn [foldl]. unfold FloodFill.enqueue at 2. cbn [fst snd].
    destruct (bool_decide (0 <= nx < w /\ 0 <= ny < h /\ (nx, ny) ∉ v)) eqn:Eb.
    + apply bool_decide_eq_true in Eb as (Hx & Hy & Hv).
      destruct (IH (q ++ [(nx, ny)]) ({[(nx, ny)]} ∪ v))
        as (new & E & Hnd & Hnew & Hall & Hm).
      exists ((nx, ny) :: new). rewrite E.
      split.
      { f_equal; [by rewrite <- app_assoc|]. set_solver. }
      split.
      { apply NoDup_cons. split; [|done]. intros Hin.
        apply Hnew in Hin as (_ & _ & Hin). set_solver. }
      split.
      { intros p [->|Hp]%elem_of_cons.
        - split; [apply elem_of_cons; by left|]. split; [done|done].
        - apply Hnew in Hp as (? & ? & ?).
          split; [apply elem_of_cons; by right|]. split; [done|set_solver]. }
      split.
      { intros p [->|Hp]%elem_of_cons Hi; [set_solver|].
        specialize (Hall p Hp Hi). set_solver. }
      replace (list_to_set ((nx, ny) :: new) ∪ v)
        with (list_to_set new ∪ ({[(nx, ny)]} ∪ v)) by set_solver.
      assert (Hs : (length (unvisited w h ({[(nx, ny)]} ∪ v))
                    < length (unvisited w h v))%nat).
      { apply unvisited_shrinks; [|done]. by apply elem_of_coords. }
      simpl. lia.
    + apply bool_decide_eq_false in Eb.
      destruct (IH q v) as (new & E & Hnd & Hnew & Hall & Hm).
      exists new. rewrite E.
      split; [done|]. split; [done|].
      split.
      { intros p Hp. apply Hnew in Hp as (? & ? & ?).
        split; [apply elem_of_cons; by right|done]. }
      split; [|done].
      intros p [->|Hp]%elem_of_cons Hi; [|by apply Hall].
      destruct (decide ((nx, ny) ∈ v)); [set_solver|].
      exfalso. apply Eb. destruct Hi as [Hx Hy].
      split; [exact Hx|]. split; [exact Hy|done].
Qed.

Lemma inside_in_bounds (w h x y : Z) : inside w h (x, y) -> in_bounds w h x y = true.
Proof.
  intros [Hx Hy]. simpl in Hx, Hy. unfold in_bounds.
  rewrite !andb_true_iff, !Z.leb_le, !Z.ltb_lt. lia.
Qed.

Lemma in_bounds_inside (w h x y : Z) : in_bounds w h x y = true -> inside w h (x, y).
Proof.
  unfold in_bounds, inside. rewrite !andb_true_iff, !Z.leb_le, !Z.ltb_lt. simpl. lia.
Qed.

Section FloodFacts.
Variables (img0 : QPixmap) (target_rgb : Z) (fill : QColor) (seed : Z * Z).

(** While a coordinate waits in the queue, its pixel is still the original
    one. *)
Lemma queued_pixel_is_original (s : FloodFill.state) (cx cy : Z) :
  flood_inv img0 target_rgb fill seed s ->
  (cx, cy) ∈ FloodFill.queue s ->
  pixelColor (FloodFill.img s) cx cy = pixelColor img0 cx cy /\
  ((cx, cy) ∉ FloodFill.writes s) /\ inside (pm_width img0) (pm_height img0) (cx, cy).
Proof.
  intros I Hq.
  assert (Hin : inside (pm_width img0) (pm_height img0) (cx, cy)).
  { apply (inv_visited_inside _ _ _ _ _ I). by apply (inv_queue_visited _ _ _ _ _ I). }
  assert (Hnw : (cx, cy) ∉ FloodFill.writes s).
  { intros Hw. by apply (inv_writes _ _ _ _ _ I) in Hw as (_ & Hn & _). }
  split; [|done].
  unfold pixelColor.
  rewrite (inv_width _ _ _ _ _ I), (inv_height _ _ _ _ _ I).
  rewrite (inside_in_bounds _ _ _ _ Hin).
  rewrite (inv_pixel _ _ _ _ _ I). by rewrite bool_decide_eq_false_2.
Qed.

(** One iteration keeps the invariant and uses up one unit of the
    measure. *)
Lemma iteration_preserves (s : FloodFill.state) (cx cy : Z) (rest : list (Z * Z)) :
  flood_inv img0 target_rgb fill seed s ->
  FloodFill.queue s = (cx, cy) :: rest ->
  flood_inv img0 target_rgb fill seed
            (FloodFill.iteration target_rgb fill (pm_width img0) (pm_height img0) cx cy rest s) /\
  (flood_measure (pm_width img0) (pm_height img0) (FloodFill.iteration target_rgb fill (pm_width img0) (pm_height img0) cx cy rest s)
   < flood_measure (pm_width img0) (pm_height img0) s)%nat.
Proof.
  intros I Hq.
  assert (Hcq : (cx, cy) ∈ FloodFill.queue s) by (rewrite Hq; apply elem_of_cons; by left).
  destruct (queued_pixel_is_original s cx cy I Hcq) as (Hpix & Hnw & Hin).
  assert (Hnd : ((cx, cy) ∉ rest) /\ NoDup rest).
  { pose proof (inv_queue_nodup _ _ _ _ _ I) as Hn. rewrite Hq in Hn.
    by apply NoDup_cons in Hn. }
  destruct Hnd as [Hcr Hndr].
  assert (Hrest : forall p, p ∈ rest -> p ∈ FloodFill.queue s).
  { intros p Hp. rewrite Hq. apply elem_of_cons. by right. }
  unfold FloodFill.iteration. rewrite Hpix.
  destruct (bool_decide (rgba (pixelColor img0 cx cy) ≠ target_rgb)) eqn:Eb.
  - (* the pixel does not match: it is dropped *)
    apply bool_decide_eq_true in Eb.
    split.
    + constructor; cbn [FloodFill.img FloodFill.queue FloodFill.visited FloodFill.writes].
      * apply (inv_width _ _ _ _ _ I).
      * apply (inv_height _ _ _ _ _ I).
      * apply (inv_visited_inside _ _ _ _ _ I).
      * intros p Hp. apply (inv_queue_visited _ _ _ _ _ I). by apply Hrest.
      * done.
      * apply (inv_writes_nodup _ _ _ _ _ I).
      * intros p Hp. destruct (inv_writes _ _ _ _ _ I p Hp) as (Hv & Hn & Hc).
        split; [done|]. split; [|done]. intros Hr. apply Hn. by apply Hrest.
      * apply (inv_pixel _ _ _ _ _ I).
      * apply (inv_visited_connected _ _ _ _ _ I).
      * apply (inv_closed _ _ _ _ _ I).
      * intros p Hv Hm. destruct (inv_done _ _ _ _ _ I p Hv Hm) as [Hp|Hp]; [|by right].
        rewrite Hq in Hp. apply elem_of_cons in Hp as [->|Hp]; [|by left].
        by destruct Eb.
      * apply (inv_seed _ _ _ _ _ I).
    + unfold flood_measure.
      cbn [FloodFill.queue FloodFill.visited]. rewrite Hq. simpl. lia.
  - (* the pixel matches: it is written and its neighbours are enqueued *)
    apply bool_decide_eq_false in Eb.
    assert (Hm : matches img0 target_rgb (cx, cy)).
    { unfold matches. simpl. destruct (decide (rgba (pixelColor img0 cx cy) = target_rgb));
        [done|by destruct Eb]. }
    destruct (enqueue_all_spec (pm_width img0) (pm_height img0) (FloodFill.neighbours cx cy) rest (FloodFill.visited s))
      as (new & E & Hndn & Hnew & Hall & Hmeas).
    rewrite E. cbn [fst snd].
    assert (Hconn : connected img0 target_rgb seed (cx, cy)).
    { apply (inv_visited_connected _ _ _ _ _ I); [|done].
      by apply (inv_queue_visited _ _ _ _ _ I). }
    assert (Hib : in_bounds (pm_width (FloodFill.img s)) (pm_height (FloodFill.img s))
                            cx cy = true).
    { rewrite (inv_width _ _ _ _ _ I), (inv_height _ _ _ _ _ I).
      by apply inside_in_bounds. }
    split.
    + constructor; cbn [FloodFill.img FloodFill.queue FloodFill.visited FloodFill.writes].
      * unfold setPixelColor. rewrite Hib. apply (inv_width _ _ _ _ _ I).
      * unfold setPixelColor. rewrite Hib. apply (inv_height _ _ _ _ _ I).
      * intros p [Hp|Hp]%elem_of_union.
        -- apply elem_of_list_to_set in Hp. by apply Hnew in Hp as (_ & ? & _).
        -- by apply (inv_visited_inside _ _ _ _ _ I).
      * intros p [Hp|Hp]%elem_of_app; apply elem_of_union.
        -- right. apply (inv_queue_visited _ _ _ _ _ I). by apply Hrest.
        -- left. by apply elem_of_list_to_set.
      * apply NoDup_app. split; [done|]. split; [|done].
        intros p Hp Hn. apply Hnew in Hn as (_ & _ & Hn). apply Hn.
        apply (inv_queue_visited _ _ _ _ _ I). by apply Hrest.
      * apply NoDup_app. split; [apply (inv_writes_nodup _ _ _ _ _ I)|].
        split; [|apply NoDup_singleton].
        intros p Hp ->%list_elem_of_singleton. done.
      * intros p [Hp|Hp]%elem_of_app.
        -- destruct (inv_writes _ _ _ _ _ I p Hp) as (Hv & Hn & Hc).
           split; [apply elem_of_union; by right|]. split; [|done].
           intros [Hr|Hr]%elem_of_app.
           ++ apply Hn. by apply Hrest.
           ++ by apply Hnew in Hr as (_ & _ & Hr).
        -- apply list_elem_of_singleton in Hp as ->.
           split; [apply elem_of_union; right;
                   by apply (inv_queue_visited _ _ _ _ _ I)|].
           split; [|done].
           intros [Hr|Hr]%elem_of_app; [done|].
           apply Hnew in Hr as (_ & _ & Hr). apply Hr.
           by apply (inv_queue_visited _ _ _ _ _ I).
      * intros x y. unfold setPixelColor. rewrite Hib. cbn [pm_pixel].
        rewrite (inv_pixel _ _ _ _ _ I).
        destruct (Z.eqb_spec x cx) as [->|Hx]; [destruct (Z.eqb_spec y cy) as [->|Hy]|];
          cbn [andb].
        -- rewrite (bool_decide_eq_true_2 ((cx, cy) ∈ FloodFill.writes s ++ [(cx, cy)]));
             [done|]. apply elem_of_app. right. by apply list_elem_of_singleton.
        -- assert (Heq : (cx, y) ∈ FloodFill.writes s
                         <-> (cx, y) ∈ FloodFill.writes s ++ [(cx, cy)]).
           { rewrite elem_of_app, list_elem_of_singleton. split; [by left|].
             intros [?|[= ?]]; [done|congruence]. }
           by rewrite (bool_decide_ext _ _ Heq).
        -- assert (Heq : (x, y) ∈ FloodFill.writes s
                         <-> (x, y) ∈ FloodFill.writes s ++ [(cx, cy)]).
           { rewrite elem_of_app, list_elem_of_singleton. split; [by left|].
             intros [?|[= ? ?]]; [done|congruence]. }
           by rewrite (bool_decide_ext _ _ Heq).
      * intros p [Hp|Hp]%elem_of_union Hmp.
        -- apply elem_of_list_to_set in Hp. apply Hnew in Hp as (Hn & Hi & _).
           by apply (connected_step img0 target_rgb seed (cx, cy) p).
        -- by apply (inv_visited_connected _ _ _ _ _ I).
      * intros p q [Hp|Hp]%elem_of_app Hn Hi; apply elem_of_union.
        -- right. by apply (inv_closed _ _ _ _ _ I p q).
        -- apply list_elem_of_singleton in Hp as ->.
           apply elem_of_union. by apply Hall.
      * intros p [Hp|Hp]%elem_of_union Hmp.
        -- left. apply elem_of_app. right. by apply elem_of_list_to_set in Hp.
        -- destruct (inv_done _ _ _ _ _ I p Hp Hmp) as [Hpq|Hpw].
           ++ rewrite Hq in Hpq. apply elem_of_cons in Hpq as [->|Hpq].
              ** right. apply elem_of_app. right. by apply list_elem_of_singleton.
              ** left. apply elem_of_app. by left.
           ++ right. apply elem_of_app. by left.
      * apply elem_of_union. right. apply (inv_seed _ _ _ _ _ I).
    + unfold flood_measure.
      cbn [FloodFill.queue FloodFill.visited]. rewrite Hq, length_app. simpl. lia.
Qed.
End FloodFacts.

Section FloodLoop.
Variables (img0 : QPixmap) (target_rgb : Z) (fill : QColor) (seed : Z * Z).

(** The loop ends with an empty queue once the fuel covers the measure. *)
Lemma loop_terminates (fuel : nat) : forall s : FloodFill.state,
  flood_inv img0 target_rgb fill seed s ->
  (flood_measure (pm_width img0) (pm_height img0) s <= fuel)%nat ->
  exists s',
    FloodFill.loop fuel target_rgb fill (pm_width img0) (pm_height img0) s = Some s' /\
    flood_inv img0 target_rgb fill seed s' /\
    FloodFill.queue s' = [].
Proof.
  induction fuel as [|fuel IH]; intros s I Hm.
  - destruct (FloodFill.queue s) as [|[cx cy] rest] eqn:Hq.
    + exists s. cbn [FloodFill.loop]. by rewrite Hq.
    + unfold flood_measure in Hm. rewrite Hq in Hm. simpl in Hm. lia.
  - destruct (FloodFill.queue s) as [|[cx cy] rest] eqn:Hq.
    + exists s. cbn [FloodFill.loop]. by rewrite Hq.
    + destruct (iteration_preserves img0 target_rgb fill seed s cx cy rest I Hq)
        as [I' Hlt].
      destruct (IH _ I') as (s' & E & Is' & Hq'); [lia|].
      exists s'. cbn [FloodFill.loop]. rewrite Hq. done.
Qed.

(** At the end the pixels written are exactly the component of the seed. *)
Lemma written_iff_connected (s : FloodFill.state) :
  flood_inv img0 target_rgb fill seed s ->
  FloodFill.queue s = [] ->
  forall p, p ∈ FloodFill.writes s <-> connected img0 target_rgb seed p.
Proof.
  intros I Hq p. split.
  - intros Hp. by apply (inv_writes _ _ _ _ _ I) in Hp as (_ & _ & ?).
  - assert (Hdone : forall q, q ∈ FloodFill.visited s -> matches img0 target_rgb q ->
                              q ∈ FloodFill.writes s).
    { intros q Hv Hmq. destruct (inv_done _ _ _ _ _ I q Hv Hmq) as [Hin|Hin]; [|done].
      rewrite Hq in Hin. by apply elem_of_nil in Hin. }
    induction 1 as [Hms|p q Hc IHc Hn Hi Hmq].
    + apply Hdone; [|done]. apply (inv_seed _ _ _ _ _ I).
    + apply Hdone; [|done]. by apply (inv_closed _ _ _ _ _ I p q).
Qed.
End FloodLoop.


(** The state in which the loop starts satisfies the invariant. *)
Lemma flood_inv_initial (img0 : QPixmap) (fill : QColor) (x y : Z) (target_rgb : Z) :
  in_bounds (pm_width img0) (pm_height img0) x y = true ->
  flood_inv img0 target_rgb fill (x, y) (FloodFill.mk img0 [(x, y)] {[ (x, y) ]} []).
Proof.
  intros Hin. apply in_bounds_inside in Hin.
  constructor; cbn [FloodFill.img FloodFill.queue FloodFill.visited FloodFill.writes].
  - done.
  - done.
  - intros p ->%elem_of_singleton. done.
  - intros p ->%list_elem_of_singleton. by apply elem_of_singleton.
  - apply NoDup_singleton.
  - by apply NoDup_nil.
  - intros p Hp. by apply elem_of_nil in Hp.
  - intros x' y'. by rewrite bool_decide_eq_false_2 by apply not_elem_of_nil.
  - intros p ->%elem_of_singleton Hm. by apply connected_seed.
  - intros p q Hp. by apply elem_of_nil in Hp.
  - intros p ->%elem_of_singleton _. left. by apply list_elem_of_singleton.
  - by apply elem_of_singleton.
Qed.

Lemma flood_measure_initial (img : QPixmap) (w h x y : Z) :
  in_bounds w h x y = true ->
  (flood_measure w h (FloodFill.mk img [(x, y)] {[ (x, y) ]} [])
   <= Z.to_nat (w * h))%nat.
Proof.
  intros Hin. apply in_bounds_inside in Hin.
  unfold flood_measure. cbn [FloodFill.queue FloodFill.visited]. simpl length.
  assert (Hs : (length (unvisited w h ({[(x, y)]} ∪ ∅)) < length (unvisited w h ∅))%nat).
  { apply unvisited_shrinks; [by apply elem_of_coords|set_solver]. }
  replace ({[(x, y)]} ∪ ∅ : gset (Z * Z)) with ({[(x, y)]} : gset (Z * Z)) in Hs
    by set_solver.
  assert (Hl : (length (unvisited w h ∅) <= length (coords w h))%nat).
  { unfold unvisited. apply length_filter. }
  rewrite length_coords in Hl by (destruct Hin; simpl in *; lia).
  lia.
Qed.


(** * Further properties *)

(** ** The log, continued *)

Section LogMore.
Context `{QtRaster}.

(** What the setter keeps of a pixmap that has an alpha channel or is
    opaque wherever it has pixels. *)
Lemma set_pixmap_pixelColor (c : Canvas.t) (pm : QPixmap) :
  hasAlphaChannel pm = true \/
  (forall x y, in_bounds (pm_width pm) (pm_height pm) x y = true ->
               alpha (pm_pixel pm x y) = 255) ->
  pm_width (Canvas.pixmap (Canvas.set_pixmap c pm)) = pm_width pm /\
  pm_height (Canvas.pixmap (Canvas.set_pixmap c pm)) = pm_height pm /\
  forall x y, pixelColor (Canvas.pixmap (Canvas.set_pixmap c pm)) x y = pixelColor pm x y.
Proof.
  intros Hc. unfold Canvas.set_pixmap.
  destruct (hasAlphaChannel pm) eqn:Ea; cbn [negb]; [done|].
  destruct Hc as [?|Hop]; [done|].
  split; [done|]. split; [done|].
  intros x y. unfold pixelColor.
  cbn [Canvas.pixmap Canvas.with_pixmap Canvas._pixmap drawPixmap_over QPixmap_filled
       pm_width pm_height pm_pixel].
  destruct (in_bounds (pm_width pm) (pm_height pm) x y) eqn:Ein; [|done].
  unfold source_over. by rewrite (Hop x y Ein).
Qed.

(** A pixmap built from an image with alpha channel loses the channel only
    when every pixel is opaque. *)
Lemma fromImage_alpha_or_opaque (img : QPixmap) :
  pm_alpha img = true ->
  hasAlphaChannel (fromImage img) = true \/
  (forall x y, in_bounds (pm_width (fromImage img)) (pm_height (fromImage img)) x y = true ->
               alpha (pm_pixel (fromImage img) x y) = 255).
Proof.
  intros Ha. unfold hasAlphaChannel, fromImage. cbn [pm_alpha pm_width pm_height pm_pixel].
  rewrite Ha. cbn [andb].
  destruct (existsb _ _) eqn:Ee; [by left|]. right.
  intros x y Hin.
  assert (Hf : forall p, In p (coords (pm_width img) (pm_height img)) ->
                         negb (alpha (pm_pixel img p.1 p.2) =? 255) = false).
  { intros p Hp. destruct (negb _) eqn:En; [|done].
    assert (Hex : existsb (fun p => negb (alpha (pm_pixel img p.1 p.2) =? 255))
                          (coords (pm_width img) (pm_height img)) = true)
      by (apply existsb_exists; eauto).
    congruence. }
  specialize (Hf (x, y)). cbn [fst snd] in Hf.
  apply negb_false_iff, Z.eqb_eq in Hf; [done|].
  apply list_elem_of_In, elem_of_coords. by apply in_bounds_inside.
Qed.

(** Assigning the pixmap made of an image that has an alpha channel keeps
    the size and every colour that [pixelColor] reads. *)
Lemma set_pixmap_fromImage (c : Canvas.t) (img : QPixmap) :
  pm_alpha img = true ->
  pm_width (Canvas.pixmap (Canvas.set_pixmap c (fromImage img))) = pm_width img /\
  pm_height (Canvas.pixmap (Canvas.set_pixmap c (fromImage img))) = pm_height img /\
  forall x y, pixelColor (Canvas.pixmap (Canvas.set_pixmap c (fromImage img))) x y
              = pixelColor img x y.
Proof.
  intros Ha.
  destruct (set_pixmap_pixelColor c (fromImage img) (fromImage_alpha_or_opaque img Ha))
    as (Hw & Hh & Hp).
  done.
Qed.
End LogMore.

(** X1. Redo followed by undo gives back the buffer, the undo stack and the
    depth of the redo stack that were there before the redo (for a buffer
    with alpha channel and a redo stack that is not empty); redo on an empty
    redo stack changes nothing. *)
Theorem redo_then_undo_restores_buffer `{QtRaster} (c : Canvas.t) :
  (Canvas._redo_stack c <> [] ->
   hasAlphaChannel (Canvas.pixmap c) = true ->
   Canvas.pixmap (Canvas.undo (Canvas.redo c)) = Canvas.pixmap c /\
   Canvas._undo_stack (Canvas.undo (Canvas.redo c)) = Canvas._undo_stack c /\
   length (Canvas._redo_stack (Canvas.undo (Canvas.redo c)))
     = length (Canvas._redo_stack c)) /\
  (Canvas._redo_stack c = [] -> Canvas.redo c = c).
Proof.
  split.
  - intros Hne Ha.
    destruct (list_pop (Canvas._redo_stack c)) as [[rest top]|] eqn:E.
    2: { by apply list_pop_None in E. }
    apply list_pop_Some in E.
    destruct (redo_stacks c rest top E) as [Hu Hr].
    rewrite (undo_snoc (Canvas.redo c) _ _ Hu). cbn [Canvas.set_modified Canvas.pixmap
      Canvas._pixmap Canvas._undo_stack Canvas._redo_stack].
    rewrite set_pixmap_alpha by done.
    cbn [Canvas.with_pixmap Canvas.with_stacks Canvas._pixmap Canvas._undo_stack
         Canvas._redo_stack].
    split; [done|]. split; [done|].
    rewrite Hr, E, !length_app. done.
  - intros E. unfold Canvas.redo. by rewrite E.
Qed.

(** X2. Undo brings back the buffer that the last [save_undo] saw: whatever
    has become of the buffer since (painting in place, assignment), as long
    as the log was not touched, undo restores the saved buffer, removes the
    snapshot and pushes the buffer it replaced on the redo stack. *)
Theorem undo_restores_saved_buffer `{QtRaster} (c c2 : Canvas.t) :
  hasAlphaChannel (Canvas.pixmap c) = true ->
  Canvas._undo_stack c2 = Canvas._undo_stack (Canvas.save_undo c) ->
  Canvas.pixmap (Canvas.undo c2) = Canvas.pixmap c /\
  Canvas._undo_stack (Canvas.undo c2) =
    (if decide (MAX_UNDO <= length (Canvas._undo_stack c))%nat
     then tail (Canvas._undo_stack c) else Canvas._undo_stack c) /\
  Canvas._redo_stack (Canvas.undo c2) = Canvas._redo_stack c2 ++ [Canvas.pixmap c2].
Proof.
  intros Ha Hs. rewrite save_undo_stack in Hs.
  destruct (undo_stacks c2 _ _ Hs) as [Hu Hr].
  split; [|done].
  rewrite (undo_snoc c2 _ _ Hs).
  cbn [Canvas.set_modified Canvas.pixmap Canvas._pixmap].
  by rewrite set_pixmap_alpha.
Qed.

(** ** The fill tools, whole presses *)

Lemma setPixelColor_alpha (img : QPixmap) (x y : Z) (c : QColor) :
  pm_alpha (setPixelColor img x y c) = pm_alpha img.
Proof. unfold setPixelColor. by destruct (in_bounds _ _ _ _). Qed.

Lemma loop_keeps_alpha (fuel : nat) (target_rgb : Z) (fill : QColor) (w h : Z) :
  forall s s', FloodFill.loop fuel target_rgb fill w h s = Some s' ->
               pm_alpha (FloodFill.img s') = pm_alpha (FloodFill.img s).
Proof.
  induction fuel as [|fuel IH]; intros s s'; cbn [FloodFill.loop].
  - destruct (FloodFill.queue s) as [|[cx cy] rest]; [by intros [= <-]|done].
  - destruct (FloodFill.queue s) as [|[cx cy] rest]; [by intros [= <-]|].
    intros E. rewrite (IH _ _ E). unfold FloodFill.iteration.
    destruct (bool_decide _); cbn [FloodFill.img]; [done|].
    apply setPixelColor_alpha.
Qed.

Lemma connected_inside (img : QPixmap) (target_rgb : Z) (seed p : Z * Z) :
  inside (pm_width img) (pm_height img) seed ->
  connected img target_rgb seed p -> inside (pm_width img) (pm_height img) p.
Proof. intros Hs. by destruct 1. Qed.

(** The flood fill from an in-bounds seed, on the colours that [pixelColor]
    reads. *)
Lemma flood_run_spec (img : QPixmap) (x y : Z) (fill : QColor) :
  in_bounds (pm_width img) (pm_height img) x y = true ->
  exists s,
    FloodFill.run img x y (rgba (pixelColor img x y)) fill (pm_width img) (pm_height img)
      = Some s /\
    pm_width (FloodFill.img s) = pm_width img /\
    pm_height (FloodFill.img s) = pm_height img /\
    pm_alpha (FloodFill.img s) = pm_alpha img /\
    (forall px py,
       connected img (rgba (pixelColor img x y)) (x, y) (px, py) ->
       pixelColor (FloodFill.img s) px py = fill) /\
    (forall px py,
       ~ connected img (rgba (pixelColor img x y)) (x, y) (px, py) ->
       pixelColor (FloodFill.img s) px py = pixelColor img px py).
Proof.
  intros Hin.
  destruct (loop_terminates img (rgba (pixelColor img x y)) fill (x, y)
              (Z.to_nat (pm_width img * pm_height img))
              (FloodFill.mk img [(x, y)] {[ (x, y) ]} []))
    as (s & E & I & Hq).
  { by apply flood_inv_initial. }
  { by apply flood_measure_initial. }
  pose proof (written_iff_connected img _ fill (x, y) s I Hq) as Hw.
  exists s. split; [exact E|].
  split; [apply (inv_width _ _ _ _ _ I)|].
  split; [apply (inv_height _ _ _ _ _ I)|].
  split; [apply (loop_keeps_alpha _ _ _ _ _ _ _ E)|].
  split.
  - intros px py Ec. unfold pixelColor.
    rewrite (inv_width _ _ _ _ _ I), (inv_height _ _ _ _ _ I), (inv_pixel _ _ _ _ _ I).
    rewrite (inside_in_bounds _ _ _ _
               (connected_inside _ _ _ _ (in_bounds_inside _ _ _ _ Hin) Ec)).
    rewrite bool_decide_eq_true_2; [done|]. by apply Hw.
  - intros px py Ec. unfold pixelColor.
    rewrite (inv_width _ _ _ _ _ I), (inv_height _ _ _ _ _ I), (inv_pixel _ _ _ _ _ I).
    destruct (in_bounds _ _ px py); [|done].
    rewrite bool_decide_eq_false_2; [done|]. intros Hp. by apply Ec, Hw.
Qed.

Lemma in_bounds_not_out (w h x y : Z) :
  in_bounds w h x y = true ->
  (x <? 0) || (x >=? w) || (y <? 0) || (y >=? h) = false.
Proof.
  intros Hin. apply in_bounds_inside in Hin as [Hx Hy]. simpl in Hx, Hy.
  destruct (Z.ltb_spec x 0); [lia|]. destruct (Z.geb_spec x w); [lia|].
  destruct (Z.ltb_spec y 0); [lia|]. destruct (Z.geb_spec y h); [lia|]. done.
Qed.


Lemma set_modified_set_pixmap `{QtRaster} (c : Canvas.t) (pm : QPixmap) (b : bool) :
  let c' := Canvas.set_modified (Canvas.set_pixmap c pm) b in
  Canvas.pixmap c' = Canvas.pixmap (Canvas.set_pixmap c pm) /\
  Canvas._undo_stack c' = Canvas._undo_stack c /\
  Canvas._redo_stack c' = Canvas._redo_stack c /\
  Canvas.fg_color c' = Canvas.fg_color c /\
  Canvas.bg_color c' = Canvas.bg_color c /\
  Canvas.zoom c' = Canvas.zoom c /\
  Canvas._modified c' = b.
Proof. unfold Canvas.set_pixmap. by destruct (negb _). Qed.



(** X5. A colour picked with the picker and then used by the fill tool with
    the same button on any pixel that reads the picked colour changes
    nothing: buffer and log stay as the picker left them. *)
Theorem pick_then_fill_is_noop `{QtRaster} (c : Canvas.t) (pick press : MouseEvent) :
  let pm := Canvas.pixmap c in
  in_bounds (pm_width pm) (pm_height pm) (pt_x (ev_pos pick)) (pt_y (ev_pos pick)) = true ->
  in_bounds (pm_width pm) (pm_height pm) (pt_x (ev_pos press)) (pt_y (ev_pos press)) = true ->
  (ev_button pick = LeftButton <-> ev_button press = LeftButton) ->
  pixelColor pm (pt_x (ev_pos press)) (pt_y (ev_pos press))
    = pixelColor pm (pt_x (ev_pos pick)) (pt_y (ev_pos pick)) ->
  let c1 := PickerTool.mouse_press c pick in
  fill_color_of c1 press = pixelColor pm (pt_x (ev_pos pick)) (pt_y (ev_pos pick)) /\
  Canvas.pixmap c1 = pm /\
  Canvas._undo_stack c1 = Canvas._undo_stack c /\
  Canvas._redo_stack c1 = Canvas._redo_stack c /\
  FillTool.mouse_press c1 press = Some c1.
Proof.
  intros pm Hin1 Hin2 Hb Hcol c1.
  assert (E1 : c1 = if decide (ev_button pick = LeftButton)
                    then Canvas.with_fg c (pixelColor pm (pt_x (ev_pos pick)) (pt_y (ev_pos pick)))
                    else Canvas.with_bg c (pixelColor pm (pt_x (ev_pos pick)) (pt_y (ev_pos pick)))).
  { unfold c1, PickerTool.mouse_press, toImage. fold pm.
    unfold in_bounds in Hin1. by rewrite Hin1. }
  assert (Hpm : Canvas.pixmap c1 = pm) by (rewrite E1; by destruct (decide _)).
  assert (Hf : fill_color_of c1 press
               = pixelColor pm (pt_x (ev_pos pick)) (pt_y (ev_pos pick))).
  { unfold fill_color_of. rewrite E1.
    destruct (decide (ev_button pick = LeftButton)) as [e|n].
    - rewrite decide_True by (by apply Hb). done.
    - rewrite decide_False by (intros e; by apply n, Hb). done. }
  split; [exact Hf|]. split; [exact Hpm|].
  split; [rewrite E1; by destruct (decide _)|].
  split; [rewrite E1; by destruct (decide _)|].
  unfold FillTool.mouse_press, toImage. rewrite Hpm.
  rewrite (in_bounds_not_out _ _ _ _ Hin2).
  fold (fill_color_of c1 press). rewrite Hf.
  by rewrite decide_True.
Qed.

(** X6. Shift-press of the alpha brush on a pixel that is not fully
    transparent (buffer with alpha channel): the 4-connected component of
    the seed's colour reads the transparent colour (0, 0, 0, 0), every other
    pixel reads what it read before, the buffer before the press is on top
    of the undo stack and the redo stack is empty. *)
Theorem alpha_flood_fill_clears_component `{QtRaster} (c : Canvas.t) (event : MouseEvent) :
  let pm := Canvas.pixmap c in
  let x := pt_x (ev_pos event) in
  let y := pt_y (ev_pos event) in
  in_bounds (pm_width pm) (pm_height pm) x y = true ->
  alpha (pixelColor pm x y) <> 0 ->
  hasAlphaChannel pm = true ->
  exists c',
    AlphaBrushTool.mouse_press_shift c event = Some c' /\
    pm_width (Canvas.pixmap c') = pm_width pm /\
    pm_height (Canvas.pixmap c') = pm_height pm /\
    (forall px py,
       connected pm (rgba (pixelColor pm x y)) (x, y) (px, py) ->
       pixelColor (Canvas.pixmap c') px py = mkQColor 0 0 0 0) /\
    (forall px py,
       ~ connected pm (rgba (pixelColor pm x y)) (x, y) (px, py) ->
       pixelColor (Canvas.pixmap c') px py = pixelColor pm px py) /\
    last (Canvas._undo_stack c') = Some pm /\
    Canvas._redo_stack c' = [] /\
    Canvas._modified c' = true.
Proof.
  intros pm x y Hin Hal0 Ha.
  destruct (flood_run_spec pm x y (mkQColor 0 0 0 0) Hin)
    as (s & E & Hw & Hh & Hal & Hp & Hn).
  unfold AlphaBrushTool.mouse_press_shift, AlphaBrushTool._alpha_flood_fill, toImage.
  change (Canvas.pixmap (Canvas.save_undo c)) with pm. fold x y.
  rewrite (in_bounds_not_out _ _ _ _ Hin).
  destruct (Z.eqb_spec (alpha (pixelColor pm x y)) 0) as [e|_]; [done|].
  rewrite E. cbn [mbind option_bind].
  eexists. split; [reflexivity|].
  assert (Has : pm_alpha (FloodFill.img s) = true) by (rewrite Hal; exact Ha).
  destruct (set_pixmap_fromImage (Canvas.save_undo c) (FloodFill.img s) Has)
    as (Hw' & Hh' & Hp').
  destruct (set_modified_set_pixmap (Canvas.save_undo c) (fromImage (FloodFill.img s)) true)
    as (Epm & Eu & Er & Ef & Eb & _ & Em).
  rewrite Epm, Eu, Er, Em.
  split; [by rewrite Hw'|]. split; [by rewrite Hh'|].
  split. { intros px py Ec. by rewrite Hp', Hp. }
  split. { intros px py Ec. by rewrite Hp', Hn. }
  split; [|done].
  rewrite save_undo_stack. apply last_snoc.
Qed.

(** X7. Shift-press of the alpha brush never fails and always logs: whatever
    the position, the buffer before the press is pushed on the undo stack
    and the redo stack is emptied; when the position is outside the buffer
    or on a fully transparent pixel, buffer and modified flag stay as they
    are (the snapshot is pushed all the same). *)
Theorem alpha_shift_press_always_logs `{QtRaster} (c : Canvas.t) (event : MouseEvent) :
  let pm := Canvas.pixmap c in
  let x := pt_x (ev_pos event) in
  let y := pt_y (ev_pos event) in
  exists c',
    AlphaBrushTool.mouse_press_shift c event = Some c' /\
    Canvas._undo_stack c' = Canvas._undo_stack (Canvas.save_undo c) /\
    last (Canvas._undo_stack c') = Some pm /\
    Canvas._redo_stack c' = [] /\
    (out_of_bounds pm (ev_pos event) \/ alpha (pixelColor pm x y) = 0 ->
     c' = Canvas.save_undo c).
Proof.
  intros pm x y.
  assert (Hl : last (Canvas._undo_stack (Canvas.save_undo c)) = Some pm).
  { rewrite save_undo_stack. apply last_snoc. }
  unfold AlphaBrushTool.mouse_press_shift, AlphaBrushTool._alpha_flood_fill, toImage.
  change (Canvas.pixmap (Canvas.save_undo c)) with pm. fold x y.
  destruct ((x <? 0) || (x >=? pm_width pm) || (y <? 0) || (y >=? pm_height pm)) eqn:Eo.
  { eexists. split; [reflexivity|]. done. }
  destruct (Z.eqb_spec (alpha (pixelColor pm x y)) 0) as [e|ne].
  { eexists. split; [reflexivity|]. done. }
  assert (Hin : in_bounds (pm_width pm) (pm_height pm) x y = true).
  { apply inside_in_bounds.
    apply orb_false_iff in Eo as [Eo Ey]. apply orb_false_iff in Eo as [Eo Ey0].
    apply orb_false_iff in Eo as [Ex0 Ex].
    apply Z.ltb_ge in Ex0, Ey0.
    destruct (Z.geb_spec x (pm_width pm)); [done|].
    destruct (Z.geb_spec y (pm_height pm)); [done|].
    split; simpl; lia. }
  destruct (flood_run_spec pm x y (mkQColor 0 0 0 0) Hin) as (s & E & _).
  rewrite E. cbn [mbind option_bind].
  eexists. split; [reflexivity|].
  destruct (set_modified_set_pixmap (Canvas.save_undo c) (fromImage (FloodFill.img s)) true)
    as (Epm & Eu & Er & _).
  rewrite Eu, Er. split; [done|]. split; [done|]. split; [done|].
  intros [Ho|Ha0]; [|done].
  apply out_of_bounds_test in Ho. fold x y in Ho. congruence.
Qed.

(** ** The selection tool: gestures *)

Section GestureFacts.
Context `{QtRaster}.
Import SelectionTool.

Lemma moveCenter_twice (r : QRect) (p q : QPoint) :
  moveCenter (moveCenter r p) q = moveCenter r q.
Proof.
  unfold moveCenter. cbn [x1 x2 y1 y2].
  replace (pt_x p - (x2 r - x1 r) `quot` 2 + (x2 r - x1 r)
           - (pt_x p - (x2 r - x1 r) `quot` 2)) with (x2 r - x1 r) by lia.
  replace (pt_y p - (y2 r - y1 r) `quot` 2 + (y2 r - y1 r)
           - (pt_y p - (y2 r - y1 r) `quot` 2)) with (y2 r - y1 r) by lia.
  done.
Qed.

(** A pointer move does not depend on the moves before it. *)
Lemma mouse_move_forgets (s s1 : t) (m1 m : MouseEvent) :
  mouse_move s m1 = Some s1 -> mouse_move s1 m = mouse_move s m.
Proof.
  unfold mouse_move. destruct (_state s) eqn:Es.
  - intros [= <-]. by rewrite Es.
  - destruct (_start s) as [st|] eqn:Est; [|done].
    cbn [mbind option_bind]. intros [= <-].
    cbn [with_rect _state _start]. rewrite Es, Est. done.
  - intros [= <-]. by rewrite Es.
  - destruct (_move_offset s) as [off|] eqn:Eo.
    + intros [= <-]. cbn [with_rect _state _move_offset _rect]. rewrite Es, Eo.
      by rewrite moveCenter_twice.
    + intros [= <-]. by rewrite Es, Eo.
  - unfold _do_resize.
    destruct (_resize_anchor s) as [anchor|] eqn:Ea; [|done].
    destruct (_active_handle s) as [h|] eqn:Eh; [|done].
    destruct (_drag_start_rect s) as [sr|] eqn:Er; [|done].
    cbn [mbind option_bind]. intros [= <-].
    cbn [with_rect _state _resize_anchor _active_handle _drag_start_rect _angle].
    rewrite Es, Ea, Eh, Er. done.
  - unfold _do_rotate.
    destruct (_drag_start_sel_angle s) as [sa|] eqn:Ea; [|done].
    destruct (_drag_start_angle s) as [da|] eqn:Ed; [|done].
    cbn [mbind option_bind]. intros [= <-].
    cbn [with_angle _state _drag_start_sel_angle _drag_start_angle _rect].
    rewrite Es, Ea, Ed. done.
Qed.

(** Whether a pointer move raises does not depend on the position. *)
Lemma mouse_move_fails_alike (s : t) (m1 m : MouseEvent) :
  mouse_move s m1 = None -> mouse_move s m = None.
Proof.
  unfold mouse_move, _do_resize, _do_rotate. destruct (_state s); try done.
  - by destruct (_start s).
  - by destruct (_move_offset s).
  - destruct (_resize_anchor s); [|done].
    destruct (_active_handle s); [|done]. by destruct (_drag_start_rect s).
  - destruct (_drag_start_sel_angle s); [|done]. by destruct (_drag_start_angle s).
Qed.

(** X8. Pointer moves are memoryless in every state of the tool: a run of
    moves gives what its last move alone gives (the rectangle and the angle
    are computed from what the press stored, never accumulated). *)
Theorem moves_depend_on_last_only (s : t) (moves : list MouseEvent) (m : MouseEvent) :
  for_each (moves ++ [m]) mouse_move s = mouse_move s m.
Proof.
  revert s. induction moves as [|m1 moves IH]; intros s.
  - cbn [app for_each]. by destruct (mouse_move s m).
  - cbn [app for_each]. destruct (mouse_move s m1) as [s1|] eqn:E1.
    + cbn [mbind option_bind]. rewrite IH. by apply (mouse_move_forgets s s1 m1).
    + cbn [mbind option_bind]. symmetry. by apply (mouse_move_fails_alike s m1).
Qed.

(** [moveCenter] to the old centre plus a displacement is a translation,
    for a rectangle whose corner sums are not negative (Qt's [center()]
    divides toward zero). *)
Lemma moveCenter_translate (r : QRect) (dx dy : Z) :
  x1 r <= x2 r -> y1 r <= y2 r -> 0 <= x1 r + x2 r -> 0 <= y1 r + y2 r ->
  moveCenter r (mkQPoint (pt_x (rect_center r) + dx) (pt_y (rect_center r) + dy))
    = mkQRect (x1 r + dx) (y1 r + dy) (x2 r + dx) (y2 r + dy).
Proof.
  intros Hx Hy Hsx Hsy. unfold moveCenter, rect_center. cbn [pt_x pt_y].
  rewrite !Z.quot_div_nonneg by lia.
  replace (x1 r + x2 r) with (x2 r - x1 r + x1 r * 2) by lia.
  replace (y1 r + y2 r) with (y2 r - y1 r + y1 r * 2) by lia.
  rewrite !Z.div_add by lia.
  f_equal; lia.
Qed.

(** X9. Moving a selection.  A left press inside a selected rectangle and
    on no handle starts a move and leaves the canvas alone; a pointer move to
    any position then translates the rectangle by exactly the displacement
    of the pointer since the press (for a rectangle whose corner sums are
    not negative), keeping snippet and angle; the release ends in state
    selected with the buffer and the log untouched and the canvas marked
    modified. *)
Theorem move_translates_by_pointer_delta (s : t) (c : Canvas.t)
        (press m release : MouseEvent) :
  ev_button press = LeftButton ->
  _state s = selected ->
  _hit_handle s c (ev_pos press) = Some None ->
  _point_in_selection s (ev_pos press) = true ->
  0 <= x1 (_rect s) + x2 (_rect s) -> 0 <= y1 (_rect s) + y2 (_rect s) ->
  let dx := pt_x (ev_pos m) - pt_x (ev_pos press) in
  let dy := pt_y (ev_pos m) - pt_y (ev_pos press) in
  exists s1 s2,
    mouse_press s c press = Some (s1, c) /\
    _state s1 = moving /\
    mouse_move s1 m = Some s2 /\
    _rect s2 = mkQRect (x1 (_rect s) + dx) (y1 (_rect s) + dy)
                       (x2 (_rect s) + dx) (y2 (_rect s) + dy) /\
    _snippet s2 = _snippet s /\ _angle s2 = _angle s /\
    mouse_release s2 c release
      = Some (with_state s2 selected, Canvas.set_modified c true).
Proof.
  intros Hb Hs Hh Hin Hsx Hsy dx dy.
  assert (Hwh : x1 (_rect s) <= x2 (_rect s) /\ y1 (_rect s) <= y2 (_rect s)).
  { unfold _point_in_selection in Hin.
    destruct ((rect_width (_rect s) <? 2) || (rect_height (_rect s) <? 2)) eqn:E; [done|].
    apply orb_false_iff in E as [Ew Eh]. apply Z.ltb_ge in Ew, Eh.
    unfold rect_width, rect_height in *. lia. }
  destruct Hwh as [Hx Hy].
  eexists _, _. split.
  { unfold mouse_press. rewrite decide_False by (intros Hn; by apply Hn).
    rewrite Hs, Hh. cbn [mbind option_bind]. rewrite Hin. reflexivity. }
  split; [reflexivity|].
  assert (Ex : py_int (inject_Z (pt_x (ev_pos m))
                       - (inject_Z (pt_x (ev_pos press))
                          - inject_Z (pt_x (rect_center (_rect s)))))
               = pt_x (rect_center (_rect s)) + dx).
  { apply py_int_of_Z. unfold dx, Qeq, Qminus, Qplus, Qopp, inject_Z. simpl. lia. }
  assert (Ey : py_int (inject_Z (pt_y (ev_pos m))
                       - (inject_Z (pt_y (ev_pos press))
                          - inject_Z (pt_y (rect_center (_rect s)))))
               = pt_y (rect_center (_rect s)) + dy).
  { apply py_int_of_Z. unfold dy, Qeq, Qminus, Qplus, Qopp, inject_Z. simpl. lia. }
  split.
  { unfold mouse_move. cbn [_state _move_offset _rect ptf_x ptf_y].
    rewrite Ex, Ey. reflexivity. }
  cbn [with_rect _rect _snippet _angle].
  split; [by apply moveCenter_translate|].
  split; [done|]. split; [done|].
  reflexivity.
Qed.


(** X11. Select all, then commit.  On a canvas with at least one pixel and
    a tool that holds no floating selection, [select_all] pushes the buffer
    on the undo stack, lifts the whole buffer into the snippet (angle 0,
    state selected) and paints the background colour over it; committing
    that selection puts every pixel back. *)
Theorem select_all_then_commit_restores (s : t) (c : Canvas.t) :
  floating (_state s) = false ->
  1 <= pm_width (Canvas.pixmap c) -> 1 <= pm_height (Canvas.pixmap c) ->
  let pm := Canvas.pixmap c in
  exists s1 c1 c2,
    select_all s c = Some (s1, c1) /\
    _state s1 = selected /\ _rect s1 = pm_rect pm /\ _angle s1 = 0%Q /\
    _snippet s1 = Some (copy_rect pm (pm_rect pm)) /\
    has_selection s1 = true /\
    Canvas._undo_stack c1 = Canvas._undo_stack (Canvas.save_undo c) /\
    Canvas._redo_stack c1 = [] /\
    (forall x y, in_bounds (pm_width pm) (pm_height pm) x y = true ->
       pixelColor (Canvas.pixmap c1) x y
         = source_over (Canvas.bg_color c) (pixelColor pm x y)) /\
    _commit s1 c1 = Some c2 /\
    pm_width (Canvas.pixmap c2) = pm_width pm /\
    pm_height (Canvas.pixmap c2) = pm_height pm /\
    (forall x y, pixelColor (Canvas.pixmap c2) x y = pixelColor pm x y) /\
    Canvas._undo_stack c2 = Canvas._undo_stack c1.
Proof.
  intros Hf Hw Hh pm. fold pm in Hw, Hh.
  assert (Ec : _commit s c = Some c).
  { unfold _commit. destruct (_snippet s); [|done].
    rewrite Hf. by rewrite andb_false_r. }
  assert (Ei : intersected (pm_rect pm) (pm_rect pm) = pm_rect pm).
  { apply intersected_inside; unfold pm_rect, QRect_xywh; cbn [x1 x2 y1 y2]; fold pm; lia. }
  assert (Ee : rect_isEmpty (pm_rect pm) = false).
  { unfold rect_isEmpty, pm_rect, QRect_xywh. cbn [x1 x2 y1 y2].
    destruct (Z.ltb_spec (0 + pm_width pm - 1) 0); [lia|].
    destruct (Z.ltb_spec (0 + pm_height pm - 1) 0); [lia|done]. }
  set (snippet := copy_rect pm (pm_rect pm)).
  assert (Esw : pm_width snippet = pm_width pm).
  { unfold snippet, copy_rect. rewrite Ee, Ei. cbn [pm_width].
    unfold pm_rect. apply rect_xywh_width. }
  assert (Esh : pm_height snippet = pm_height pm).
  { unfold snippet, copy_rect. rewrite Ee, Ei. cbn [pm_height].
    unfold pm_rect. apply rect_xywh_height. }
  assert (Esp : forall x y, pm_pixel snippet x y = pm_pixel pm x y).
  { intros x y. unfold snippet, copy_rect. rewrite Ee, Ei. cbn [pm_pixel].
    unfold pm_rect, rect_x, rect_y, QRect_xywh. cbn [x1 y1]. f_equal; lia. }
  set (c1 := Canvas.with_pixmap (Canvas.save_undo c)
               (fillRect pm (pm_rect pm) (Canvas.bg_color c))).
  set (s1 := with_state (with_angle (with_rect (with_snippet s (Some snippet)) (pm_rect pm)) 0)
                        selected).
  assert (Esel : select_all s c = Some (s1, c1)).
  { unfold select_all. rewrite Ec. reflexivity. }
  assert (Ecm : _commit s1 c1
                = Some (Canvas.with_pixmap c1
                          (drawPixmap_source (Canvas.pixmap c1)
                             (x1 (_rect s1)) (y1 (_rect s1)) snippet))).
  { apply commit_in_place; try reflexivity.
    - cbn [s1 with_state with_angle with_rect _rect]. unfold pm_rect.
      rewrite rect_xywh_width. fold pm. lia.
    - cbn [s1 with_state with_angle with_rect _rect]. unfold pm_rect.
      rewrite rect_xywh_height. fold pm. lia.
    - cbn [s1 with_state with_angle with_rect _rect]. unfold pm_rect.
      by rewrite rect_xywh_width.
    - cbn [s1 with_state with_angle with_rect _rect]. unfold pm_rect.
      by rewrite rect_xywh_height.
    - cbn [s1 c1 with_state with_angle with_rect _rect Canvas.pixmap Canvas.with_pixmap
           Canvas._pixmap fillRect pm_width]. unfold pm_rect, QRect_xywh. cbn [x2]. lia.
    - cbn [s1 c1 with_state with_angle with_rect _rect Canvas.pixmap Canvas.with_pixmap
           Canvas._pixmap fillRect pm_height]. unfold pm_rect, QRect_xywh. cbn [y2]. lia. }
  exists s1, c1. eexists. split; [exact Esel|].
  split; [reflexivity|]. split; [reflexivity|]. split; [reflexivity|].
  split; [reflexivity|]. split; [reflexivity|]. split; [reflexivity|].
  split; [reflexivity|].
  split.
  { intros x y Hin. unfold pixelColor.
    cbn [c1 Canvas.pixmap Canvas.with_pixmap Canvas._pixmap fillRect pm_width pm_height
         pm_pixel]. fold pm. rewrite Hin.
    assert (Hc : rect_contains (pm_rect pm) x y = true).
    { apply in_bounds_inside in Hin as [Hx Hy]. simpl in Hx, Hy.
      unfold rect_contains, pm_rect, QRect_xywh. cbn [x1 x2 y1 y2].
      destruct (Z.leb_spec 0 x); [|lia].
      destruct (Z.leb_spec x (0 + pm_width pm - 1)); [|lia].
      destruct (Z.leb_spec 0 y); [|lia].
      destruct (Z.leb_spec y (0 + pm_height pm - 1)); [|lia]. done. }
    by rewrite Hc. }
  split; [exact Ecm|].
  split; [reflexivity|]. split; [reflexivity|].
  split; [|reflexivity].
  intros x y. unfold pixelColor.
  cbn [c1 s1 Canvas.pixmap Canvas.with_pixmap Canvas._pixmap drawPixmap_source fillRect
       pm_width pm_height pm_pixel with_state with_angle with_rect _rect].
  fold pm. destruct (in_bounds (pm_width pm) (pm_height pm) x y) eqn:Hin; [|done].
  unfold pm_rect, QRect_xywh. cbn [x1 y1].
  rewrite Esw, Esh, !Z.sub_0_r, Hin. apply Esp.
Qed.



(** *** No handler raises *)

Lemma set_pixmap_zoom (c : Canvas.t) (pm : QPixmap) :
  Canvas.zoom (Canvas.set_pixmap c pm) = Canvas.zoom c.
Proof. unfold Canvas.set_pixmap. by destruct (negb _). Qed.

(** [_commit] always returns, and leaves the zoom alone. *)
Lemma commit_returns (s : t) (c : Canvas.t) :
  exists c', _commit s c = Some c' /\ Canvas.zoom c' = Canvas.zoom c.
Proof.
  unfold _commit. destruct (_snippet s) as [snippet|] eqn:Hsn; [|by exists c].
  destruct (isNull snippet) eqn:Hnn; cbn [negb andb]; [by exists c|].
  destruct (floating (_state s)); [|by exists c].
  destruct (commit_size s) as [w h] eqn:Ecs.
  destruct (Qlt_bool (Qabs (_angle s)) (1 # 100)).
  - assert (Hst : exists stamp, unrotated_stamp s snippet = Some stamp).
    { unfold unrotated_stamp. rewrite Ecs.
      destruct ((w =? pm_width snippet) && (h =? pm_height snippet)); [by eexists|].
      destruct (snap_alpha_spec (scaled snippet w h)) as (out & E & _). by exists out. }
    destruct Hst as [stamp ->]. cbn [mbind option_bind].
    destruct ((rect_x (_rect s) + w >? pm_width (Canvas.pixmap c))
              || (rect_y (_rect s) + h >? pm_height (Canvas.pixmap c))).
    + eexists. split; [reflexivity|]. apply set_pixmap_zoom.
    + eexists. split; [reflexivity|]. reflexivity.
  - destruct (rotated_result_exists s snippet Hsn Hnn) as (rendered & result & _ & _ & ->).
    cbn [mbind option_bind]. eexists. split; [reflexivity|].
    cbn [Canvas.with_pixmap Canvas.zoom]. unfold rotated_target.
    destruct (_ || _); [apply set_pixmap_zoom|reflexivity].
Qed.

Lemma press_outside_returns (s : t) (c : Canvas.t) (pos : QPoint) :
  exists s' c', press_outside s c pos = Some (s', c') /\
                gesture_ready s' /\ Canvas.zoom c' = Canvas.zoom c.
Proof.
  unfold press_outside.
  assert (Hc : exists c1, (if floating (_state s) then _commit s c else Some c) = Some c1 /\
                          Canvas.zoom c1 = Canvas.zoom c).
  { destruct (floating (_state s)); [apply commit_returns|by exists c]. }
  destruct Hc as (c1 & -> & Hz). cbn [mbind option_bind].
  eexists _, _. split; [reflexivity|]. split; [|exact Hz].
  unfold gesture_ready. cbn [_state _start]. by eexists.
Qed.

(** A handle that was hit has an opposite handle with a position, unless it
    is the rotation handle. *)
Lemma hit_handle_has_anchor (s : t) (c : Canvas.t) (pos : QPoint) (h : handle) :
  _hit_handle s c pos = Some (Some h) -> h <> H_rotate ->
  exists opp anchor,
    _OPPOSITE h = Some opp /\
    handle_lookup (_get_handle_positions s c) opp = Some anchor.
Proof.
  unfold _hit_handle, _get_handle_positions. intros Hh Hr.
  destruct ((rect_width (_rect s) <? 2) || (rect_height (_rect s) <? 2)).
  { destruct (_state s); try done; destruct (Qeq_bool _ _); done. }
  destruct h; try done; eexists _, _; (split; [reflexivity|reflexivity]).
Qed.

Lemma mouse_press_returns (s : t) (c : Canvas.t) (e : MouseEvent) :
  Qeq_bool (Canvas.zoom c) 0 = false -> gesture_ready s ->
  exists s' c', mouse_press s c e = Some (s', c') /\
                gesture_ready s' /\ Canvas.zoom c' = Canvas.zoom c.
Proof.
  intros Hz Hr. unfold mouse_press.
  destruct (decide (ev_button e ≠ LeftButton)); [by exists s, c|].
  assert (Hsel : forall (Hs : _state s = selected \/ _state s = moving),
    exists s' c',
      (handle ← _hit_handle s c (ev_pos e);
       match handle with
       | Some H_rotate =>
           let center := QPointF_of (rect_center (_rect s)) in
           let a := atan2_deg (inject_Z (pt_y (ev_pos e)) - ptf_y center)
                              (inject_Z (pt_x (ev_pos e)) - ptf_x center) in
           Some (mk rotating (_start s) (_rect s) (_snippet s) (_angle s)
                    (_move_offset s) (_active_handle s) (_resize_anchor s)
                    (_drag_start_rect s) (Some a) (Some (_angle s)), c)
       | Some handle =>
           opp ← _OPPOSITE handle;
           anchor ← handle_lookup (_get_handle_positions s c) opp;
           Some (mk resizing (_start s) (_rect s) (_snippet s) (_angle s)
                    (_move_offset s) (Some handle) (Some anchor)
                    (Some (QRectF_of (_rect s)))
                    (_drag_start_angle s) (_drag_start_sel_angle s), c)
       | None =>
           if _point_in_selection s (ev_pos e) then
             let ctr := rect_center (_rect s) in
             let off := mkQPointF (inject_Z (pt_x (ev_pos e)) - inject_Z (pt_x ctr))
                                  (inject_Z (pt_y (ev_pos e)) - inject_Z (pt_y ctr)) in
             Some (mk moving (_start s) (_rect s) (_snippet s) (_angle s)
                      (Some off) (_active_handle s) (_resize_anchor s)
                      (_drag_start_rect s) (_drag_start_angle s)
                      (_drag_start_sel_angle s), c)
           else press_outside s c (ev_pos e)
       end) = Some (s', c') /\ gesture_ready s' /\ Canvas.zoom c' = Canvas.zoom c).
  { intros Hs.
    destruct (_hit_handle s c (ev_pos e)) as [hit|] eqn:Eh.
    2:{ unfold _hit_handle in Eh. rewrite Hz in Eh.
        destruct Hs as [Hs|Hs]; rewrite Hs in Eh; done. }
    cbn [mbind option_bind]. destruct hit as [h|].
    - destruct (decide (h = H_rotate)) as [-> | Hnr].
      + eexists _, _. split; [reflexivity|]. split; [|done].
        unfold gesture_ready. cbn [_state _drag_start_sel_angle _drag_start_angle].
        split; by eexists.
      + destruct (hit_handle_has_anchor s c _ h Eh Hnr) as (opp & anchor & Eo & Ea).
        rewrite Eo. cbn [mbind option_bind]. rewrite Ea. cbn [mbind option_bind].
        destruct h; try done;
          (eexists _, _; split; [reflexivity|]; split; [|done];
           unfold gesture_ready; cbn [_state _resize_anchor _active_handle _drag_start_rect];
           repeat split; by eexists).
    - destruct (_point_in_selection s (ev_pos e)).
      + eexists _, _. split; [reflexivity|]. done.
      + apply press_outside_returns. }
  destruct (_state s) eqn:Es;
    first [apply press_outside_returns | apply Hsel; auto].
Qed.

Lemma mouse_move_returns (s : t) (e : MouseEvent) :
  gesture_ready s -> exists s', mouse_move s e = Some s' /\ gesture_ready s'.
Proof.
  unfold gesture_ready, mouse_move, _do_resize, _do_rotate.
  destruct (_state s) eqn:Es.
  - intros _. exists s. by rewrite Es.
  - intros [st Est]. rewrite Est. cbn [mbind option_bind].
    eexists. split; [reflexivity|]. cbn [with_rect _state _start]. by rewrite Es, Est.
  - intros _. exists s. by rewrite Es.
  - intros _. destruct (_move_offset s).
    + eexists. split; [reflexivity|]. cbn [with_rect _state]. by rewrite Es.
    + exists s. by rewrite Es.
  - intros ([a Ea] & [h Eh] & [r Er]). rewrite Ea, Eh, Er. cbn [mbind option_bind].
    eexists. split; [reflexivity|].
    cbn [with_rect _state _resize_anchor _active_handle _drag_start_rect].
    rewrite Es, Ea, Eh, Er. repeat split; by eexists.
  - intros ([a Ea] & [d Ed]). rewrite Ea, Ed. cbn [mbind option_bind].
    eexists. split; [reflexivity|].
    cbn [with_angle _state _drag_start_sel_angle _drag_start_angle].
    rewrite Es, Ea, Ed. split; by eexists.
Qed.

Lemma mouse_release_returns (s : t) (c : Canvas.t) (e : MouseEvent) :
  gesture_ready s ->
  exists s' c', mouse_release s c e = Some (s', c') /\
                gesture_ready s' /\ Canvas.zoom c' = Canvas.zoom c.
Proof.
  unfold gesture_ready, mouse_release.
  destruct (_state s) eqn:Es.
  - intros _. exists s, c. by rewrite Es.
  - intros [st Est]. rewrite Est. cbn [mbind option_bind].
    destruct (_ && _); eexists _, _; (split; [reflexivity|]); done.
  - intros _. exists s, c. by rewrite Es.
  - intros _. eexists _, _. split; [reflexivity|]. done.
  - intros _. eexists _, _. split; [reflexivity|]. done.
  - intros _. eexists _, _. split; [reflexivity|]. done.
Qed.

(** X13. No event makes the selection tool raise.  From a tool whose
    state-specific attributes are set (as in the initial state) and a canvas
    whose zoom is not 0, every sequence of presses, moves, releases, Select
    All and tool switches is handled to the end: no missing attribute, no
    key error on the handle tables, no index error in the alpha snap, no
    division by zero.  The tool stays ready and the zoom is not changed. *)
Theorem selection_session_never_raises (s : t) (c : Canvas.t) (events : list tool_event) :
  Qeq_bool (Canvas.zoom c) 0 = false ->
  gesture_ready s ->
  exists s' c',
    for_each events tool_step (s, c) = Some (s', c') /\
    gesture_ready s' /\ Canvas.zoom c' = Canvas.zoom c.
Proof.
  revert s c. induction events as [|e events IH]; intros s c Hz Hr.
  { by exists s, c. }
  assert (Hstep : exists s1 c1, tool_step (s, c) e = Some (s1, c1) /\
                                gesture_ready s1 /\ Canvas.zoom c1 = Canvas.zoom c).
  { destruct e as [e|e|e| |]; cbn [tool_step fst snd].
    - by apply mouse_press_returns.
    - destruct (mouse_move_returns s e Hr) as (s1 & -> & Hr1). by exists s1, c.
    - by apply mouse_release_returns.
    - unfold select_all. destruct (commit_returns s c) as (c1 & -> & Hz1).
      cbn [mbind option_bind]. eexists _, _. split; [reflexivity|]. done.
    - unfold deactivate. destruct (commit_returns s c) as (c1 & -> & Hz1).
      cbn [mbind option_bind]. eexists _, _. split; [reflexivity|]. done. }
  destruct Hstep as (s1 & c1 & E1 & Hr1 & Hz1).
  cbn [for_each]. rewrite E1. cbn [mbind option_bind].
  destruct (IH s1 c1) as (s' & c' & E & Hr' & Hz'); [by rewrite Hz1|done|].
  exists s', c'. split; [exact E|]. split; [exact Hr'|]. by rewrite Hz', Hz1.
Qed.

(** X14. The one way to make a press raise: with a floating selection in
    state selected or moving, a left press on a canvas whose zoom is 0
    divides by zero in [_hit_handle]. *)
Theorem press_raises_at_zoom_zero (s : t) (c : Canvas.t) (e : MouseEvent) :
  ev_button e = LeftButton ->
  _state s = selected \/ _state s = moving ->
  Qeq_bool (Canvas.zoom c) 0 = true ->
  mouse_press s c e = None.
Proof.
  intros Hb Hs Hz. unfold mouse_press.
  rewrite decide_False by (intros Hn; by apply Hn).
  unfold _hit_handle. destruct Hs as [-> | ->]; by rewrite Hz.
Qed.

End GestureFacts.

(** ** The recent colours of the palette *)

Section PaletteFacts.
Import ColorPalette.

Lemma add_color_head (l : list string) (c : QColor) :
  head (add_color l c) = Some (QColor_name c).
Proof. reflexivity. Qed.

Lemma add_color_unfold (l : list string) (c : QColor) :
  add_color l c
  = QColor_name c :: take 13 (filter (fun x => x ≠ QColor_name c) l).
Proof. reflexivity. Qed.

Lemma add_color_NoDup (l : list string) (c : QColor) :
  NoDup l -> NoDup (add_color l c).
Proof.
  intros Hl. rewrite add_color_unfold. apply NoDup_cons. split.
  - intros Hin. apply elem_of_take in Hin as (i & Hin & _).
    apply list_elem_of_lookup_2 in Hin.
    apply list_elem_of_filter in Hin as [Hne _]. by apply Hne.
  - apply (sublist_NoDup _ (filter (fun x => x ≠ QColor_name c) l)).
    + by apply NoDup_filter.
    + apply sublist_take.
Qed.

Lemma add_color_length (l : list string) (c : QColor) :
  (length (add_color l c) <= MAX_RECENT)%nat.
Proof. unfold add_color. rewrite length_take. lia. Qed.

Lemma add_color_elem (l : list string) (c : QColor) (x : string) :
  x ∈ add_color l c -> x = QColor_name c \/ x ∈ l.
Proof.
  rewrite add_color_unfold. intros Hin. apply elem_of_cons in Hin as [->|Hin]; [by left|].
  right. apply elem_of_take in Hin as (i & Hin & _).
  apply list_elem_of_lookup_2 in Hin.
  by apply list_elem_of_filter in Hin as [_ Hin].
Qed.

Lemma recent_colors_spec (cs : list QColor) (l0 : list string) :
  NoDup l0 -> (length l0 <= MAX_RECENT)%nat ->
  let l := foldl add_color l0 cs in
  NoDup l /\ (length l <= MAX_RECENT)%nat /\
  (forall x, x ∈ l -> x ∈ l0 \/ exists c, c ∈ cs /\ x = QColor_name c) /\
  (forall c, last cs = Some c -> head l = Some (QColor_name c)).
Proof.
  revert l0. induction cs as [|c cs IH] using rev_ind; intros l0 Hnd Hlen l.
  - cbn in l. subst l. split; [done|]. split; [done|]. split; [by left|done].
  - subst l. rewrite foldl_app. cbn [foldl].
    destruct (IH l0 Hnd Hlen) as (Hn & Hl & He & _).
    split; [by apply add_color_NoDup|].
    split; [apply add_color_length|].
    split.
    + intros x Hx. apply add_color_elem in Hx as [->|Hx].
      * right. exists c. split; [|done]. apply elem_of_app. right. by apply list_elem_of_singleton.
      * apply He in Hx as [Hx|(c' & Hc' & ->)]; [by left|].
        right. exists c'. split; [|done]. apply elem_of_app. by left.
    + intros c'. rewrite last_snoc. intros [= <-]. apply add_color_head.
Qed.

(** X15. The row of recent colours.  However many colours are added, the
    row holds no colour twice and at most [MAX_RECENT] colours, each the
    name of a colour that was added, with the colour added last in front;
    adding the colour that is already in front changes nothing. *)
Theorem recent_colors_invariant (cs : list QColor) (c : QColor) :
  let l := foldl add_color [] cs in
  NoDup l /\ (length l <= MAX_RECENT)%nat /\
  (forall x, x ∈ l -> exists c, c ∈ cs /\ x = QColor_name c) /\
  (forall c, last cs = Some c -> head l = Some (QColor_name c)) /\
  add_color (add_color l c) c = add_color l c.
Proof.
  intros l.
  destruct (recent_colors_spec cs []) as (Hn & Hl & He & Hh);
    [apply NoDup_nil_2 | cbn; unfold MAX_RECENT; lia |].
  fold l in Hn, Hl, He, Hh.
  split; [exact Hn|]. split; [exact Hl|].
  split. { intros x Hx. destruct (He x Hx) as [Hx'|Hx']; [|done]. by apply elem_of_nil in Hx'. }
  split; [exact Hh|].
  rewrite !add_color_unfold. f_equal.
  cbn [filter]. rewrite filter_cons_False by (intros Hne; by apply Hne).
  assert (Hf : forall l' : list string,
             (forall x, x ∈ l' -> x ≠ QColor_name c) ->
             filter (fun x => x ≠ QColor_name c) l' = l').
  { induction l' as [|a l' IH]; intros Hall; [done|].
    rewrite filter_cons_True by (apply Hall; by left).
    f_equal. apply IH. intros x Hx. apply Hall. by right. }
  rewrite Hf.
  - rewrite take_take. f_equal.
  - intros x Hx. apply elem_of_take in Hx as (i & Hx & _).
    apply list_elem_of_lookup_2 in Hx.
    by apply list_elem_of_filter in Hx as [Hne _].
Qed.

End PaletteFacts.

(** ** The view *)

Section ViewFacts.
Import View.

Lemma clamp_in_range (z : Q) :
  (ZOOM_MIN <= py_max ZOOM_MIN (py_min ZOOM_MAX z))%Q /\
  (py_max ZOOM_MIN (py_min ZOOM_MAX z) <= ZOOM_MAX)%Q.
Proof.
  unfold py_max, py_min.
  destruct (Qle_bool ZOOM_MAX z) eqn:E1.
  - change (Qle_bool ZOOM_MAX ZOOM_MIN) with false. cbv iota.
    split; [by vm_compute|apply Qle_refl].
  - destruct (Qle_bool z ZOOM_MIN) eqn:E2.
    + split; [apply Qle_refl|by vm_compute].
    + split.
      * apply Qlt_le_weak, Qnot_le_lt. intros Hle.
        apply Qle_bool_iff in Hle. congruence.
      * apply Qlt_le_weak, Qnot_le_lt. intros Hle.
        apply Qle_bool_iff in Hle. congruence.
Qed.

Lemma in_range_not_zero (v : View.t) :
  zoom_in_range v -> Qeq_bool (zoom v) 0 = false.
Proof.
  intros [Hlo _]. destruct (Qeq_bool (zoom v) 0) eqn:E; [|done].
  apply Qeq_bool_iff in E. rewrite E in Hlo. by vm_compute in Hlo.
Qed.

Lemma set_zoom_spec (v : View.t) (z : Q) (anchor : option QPoint) :
  zoom_in_range v ->
  exists v',
    set_zoom v z anchor = Some v' /\ zoom_in_range v' /\
    Canvas.pixmap (canvas v') = Canvas.pixmap (canvas v) /\
    Canvas._undo_stack (canvas v') = Canvas._undo_stack (canvas v) /\
    Canvas._redo_stack (canvas v') = Canvas._redo_stack (canvas v) /\
    (zoom v' = zoom v \/ zoom v' = py_max ZOOM_MIN (py_min ZOOM_MAX z)).
Proof.
  intros Hr. unfold set_zoom.
  destruct (Qlt_bool _ _).
  { exists v. split; [done|]. split; [done|]. repeat split; by left. }
  rewrite (in_range_not_zero v Hr).
  eexists. split; [reflexivity|].
  split. { unfold zoom_in_range, zoom. cbn [canvas with_zoom Canvas.zoom]. apply clamp_in_range. }
  repeat split. by right.
Qed.

(** X16. The zoom stays in range.  From a view whose zoom lies between
    [ZOOM_MIN] and [ZOOM_MAX] (the initial zoom is 1), every sequence of zoom
    requests is carried out to the end, the zoom stays between [ZOOM_MIN]
    and [ZOOM_MAX], hence is never 0, and buffer and log are not touched. *)
Theorem zoom_stays_in_range (v : View.t) (requests : list zoom_request) :
  zoom_in_range v ->
  exists v',
    for_each requests zoom_step v = Some v' /\
    zoom_in_range v' /\
    Qeq_bool (Canvas.zoom (canvas v')) 0 = false /\
    Canvas.pixmap (canvas v') = Canvas.pixmap (canvas v) /\
    Canvas._undo_stack (canvas v') = Canvas._undo_stack (canvas v) /\
    Canvas._redo_stack (canvas v') = Canvas._redo_stack (canvas v).
Proof.
  revert v. induction requests as [|r requests IH]; intros v Hr.
  { exists v. split; [done|]. split; [done|]. split; [by apply in_range_not_zero|done]. }
  assert (Hs : exists v1, zoom_step v r = Some v1 /\ zoom_in_range v1 /\
                          Canvas.pixmap (canvas v1) = Canvas.pixmap (canvas v) /\
                          Canvas._undo_stack (canvas v1) = Canvas._undo_stack (canvas v) /\
                          Canvas._redo_stack (canvas v1) = Canvas._redo_stack (canvas v)).
  { destruct r as [z a| | |]; cbn [zoom_step]; unfold zoom_in, zoom_out, zoom_reset;
      match goal with
      | |- context [set_zoom v ?z ?a] =>
          destruct (set_zoom_spec v z a Hr) as (v1 & E & Hr1 & Hp & Hu & Hd & _)
      end; exists v1; done. }
  destruct Hs as (v1 & E1 & Hr1 & Hp1 & Hu1 & Hd1).
  destruct (IH v1 Hr1) as (v' & E & Hr' & Hz & Hp & Hu & Hd).
  exists v'. cbn [for_each]. rewrite E1. cbn [mbind option_bind].
  split; [exact E|]. split; [exact Hr'|]. split; [exact Hz|].
  split; [by rewrite Hp|]. split; [by rewrite Hu|by rewrite Hd].
Qed.

Lemma py_int_nonneg_bounds (q : Q) (n : Z) :
  (0 <= q)%Q -> (q < inject_Z n)%Q -> 0 <= py_int q < n.
Proof.
  intros H0 Hn. unfold py_int.
  rewrite (proj2 (Qle_bool_iff 0 q) H0).
  split.
  - change 0 with (Qfloor 0). by apply Qfloor_resp_le.
  - rewrite Zlt_Qlt. eapply Qle_lt_trans; [apply Qfloor_le|exact Hn].
Qed.

Lemma py_int_small_negative (q : Q) :
  (-1 < q)%Q -> (q < 0)%Q -> py_int q = 0.
Proof.
  intros Hlo Hhi. unfold py_int.
  destruct (Qle_bool 0 q) eqn:E.
  { apply Qle_bool_iff in E. exfalso. by apply (Qlt_not_le _ _ Hhi). }
  assert (H1 : Qceiling q <= 0).
  { change 0 with (Qceiling 0). apply Qceiling_resp_le. by apply Qlt_le_weak. }
  assert (H2 : -1 < Qceiling q).
  { rewrite Zlt_Qlt. eapply Qlt_le_trans; [exact Hlo|apply Qle_ceiling]. }
  lia.
Qed.

(** X17. Widget positions and buffer coordinates.  With a zoom that is not
    0, a widget position that [_is_over_canvas] accepts is mapped by
    [_canvas_pos] to a coordinate of the buffer.  The converse fails at the
    left and top edges: a position less than one buffer pixel to the left
    of the buffer is not over the canvas, yet [_canvas_pos] maps it to
    column 0, because [int] truncates toward zero (and likewise for rows). *)
Theorem canvas_pos_of_position_over_canvas (v : View.t) (wp : QPoint) :
  Qeq_bool (zoom v) 0 = false ->
  let pm := Canvas.pixmap (canvas v) in
  let cx := (inject_Z (pt_x wp - pt_x (_pan_offset v)) / zoom v)%Q in
  let cy := (inject_Z (pt_y wp - pt_y (_pan_offset v)) / zoom v)%Q in
  exists p over,
    _canvas_pos v wp = Some p /\
    _is_over_canvas v wp = Some over /\
    (over = true -> in_bounds (pm_width pm) (pm_height pm) (pt_x p) (pt_y p) = true) /\
    ((-1 < cx)%Q -> (cx < 0)%Q -> over = false /\ pt_x p = 0) /\
    ((-1 < cy)%Q -> (cy < 0)%Q -> over = false /\ pt_y p = 0).
Proof.
  intros Hz pm cx cy. unfold _canvas_pos, _is_over_canvas. rewrite Hz.
  fold pm cx cy. eexists _, _. split; [reflexivity|]. split; [reflexivity|].
  cbn [pt_x pt_y]. split; [|split].
  - intros Ho. apply andb_true_iff in Ho as [Ho Hy2].
    apply andb_true_iff in Ho as [Ho Hy1]. apply andb_true_iff in Ho as [Hx1 Hx2].
    apply Qle_bool_iff in Hx1, Hy1.
    unfold Qlt_bool in Hx2, Hy2. apply negb_true_iff in Hx2, Hy2.
    assert (Hx2' : (cx < inject_Z (pm_width pm))%Q).
    { apply Qnot_le_lt. intros Hle. apply Qle_bool_iff in Hle. congruence. }
    assert (Hy2' : (cy < inject_Z (pm_height pm))%Q).
    { apply Qnot_le_lt. intros Hle. apply Qle_bool_iff in Hle. congruence. }
    apply inside_in_bounds. split; cbn [fst snd]; by apply py_int_nonneg_bounds.
  - intros Hlo Hhi. split; [|by apply py_int_small_negative].
    destruct (Qle_bool 0 cx) eqn:E; [|done].
    apply Qle_bool_iff in E. exfalso. by apply (Qlt_not_le _ _ Hhi).
  - intros Hlo Hhi. split; [|by apply py_int_small_negative].
    destruct (Qle_bool 0 cy) eqn:E; [|by rewrite andb_false_r].
    apply Qle_bool_iff in E. exfalso. by apply (Qlt_not_le _ _ Hhi).
Qed.

(** X30. Centring.  [center_canvas] places the zoomed buffer so that the
    margin on its right is the margin on its left or one pixel more, and
    likewise below and above (also when the buffer is larger than the
    widget and the margins are negative); zoom, buffer and log are left
    alone, and with a zoom that is not 0 the new pan offset, as a widget
    position, is mapped back to the buffer coordinate (0, 0). *)
Theorem center_canvas_centres (v : View.t) :
  let v' := center_canvas v in
  let pm := Canvas.pixmap (canvas v) in
  let pw := py_int (inject_Z (pm_width pm) * zoom v) in
  let ph := py_int (inject_Z (pm_height pm) * zoom v) in
  let left := pt_x (_pan_offset v') in
  let top := pt_y (_pan_offset v') in
  let right := width v - (left + pw) in
  let bottom := height v - (top + ph) in
  left <= right <= left + 1 /\
  top <= bottom <= top + 1 /\
  canvas v' = canvas v /\
  (Qeq_bool (zoom v) 0 = false ->
   _canvas_pos v' (_pan_offset v') = Some (mkQPoint 0 0)).
Proof.
  intros v' pm pw ph left top right bottom.
  subst left top right bottom v'. unfold center_canvas. fold pm pw ph.
  cbn [_pan_offset pt_x pt_y canvas].
  assert (Hd : forall a, a / 2 <= a - a / 2 <= a / 2 + 1).
  { intros a. pose proof (Z.div_mod a 2). pose proof (Z.mod_pos_bound a 2). lia. }
  pose proof (Hd (width v - pw)) as Hx. pose proof (Hd (height v - ph)) as Hy.
  clearbody pw ph.
  split; [lia|]. split; [lia|]. split; [done|].
  intros Hz. unfold _canvas_pos, zoom. cbn [canvas _pan_offset pt_x pt_y].
  unfold zoom in Hz. rewrite Hz. rewrite !Z.sub_diag.
  assert (E : py_int (inject_Z 0 / Canvas.zoom (canvas v)) = 0).
  { apply py_int_of_Z. unfold Qdiv. apply Qmult_0_l. }
  by rewrite E.
Qed.

End ViewFacts.

(** ** Canvas operations *)

Section CanvasOpsFacts.
Context `{QtRaster}.
Import CanvasOps.

Lemma commit_has_alpha (s : SelectionTool.t) (c c' : Canvas.t) :
  hasAlphaChannel (Canvas.pixmap c) = true ->
  SelectionTool._commit s c = Some c' ->
  hasAlphaChannel (Canvas.pixmap c') = true.
Proof.
  intros Ha. unfold SelectionTool._commit.
  destruct (SelectionTool._snippet s) as [snippet|]; [|by intros [= <-]].
  destruct (negb (isNull snippet) && SelectionTool.floating (SelectionTool._state s));
    [|by intros [= <-]].
  destruct (SelectionTool.commit_size s) as [w h].
  destruct (Qlt_bool _ _).
  - destruct (SelectionTool.unrotated_stamp s snippet) as [stamp|]; [|done].
    cbn [mbind option_bind]. destruct (_ || _).
    + intros [= <-]. apply set_pixmap_has_alpha.
    + intros [= <-]. exact Ha.
  - destruct (SelectionTool.rotated_result s) as [result|]; [|done].
    cbn [mbind option_bind]. intros [= <-].
    cbn [Canvas.pixmap Canvas.with_pixmap Canvas._pixmap SelectionTool.composite_clipped
         hasAlphaChannel pm_alpha].
    unfold SelectionTool.rotated_target. destruct (_ || _).
    + apply set_pixmap_has_alpha.
    + exact Ha.
Qed.

(** [commit_selection] always returns; afterwards the tool holds no
    selection, and a tool that held none is left as it was together with
    the canvas. *)
Lemma commit_selection_spec (s : SelectionTool.t) (c : Canvas.t) :
  exists s1 c1,
    commit_selection s c = Some (s1, c1) /\
    SelectionTool.has_selection s1 = false /\
    (SelectionTool.has_selection s = false -> s1 = s /\ c1 = c) /\
    (hasAlphaChannel (Canvas.pixmap c) = true ->
     hasAlphaChannel (Canvas.pixmap c1) = true) /\
    Canvas.bg_color c1 = Canvas.bg_color c.
Proof.
  unfold commit_selection. destruct (SelectionTool.has_selection s) eqn:Eh.
  - destruct (commit_returns s c) as (c1 & E & _). rewrite E. cbn [mbind option_bind].
    exists SelectionTool._reset, c1. split; [done|]. split; [done|]. split; [done|].
    split; [intros Ha; by apply (commit_has_alpha s c c1)|].
    revert E. unfold SelectionTool._commit.
    destruct (SelectionTool._snippet s) as [snippet|]; [|by intros [= <-]].
    destruct (negb (isNull snippet) && SelectionTool.floating (SelectionTool._state s));
      [|by intros [= <-]].
    destruct (SelectionTool.commit_size s) as [w h].
    destruct (Qlt_bool _ _).
    + destruct (SelectionTool.unrotated_stamp s snippet) as [stamp|]; [|done].
      cbn [mbind option_bind]. destruct (_ || _); intros [= <-]; [|done].
      unfold Canvas.set_pixmap. by destruct (negb _).
    + destruct (SelectionTool.rotated_result s) as [result|]; [|done].
      cbn [mbind option_bind]. intros [= <-].
      cbn [Canvas.with_pixmap Canvas.bg_color]. unfold SelectionTool.rotated_target.
      destruct (_ || _); [|done]. unfold Canvas.set_pixmap. by destruct (negb _).
  - exists s, c. done.
Qed.

Lemma in_bounds_mirror (w h x y : Z) :
  in_bounds w h (w - 1 - x) y = in_bounds w h x y /\
  in_bounds w h x (h - 1 - y) = in_bounds w h x y.
Proof.
  unfold in_bounds. split;
    repeat match goal with
           | |- context [?a <=? ?b] => destruct (Z.leb_spec a b)
           | |- context [?a <? ?b] => destruct (Z.ltb_spec a b)
           end; cbn; try done; lia.
Qed.

Lemma pixelColor_mirrored (pm : QPixmap) (hz vt : bool) (x y : Z) :
  pixelColor (mirrored pm hz vt) x y =
    pixelColor pm (if hz then pm_width pm - 1 - x else x)
                  (if vt then pm_height pm - 1 - y else y).
Proof.
  unfold pixelColor, mirrored. cbn [pm_width pm_height pm_pixel].
  destruct (in_bounds_mirror (pm_width pm) (pm_height pm) x y) as [Eh _].
  destruct (in_bounds_mirror (pm_width pm) (pm_height pm) x y) as [_ Ev].
  destruct (in_bounds_mirror (pm_width pm) (pm_height pm) (pm_width pm - 1 - x) y)
    as [_ Ehv].
  destruct hz, vt; rewrite ?Ehv, ?Eh, ?Ev; done.
Qed.

(** What a flip makes of a canvas on which nothing floats. *)
Lemma flip_canvas_spec (c : Canvas.t) (hz vt : bool) :
  hasAlphaChannel (Canvas.pixmap c) = true ->
  let pm := Canvas.pixmap c in
  let c' := Canvas.set_modified
              (Canvas.set_pixmap (Canvas.save_undo c)
                 (fromImage (mirrored (toImage (Canvas.pixmap (Canvas.save_undo c))) hz vt)))
              true in
  pm_width (Canvas.pixmap c') = pm_width pm /\
  pm_height (Canvas.pixmap c') = pm_height pm /\
  hasAlphaChannel (Canvas.pixmap c') = true /\
  (forall x y, pixelColor (Canvas.pixmap c') x y =
               pixelColor pm (if hz then pm_width pm - 1 - x else x)
                             (if vt then pm_height pm - 1 - y else y)) /\
  Canvas._undo_stack c' = Canvas._undo_stack (Canvas.save_undo c) /\
  Canvas._redo_stack c' = [].
Proof.
  intros Ha pm c'.
  destruct (set_modified_set_pixmap (Canvas.save_undo c)
              (fromImage (mirrored (toImage (Canvas.pixmap (Canvas.save_undo c))) hz vt)) true)
    as (Epm & Eu & Er & _).
  fold c' in Epm, Eu, Er.
  assert (Hma : pm_alpha (mirrored pm hz vt) = true) by exact Ha.
  destruct (set_pixmap_fromImage (Canvas.save_undo c) (mirrored pm hz vt) Hma)
    as (Hw & Hh & Hp).
  change (toImage (Canvas.pixmap (Canvas.save_undo c))) with pm in *.
  rewrite Epm, Eu, Er.
  split; [exact Hw|]. split; [exact Hh|].
  split; [apply set_pixmap_has_alpha|].
  split; [|done].
  intros x y. rewrite Hp. apply pixelColor_mirrored.
Qed.

(** X18. Flipping mirrors the buffer.  On a buffer with alpha channel, the
    two flips first commit what floats, push the committed buffer on the
    undo stack and clear the redo stack; the new buffer has the same size
    and reads at (x, y) what the committed buffer read at the mirrored
    column (horizontal flip) or row (vertical flip). *)
Theorem flip_mirrors_the_buffer (s : SelectionTool.t) (c : Canvas.t) :
  hasAlphaChannel (Canvas.pixmap c) = true ->
  exists s1 c1 ch cv,
    commit_selection s c = Some (s1, c1) /\
    flip_horizontal s c = Some (s1, ch) /\
    flip_vertical s c = Some (s1, cv) /\
    let pm := Canvas.pixmap c1 in
    (pm_width (Canvas.pixmap ch) = pm_width pm /\
     pm_height (Canvas.pixmap ch) = pm_height pm /\
     pm_width (Canvas.pixmap cv) = pm_width pm /\
     pm_height (Canvas.pixmap cv) = pm_height pm) /\
    (forall x y, pixelColor (Canvas.pixmap ch) x y
                 = pixelColor pm (pm_width pm - 1 - x) y) /\
    (forall x y, pixelColor (Canvas.pixmap cv) x y
                 = pixelColor pm x (pm_height pm - 1 - y)) /\
    Canvas._undo_stack ch = Canvas._undo_stack (Canvas.save_undo c1) /\
    Canvas._undo_stack cv = Canvas._undo_stack (Canvas.save_undo c1) /\
    Canvas._redo_stack ch = [] /\ Canvas._redo_stack cv = [].
Proof.
  intros Ha.
  destruct (commit_selection_spec s c) as (s1 & c1 & E & _ & _ & Ha1 & _).
  specialize (Ha1 Ha).
  destruct (flip_canvas_spec c1 true false Ha1) as (Hw & Hh & _ & Hp & Hu & Hr).
  destruct (flip_canvas_spec c1 false true Ha1) as (Hw' & Hh' & _ & Hp' & Hu' & Hr').
  eexists s1, c1, _, _. split; [exact E|].
  split. { unfold flip_horizontal. rewrite E. reflexivity. }
  split. { unfold flip_vertical. rewrite E. reflexivity. }
  cbn [fst snd]. done.
Qed.

(** X19. A flip is its own inverse.  Flipping twice in the same direction
    gives a buffer that reads everywhere what the committed buffer read
    before the first flip; each flip has pushed one snapshot. *)
Theorem flip_twice_restores (s : SelectionTool.t) (c : Canvas.t) :
  hasAlphaChannel (Canvas.pixmap c) = true ->
  exists s1 c1 ch ch2 cv cv2,
    commit_selection s c = Some (s1, c1) /\
    flip_horizontal s c = Some (s1, ch) /\ flip_horizontal s1 ch = Some (s1, ch2) /\
    flip_vertical s c = Some (s1, cv) /\ flip_vertical s1 cv = Some (s1, cv2) /\
    (forall x y, pixelColor (Canvas.pixmap ch2) x y = pixelColor (Canvas.pixmap c1) x y) /\
    (forall x y, pixelColor (Canvas.pixmap cv2) x y = pixelColor (Canvas.pixmap c1) x y) /\
    Canvas._undo_stack ch2 = Canvas._undo_stack (Canvas.save_undo ch) /\
    Canvas._undo_stack cv2 = Canvas._undo_stack (Canvas.save_undo cv).
Proof.
  intros Ha.
  destruct (commit_selection_spec s c) as (s1 & c1 & E & Hns & _ & Ha1 & _).
  specialize (Ha1 Ha).
  assert (E1 : forall c', commit_selection s1 c' = Some (s1, c')).
  { intros c'. unfold commit_selection. by rewrite Hns. }
  destruct (flip_canvas_spec c1 true false Ha1) as (Hw & Hh & Hah & Hp & Hu & Hr).
  destruct (flip_canvas_spec c1 false true Ha1) as (Hw' & Hh' & Hav & Hp' & Hu' & Hr').
  set (ch := Canvas.set_modified _ true) in Hw, Hh, Hah, Hp, Hu, Hr.
  set (cv := Canvas.set_modified _ true) in Hw', Hh', Hav, Hp', Hu', Hr'.
  destruct (flip_canvas_spec ch true false Hah) as (_ & _ & _ & Hp2 & Hu2 & _).
  destruct (flip_canvas_spec cv false true Hav) as (_ & _ & _ & Hp2' & Hu2' & _).
  eexists s1, c1, ch, _, cv, _. split; [exact E|].
  split. { unfold flip_horizontal. rewrite E. reflexivity. }
  split. { unfold flip_horizontal. rewrite E1. reflexivity. }
  split. { unfold flip_vertical. rewrite E. reflexivity. }
  split. { unfold flip_vertical. rewrite E1. reflexivity. }
  cbn [fst snd].
  split. { intros x y. rewrite Hp2, Hp, Hw. f_equal. lia. }
  split. { intros x y. rewrite Hp2', Hp', Hh'. f_equal. lia. }
  done.
Qed.



(** *** Select All, Delete, Paste *)

Lemma commit_without_floating (s : SelectionTool.t) (c : Canvas.t) :
  SelectionTool.floating (SelectionTool._state s) = false ->
  SelectionTool._commit s c = Some c.
Proof.
  intros Hf. unfold SelectionTool._commit.
  destruct (SelectionTool._snippet s); [|done].
  rewrite Hf. by rewrite andb_false_r.
Qed.

(** X22. Select All, Delete, Undo.  On a tool without floating selection
    and a buffer with alpha channel: Select All followed by Delete leaves a
    tool without selection and a buffer painted with the background colour
    (source-over), on which a later commit does nothing; one undo then
    brings back the buffer as it was before Select All. *)
Theorem select_all_delete_undo_restores (s : SelectionTool.t) (c : Canvas.t) :
  SelectionTool.floating (SelectionTool._state s) = false ->
  hasAlphaChannel (Canvas.pixmap c) = true ->
  let pm := Canvas.pixmap c in
  exists s1 c1,
    SelectionTool.select_all s c = Some (s1, c1) /\
    let s2 := (SelectionTool.delete_selection s1 c1).1 in
    let c2 := (SelectionTool.delete_selection s1 c1).2 in
    SelectionTool.has_selection s1 = true /\
    SelectionTool.has_selection s2 = false /\
    (forall x y, in_bounds (pm_width pm) (pm_height pm) x y = true ->
       pixelColor (Canvas.pixmap c2) x y
         = source_over (Canvas.bg_color c) (pixelColor pm x y)) /\
    SelectionTool._commit s2 c2 = Some c2 /\
    Canvas.pixmap (Canvas.undo c2) = pm /\
    Canvas._redo_stack (Canvas.undo c2) = [Canvas.pixmap c2].
Proof.
  intros Hf Ha pm.
  eexists _, _. split.
  { unfold SelectionTool.select_all. rewrite (commit_without_floating s c Hf). reflexivity. }
  cbv zeta. cbn [SelectionTool.delete_selection fst snd].
  split; [reflexivity|]. split; [reflexivity|].
  split.
  { intros x y Hin. unfold pixelColor.
    cbn [Canvas.set_modified Canvas.pixmap Canvas.with_pixmap Canvas._pixmap fillRect
         pm_width pm_height pm_pixel].
    change (Canvas.pixmap (Canvas.save_undo c)) with pm.
    change (Canvas.bg_color (Canvas.save_undo c)) with (Canvas.bg_color c).
    rewrite Hin.
    assert (Hc : rect_contains (pm_rect pm) x y = true).
    { apply in_bounds_inside in Hin as [Hx Hy]. simpl in Hx, Hy.
      unfold rect_contains, pm_rect, QRect_xywh. cbn [x1 x2 y1 y2].
      destruct (Z.leb_spec 0 x); [|lia].
      destruct (Z.leb_spec x (0 + pm_width pm - 1)); [|lia].
      destruct (Z.leb_spec 0 y); [|lia].
      destruct (Z.leb_spec y (0 + pm_height pm - 1)); [|lia]. done. }
    by rewrite Hc. }
  split; [reflexivity|].
  set (c2 := Canvas.set_modified _ true).
  assert (Eu : Canvas._undo_stack c2
               = (if decide (MAX_UNDO <= length (Canvas._undo_stack c))%nat
                  then tail (Canvas._undo_stack c) else Canvas._undo_stack c) ++ [pm]).
  { change (Canvas._undo_stack c2) with (Canvas._undo_stack (Canvas.save_undo c)).
    apply save_undo_stack. }
  rewrite (undo_snoc c2 _ pm Eu).
  destruct (set_modified_set_pixmap
              (Canvas.with_stacks c2
                 (if decide (MAX_UNDO <= length (Canvas._undo_stack c))%nat
                  then tail (Canvas._undo_stack c) else Canvas._undo_stack c)
                 (Canvas._redo_stack c2 ++ [Canvas.pixmap c2])) pm true)
    as (Epm & _ & Er & _).
  rewrite Epm, Er. split; [|reflexivity].
  by rewrite (set_pixmap_alpha _ pm Ha).
Qed.

(** X23. Pasting a pixmap that fits.  On a tool without floating selection,
    pasting a pixmap no larger than the buffer pushes a snapshot and leaves
    the buffer as it is: the pixmap floats as a selection of its own size,
    unrotated, and its rectangle contains the requested centre (or starts at
    the origin when none is given).  Committing that selection, when its
    right and bottom edges lie inside the buffer, writes the pixmap's pixels
    into the rectangle and changes nothing else. *)
Theorem paste_floats_then_commits (s : SelectionTool.t) (c : Canvas.t)
        (pixmap : QPixmap) (center : option QPoint) :
  let pm := Canvas.pixmap c in
  let pw := pm_width pixmap in
  let ph := pm_height pixmap in
  let x0 := match center with Some p => pt_x p - pw / 2 | None => 0 end in
  let y0 := match center with Some p => pt_y p - ph / 2 | None => 0 end in
  SelectionTool.floating (SelectionTool._state s) = false ->
  1 <= pw <= pm_width pm -> 1 <= ph <= pm_height pm ->
  exists s1,
    SelectionTool.paste s c pixmap center = Some (s1, Canvas.save_undo c) /\
    SelectionTool._state s1 = SelectionTool.selected /\
    SelectionTool._rect s1 = QRect_xywh x0 y0 pw ph /\
    SelectionTool._snippet s1 = Some pixmap /\
    SelectionTool._angle s1 = 0%Q /\
    (forall p, center = Some p ->
               rect_contains (SelectionTool._rect s1) (pt_x p) (pt_y p) = true) /\
    (x0 + pw <= pm_width pm -> y0 + ph <= pm_height pm ->
     exists c2,
       SelectionTool._commit s1 (Canvas.save_undo c) = Some c2 /\
       pm_width (Canvas.pixmap c2) = pm_width pm /\
       pm_height (Canvas.pixmap c2) = pm_height pm /\
       forall x y, in_bounds (pm_width pm) (pm_height pm) x y = true ->
         pixelColor (Canvas.pixmap c2) x y =
           if in_bounds pw ph (x - x0) (y - y0) then pm_pixel pixmap (x - x0) (y - y0)
           else pixelColor pm x y).
Proof.
  intros pm pw ph x0 y0 Hf Hw Hh.
  set (s1 := SelectionTool.mk SelectionTool.selected (SelectionTool._start s)
               (QRect_xywh x0 y0 pw ph) (Some pixmap) 0
               (SelectionTool._move_offset s) (SelectionTool._active_handle s)
               (SelectionTool._resize_anchor s) (SelectionTool._drag_start_rect s)
               (SelectionTool._drag_start_angle s) (SelectionTool._drag_start_sel_angle s)).
  exists s1. split.
  { unfold SelectionTool.paste. rewrite (commit_without_floating s c Hf).
    cbn [mbind option_bind].
    change (Canvas.pixmap (Canvas.save_undo c)) with pm. fold pw ph.
    destruct (Z.gtb_spec pw (pm_width pm)); [lia|].
    destruct (Z.gtb_spec ph (pm_height pm)); [lia|].
    cbn [orb]. unfold s1, x0, y0. by destruct center. }
  split; [reflexivity|]. split; [reflexivity|]. split; [reflexivity|].
  split; [reflexivity|].
  split.
  { intros p ->. cbn [s1 SelectionTool._rect]. unfold rect_contains, QRect_xywh, x0, y0.
    cbn [x1 x2 y1 y2].
    assert (Hpw : 0 <= pw / 2 <= pw - 1).
    { split; [apply Z.div_pos; lia|]. apply Z.lt_le_pred, Z.div_lt; lia. }
    assert (Hph : 0 <= ph / 2 <= ph - 1).
    { split; [apply Z.div_pos; lia|]. apply Z.lt_le_pred, Z.div_lt; lia. }
    destruct (Z.leb_spec (pt_x p - pw / 2) (pt_x p)); [|lia].
    destruct (Z.leb_spec (pt_x p) (pt_x p - pw / 2 + pw - 1)); [|lia].
    destruct (Z.leb_spec (pt_y p - ph / 2) (pt_y p)); [|lia].
    destruct (Z.leb_spec (pt_y p) (pt_y p - ph / 2 + ph - 1)); [|lia].
    done. }
  intros Hx Hy.
  assert (Ec : SelectionTool._commit s1 (Canvas.save_undo c)
               = Some (Canvas.with_pixmap (Canvas.save_undo c)
                         (drawPixmap_source (Canvas.pixmap (Canvas.save_undo c))
                            (x1 (SelectionTool._rect s1)) (y1 (SelectionTool._rect s1))
                            pixmap))).
  { apply commit_in_place; try reflexivity;
      cbn [s1 SelectionTool._rect]; rewrite ?rect_xywh_width, ?rect_xywh_height;
      try done; try lia.
    - unfold QRect_xywh. cbn [x2]. change (Canvas.pixmap (Canvas.save_undo c)) with pm. lia.
    - unfold QRect_xywh. cbn [y2]. change (Canvas.pixmap (Canvas.save_undo c)) with pm. lia. }
  eexists. split; [exact Ec|].
  split; [reflexivity|]. split; [reflexivity|].
  intros x y Hin. unfold pixelColor.
  cbn [s1 SelectionTool._rect Canvas.pixmap Canvas.with_pixmap Canvas._pixmap
       drawPixmap_source pm_width pm_height pm_pixel QRect_xywh x1 y1].
  change (Canvas.pixmap (Canvas.save_undo c)) with pm.
  rewrite Hin. reflexivity.
Qed.


End CanvasOpsFacts.

(** ** Trim to content *)

Section TrimFacts.
Import ResizeDialog.

Lemma for_each_app {A S} (f : S -> A -> option S) (l1 l2 : list A) (s : S) :
  for_each (l1 ++ l2) f s = s' ← for_each l1 f s; for_each l2 f s'.
Proof.
  revert s. induction l1 as [|a l1 IH]; intros s; cbn [app for_each]; [done|].
  destruct (f s a); cbn [mbind option_bind]; [apply IH|done].
Qed.

Lemma for_each_nested_pairs {A B C S} (ys : list A) (xs : list B)
      (g : A -> B -> C) (f : S -> C -> option S) : forall s : S,
  for_each ys (fun s y => for_each xs (fun s x => f s (g y x)) s) s
  = for_each (y ← ys; (g y <$> xs)) f s.
Proof.
  assert (Hmap : forall (y : A) (l : list B) (s : S),
             for_each l (fun s x => f s (g y x)) s = for_each (g y <$> l) f s).
  { intros y. induction l as [|b l IHl]; intros s; cbn [fmap list_fmap for_each]; [done|].
    destruct (f s (g y b)); cbn [mbind option_bind]; [apply IHl|done]. }
  induction ys as [|y ys IH]; intros s.
  - done.
  - cbn [for_each mbind list_bind]. rewrite for_each_app, Hmap.
    destruct (for_each (g y <$> xs) f s); cbn [mbind option_bind]; [apply IH|done].
Qed.

Lemma length_convert_bits (pm : QPixmap) :
  0 <= pm_width pm -> 0 <= pm_height pm ->
  Z.of_nat (length (im_bits (convertToFormat_ARGB32 pm)))
  = pm_height pm * (4 * pm_width pm).
Proof.
  intros Hw Hh. unfold convertToFormat_ARGB32. cbn [im_bits].
  rewrite length_fmap, length_seqZ. nia.
Qed.

(** The inner body at a pixel of the image. *)
Lemma trim_pixel_spec (pm : QPixmap) (x y : Z) (bb : Z * Z * Z * Z) :
  0 <= x < pm_width pm -> 0 <= y < pm_height pm ->
  trim_pixel (im_bits (convertToFormat_ARGB32 pm)) (y * (4 * pm_width pm)) y bb x
  = Some (if is_content pm x y then bbox_add bb x y else bb).
Proof.
  intros Hx Hy. unfold trim_pixel.
  set (bits := im_bits (convertToFormat_ARGB32 pm)).
  assert (Hlen : Z.of_nat (length bits) = pm_height pm * (4 * pm_width pm)).
  { apply length_convert_bits; lia. }
  assert (Hg : forall k, 0 <= k < 4 ->
             getitem bits (y * (4 * pm_width pm) + x * 4 + k)
             = Some (match k with
                     | 0 => blue (pm_pixel pm x y)
                     | 1 => green (pm_pixel pm x y)
                     | 2 => red (pm_pixel pm x y)
                     | _ => alpha (pm_pixel pm x y)
                     end)).
  { intros k Hk. rewrite getitem_in_range by (rewrite Hlen; nia).
    f_equal. replace (y * (4 * pm_width pm) + x * 4 + k)
      with (y * (4 * pm_width pm) + 4 * x + k) by lia.
    by apply byte_of_convert. }
  pose proof (Hg 0 ltac:(lia)) as H0. rewrite Z.add_0_r in H0.
  rewrite H0, (Hg 1), (Hg 2), (Hg 3) by lia. cbn [mbind option_bind].
  unfold is_content, bbox_add. cbv zeta.
  destruct (alpha (pm_pixel pm x y) =? 0); cbn [negb andb]; [done|].
  destruct ((red (pm_pixel pm x y) =? 255) && (green (pm_pixel pm x y) =? 255)
            && (blue (pm_pixel pm x y) =? 255)); cbn [negb]; [done|].
  by destruct bb as [[[a b] c] d].
Qed.

(** The pixels in the order of the two loops, as (y, x). *)
Lemma elem_of_scan_order (w h : Z) (p : Z * Z) :
  p ∈ (y ← py_range 0 h 1; (pair y <$> py_range 0 w 1)) <->
  0 <= p.1 < h /\ 0 <= p.2 < w.
Proof.
  destruct p as [py px]. cbn [fst snd]. rewrite list_elem_of_bind. split.
  - intros (y & Hp & Hy). apply list_elem_of_fmap in Hp as (x & [= -> ->] & Hx).
    apply elem_of_py_range in Hx as (k & ? & -> & ?); [|lia].
    apply elem_of_py_range in Hy as (k' & ? & -> & ?); [|lia]. lia.
  - intros [Hy Hx]. exists py. split.
    + apply list_elem_of_fmap. exists px. split; [done|].
      apply elem_of_py_range; [lia|]. exists px. lia.
    + apply elem_of_py_range; [lia|]. exists py. lia.
Qed.

(** The scan is a fold of [bbox_add] over the content pixels. *)
Lemma trim_fold (pm : QPixmap) (L : list (Z * Z)) :
  (forall p, p ∈ L -> 0 <= p.1 < pm_height pm /\ 0 <= p.2 < pm_width pm) ->
  forall bb,
    for_each L (fun bb p =>
                  trim_pixel (im_bits (convertToFormat_ARGB32 pm))
                             (p.1 * (4 * pm_width pm)) p.1 bb p.2) bb
    = Some (foldl (fun bb p => if is_content pm p.2 p.1 then bbox_add bb p.2 p.1 else bb)
                  bb L).
Proof.
  induction L as [|p L IH]; intros HL bb; [done|].
  cbn [for_each foldl].
  destruct (HL p) as [Hy Hx]; [by left|].
  rewrite (trim_pixel_spec pm p.2 p.1 bb Hx Hy). cbn [mbind option_bind].
  apply IH. intros q Hq. apply HL. by right.
Qed.

(** What the fold knows after the pixels of [L]. *)
Lemma bbox_fold_spec (pm : QPixmap) (w h : Z) (L : list (Z * Z)) :
  (forall p, p ∈ L -> 0 <= p.1 < h /\ 0 <= p.2 < w) ->
  let bb := foldl (fun bb p => if is_content pm p.2 p.1 then bbox_add bb p.2 p.1 else bb)
                  (w, h, -1, -1) L in
  ((forall p, p ∈ L -> is_content pm p.2 p.1 = false) /\ bb = (w, h, -1, -1)) \/
  (exists min_x min_y max_x max_y,
     bb = (min_x, min_y, max_x, max_y) /\ 0 <= max_x /\
     (forall p, p ∈ L -> is_content pm p.2 p.1 = true ->
                min_x <= p.2 <= max_x /\ min_y <= p.1 <= max_y) /\
     (exists p, p ∈ L /\ is_content pm p.2 p.1 = true /\ p.2 = min_x) /\
     (exists p, p ∈ L /\ is_content pm p.2 p.1 = true /\ p.2 = max_x) /\
     (exists p, p ∈ L /\ is_content pm p.2 p.1 = true /\ p.1 = min_y) /\
     (exists p, p ∈ L /\ is_content pm p.2 p.1 = true /\ p.1 = max_y)).
Proof.
  induction L as [|q L IH] using rev_ind; intros HL bb.
  { left. split; [|done]. intros p Hp. by apply elem_of_nil in Hp. }
  subst bb. rewrite foldl_app. cbn [foldl].
  assert (HL' : forall p, p ∈ L -> 0 <= p.1 < h /\ 0 <= p.2 < w).
  { intros p Hp. apply HL. apply elem_of_app. by left. }
  assert (Hq : 0 <= q.1 < h /\ 0 <= q.2 < w).
  { apply HL. apply elem_of_app. right. by apply list_elem_of_singleton. }
  specialize (IH HL'). cbv zeta in IH.
  set (bb := foldl _ (w, h, -1, -1) L) in *.
  destruct (is_content pm q.2 q.1) eqn:Ec.
  - right. destruct IH as [[Hnone ->]|(a & b & c' & d & -> & Hc & Hs & H1 & H2 & H3 & H4)].
    + exists q.2, q.1, q.2, q.1. unfold bbox_add.
      destruct (Z.ltb_spec q.2 w); [|lia]. destruct (Z.ltb_spec q.1 h); [|lia].
      destruct (Z.gtb_spec q.2 (-1)); [|lia]. destruct (Z.gtb_spec q.1 (-1)); [|lia].
      split; [done|]. split; [lia|].
      assert (Hqin : q ∈ L ++ [q]) by (apply elem_of_app; right; by apply list_elem_of_singleton).
      split.
      { intros p Hp Hcp. apply elem_of_app in Hp as [Hp|Hp].
        - rewrite (Hnone p Hp) in Hcp. done.
        - apply list_elem_of_singleton in Hp as ->. lia. }
      repeat split; by exists q.
    + unfold bbox_add.
      assert (Hqin : q ∈ L ++ [q]) by (apply elem_of_app; right; by apply list_elem_of_singleton).
      assert (Hup : forall P : Z * Z -> Prop,
                 (exists p, p ∈ L /\ is_content pm p.2 p.1 = true /\ P p) ->
                 exists p, p ∈ L ++ [q] /\ is_content pm p.2 p.1 = true /\ P p).
      { intros P (p & Hp & Hcp & HP). exists p. split; [|done]. apply elem_of_app. by left. }
      eexists _, _, _, _. split; [reflexivity|].
      split. { destruct (Z.gtb_spec q.2 c'); lia. }
      split.
      { intros p Hp Hcp. apply elem_of_app in Hp as [Hp|Hp].
        - specialize (Hs p Hp Hcp).
          destruct (Z.ltb_spec q.2 a), (Z.ltb_spec q.1 b),
                   (Z.gtb_spec q.2 c'), (Z.gtb_spec q.1 d); lia.
        - apply list_elem_of_singleton in Hp as ->.
          destruct (Z.ltb_spec q.2 a), (Z.ltb_spec q.1 b),
                   (Z.gtb_spec q.2 c'), (Z.gtb_spec q.1 d); lia. }
      split. { destruct (Z.ltb_spec q.2 a); [by exists q|by apply Hup]. }
      split. { destruct (Z.gtb_spec q.2 c'); [by exists q|by apply Hup]. }
      split. { destruct (Z.ltb_spec q.1 b); [by exists q|by apply Hup]. }
      destruct (Z.gtb_spec q.1 d); [by exists q|by apply Hup].
  - destruct IH as [[Hnone Hbb]|(a & b & c' & d & Hbb & Hc & Hs & H1 & H2 & H3 & H4)].
    + left. split; [|done]. intros p Hp. apply elem_of_app in Hp as [Hp|Hp]; [by apply Hnone|].
      by apply list_elem_of_singleton in Hp as ->.
    + right. exists a, b, c', d. split; [done|]. split; [done|].
      assert (Hup : forall P : Z * Z -> Prop,
                 (exists p, p ∈ L /\ is_content pm p.2 p.1 = true /\ P p) ->
                 exists p, p ∈ L ++ [q] /\ is_content pm p.2 p.1 = true /\ P p).
      { intros P (p & Hp & Hcp & HP). exists p. split; [|done]. apply elem_of_app. by left. }
      split.
      { intros p Hp Hcp. apply elem_of_app in Hp as [Hp|Hp]; [by apply Hs|].
        apply list_elem_of_singleton in Hp as ->. congruence. }
      repeat split; by apply Hup.
Qed.

(** [_on_trim] on a dialog that holds a pixmap. *)
Lemma on_trim_spec (d : ResizeDialog.t) (pm : QPixmap) :
  _pixmap d = Some pm ->
  let w := pm_width pm in
  let h := pm_height pm in
  exists d',
    _on_trim d = Some d' /\
    (((forall x y, 0 <= x < w -> 0 <= y < h -> is_content pm x y = false) /\ d' = d) \/
     (exists min_x min_y max_x max_y,
        d' = mk (Some pm) (spin_setValue (max_x - min_x + 1))
                (spin_setValue (max_y - min_y + 1)) (Some (min_x, min_y)) /\
        (forall x y, 0 <= x < w -> 0 <= y < h -> is_content pm x y = true ->
                     min_x <= x <= max_x /\ min_y <= y <= max_y) /\
        (exists y, 0 <= min_x < w /\ 0 <= y < h /\ is_content pm min_x y = true) /\
        (exists y, 0 <= max_x < w /\ 0 <= y < h /\ is_content pm max_x y = true) /\
        (exists x, 0 <= x < w /\ 0 <= min_y < h /\ is_content pm x min_y = true) /\
        (exists x, 0 <= x < w /\ 0 <= max_y < h /\ is_content pm x max_y = true))).
Proof.
  intros E w h.
  set (L := y ← py_range 0 h 1; (pair y <$> py_range 0 w 1)).
  assert (HL : forall p, p ∈ L <-> 0 <= p.1 < h /\ 0 <= p.2 < w).
  { intros p. apply elem_of_scan_order. }
  assert (Hscan : trim_scan (convertToFormat_ARGB32 (toImage pm))
                  = Some (foldl (fun bb p => if is_content pm p.2 p.1
                                             then bbox_add bb p.2 p.1 else bb)
                                (w, h, -1, -1) L)).
  { unfold trim_scan, toImage.
    cbn [im_width im_height im_bytesPerLine convertToFormat_ARGB32].
    fold w h.
    rewrite <- (trim_fold pm L (fun p Hp => proj1 (HL p) Hp)).
    apply (for_each_nested_pairs (py_range 0 h 1) (py_range 0 w 1) pair
             (fun bb p => trim_pixel (im_bits (convertToFormat_ARGB32 pm))
                            (p.1 * (4 * pm_width pm)) p.1 bb p.2)). }
  unfold _on_trim. rewrite E, Hscan. cbn [mbind option_bind].
  destruct (bbox_fold_spec pm w h L (fun p Hp => proj1 (HL p) Hp))
    as [[Hnone ->]|(a & b & c' & e & -> & Hc & Hs & H1 & H2 & H3 & H4)].
  - exists d. change (-1 <? 0) with true. cbv iota. split; [done|].
    left. split; [|done].
    intros x y Hx Hy. apply (Hnone (y, x)). apply HL. cbn [fst snd]. lia.
  - destruct (Z.ltb_spec c' 0); [lia|].
    eexists. split; [reflexivity|]. right.
    exists a, b, c', e. split; [done|].
    split. { intros x y Hx Hy Hcn. apply (Hs (y, x)); [|done]. apply HL. cbn [fst snd]. lia. }
    destruct H1 as (p1 & Hp1 & Hc1 & <-). destruct H2 as (p2 & Hp2 & Hc2 & <-).
    destruct H3 as (p3 & Hp3 & Hc3 & <-). destruct H4 as (p4 & Hp4 & Hc4 & <-).
    apply HL in Hp1, Hp2, Hp3, Hp4.
    split; [exists p1.1; split; [lia|]; split; [lia|done]|].
    split; [exists p2.1; split; [lia|]; split; [lia|done]|].
    split; [exists p3.2; split; [lia|]; split; [lia|done]|].
    exists p4.2; split; [lia|]; split; [lia|done].
Qed.


End TrimFacts.

Section ImageResizeFacts.
Context `{QtRaster}.
Import ResizeDialog.

(** X26. Trim to Content, then OK.  With nothing floating, on a buffer of at
    most 10000 x 10000 pixels that holds a content pixel: pressing Trim in
    the resize dialog and accepting it pushes the buffer on the undo stack
    and replaces it by a buffer of the size of the bounding box of the
    content, in which every content pixel of the old buffer is found again,
    moved by the trim offset and drawn over transparent. *)
Theorem trim_then_accept_keeps_content (s : SelectionTool.t) (c : Canvas.t) (cx cy : Z) :
  let pm := Canvas.pixmap c in
  SelectionTool.has_selection s = false ->
  pm_width pm <= 10000 -> pm_height pm <= 10000 ->
  0 <= cx < pm_width pm -> 0 <= cy < pm_height pm -> is_content pm cx cy = true ->
  exists d1 c' min_x min_y,
    _on_trim (PaintApp.resize_dialog c) = Some d1 /\
    get_trim_offset d1 = Some (min_x, min_y) /\
    PaintApp._image_resize_accepted s c d1 = Some (s, c') /\
    pm_width (Canvas.pixmap c') = w_spin d1 /\
    pm_height (Canvas.pixmap c') = h_spin d1 /\
    1 <= w_spin d1 <= pm_width pm /\ 1 <= h_spin d1 <= pm_height pm /\
    Canvas._undo_stack c' = Canvas._undo_stack (Canvas.save_undo c) /\
    Canvas._redo_stack c' = [] /\
    (forall x y, 0 <= x < pm_width pm -> 0 <= y < pm_height pm ->
       is_content pm x y = true ->
       in_bounds (w_spin d1) (h_spin d1) (x - min_x) (y - min_y) = true /\
       pixelColor (Canvas.pixmap c') (x - min_x) (y - min_y)
         = source_over (pm_pixel pm x y) Qt_transparent).
Proof.
  intros pm Hns Hw Hh Hcx Hcy Hcc.
  destruct (on_trim_spec (PaintApp.resize_dialog c) pm eq_refl)
    as (d1 & E & [[Hnone _]|(a & b & c' & e & -> & Hs & H1 & H2 & H3 & H4)]).
  { fold pm in Hnone. rewrite (Hnone cx cy Hcx Hcy) in Hcc. done. }
  fold pm in Hs, H1, H2, H3, H4.
  destruct H1 as (y1 & Ha & Hy1 & Hc1). destruct H2 as (y2 & Hc' & Hy2 & Hc2).
  destruct H3 as (x3 & Hx3 & Hb & Hc3). destruct H4 as (x4 & Hx4 & He & Hc4).
  pose proof (Hs _ _ Hc' Hy2 Hc2) as [Hac _].
  pose proof (Hs _ _ Hx4 He Hc4) as [_ Hbe].
  assert (Ew : spin_setValue (c' - a + 1) = c' - a + 1) by (unfold spin_setValue; lia).
  assert (Eh : spin_setValue (e - b + 1) = e - b + 1) by (unfold spin_setValue; lia).
  set (new_pm := PaintApp.drawPixmap_over_at
                   (QPixmap_filled (c' - a + 1) (e - b + 1) Qt_transparent)
                   (- a) (- b) pm).
  assert (Hal : hasAlphaChannel new_pm = true).
  { cbn [new_pm hasAlphaChannel PaintApp.drawPixmap_over_at QPixmap_filled pm_alpha].
    by rewrite orb_true_r. }
  exists (mk (Some pm) (spin_setValue (c' - a + 1)) (spin_setValue (e - b + 1)) (Some (a, b))),
         (Canvas.set_modified (Canvas.with_pixmap (Canvas.save_undo c) new_pm) true), a, b.
  split; [exact E|]. split; [reflexivity|].
  split.
  { unfold PaintApp._image_resize_accepted, get_size, get_trim_offset.
    cbn [w_spin h_spin _trim_offset]. rewrite Ew, Eh.
    unfold CanvasOps.commit_selection. rewrite Hns. cbn [mbind option_bind fst snd].
    change (Canvas.pixmap (Canvas.save_undo c)) with pm. fold new_pm.
    by rewrite (set_pixmap_alpha _ new_pm Hal). }
  cbn [w_spin h_spin Canvas.set_modified Canvas.with_pixmap Canvas.pixmap Canvas._pixmap
       Canvas._undo_stack Canvas._redo_stack].
  rewrite Ew, Eh.
  split; [reflexivity|]. split; [reflexivity|].
  split; [lia|]. split; [lia|]. split; [reflexivity|]. split; [reflexivity|].
  intros x y Hx Hy Hc.
  destruct (Hs x y Hx Hy Hc) as [Hxr Hyr].
  assert (Hin : in_bounds (c' - a + 1) (e - b + 1) (x - a) (y - b) = true).
  { apply inside_in_bounds. split; cbn [fst snd]; lia. }
  split; [exact Hin|].
  unfold pixelColor.
  cbn [new_pm PaintApp.drawPixmap_over_at QPixmap_filled pm_width pm_height pm_pixel].
  rewrite Hin.
  replace (x - a - - a) with x by lia. replace (y - b - - b) with y by lia.
  assert (Hin' : in_bounds (pm_width pm) (pm_height pm) x y = true).
  { apply inside_in_bounds. split; cbn [fst snd]; lia. }
  by rewrite Hin'.
Qed.

End ImageResizeFacts.

(** ** Clipboard *)

Section ClipboardFacts.
Context `{QtRaster}.
Import SelectionTool.

(** X27. Cut, then paste.  Cutting an unrotated selection puts on the
    clipboard a pixmap of the size at which the selection is displayed (the
    snippet itself when the selection was not resized) and resets the tool;
    the canvas keeps its buffer and its log.  Pasting that pixmap then never
    fails and floats it as a selection of that same size. *)
Theorem cut_then_paste_keeps_size (s : t) (c : Canvas.t) (snippet : QPixmap)
        (clipboard : option QPixmap) (center : option QPoint) :
  _snippet s = Some snippet -> isNull snippet = false ->
  Qlt_bool (Qabs (_angle s)) (1 # 100) = true ->
  exists pm s2 c2,
    copy_selection s clipboard = Some (Some pm) /\
    cut_selection s c clipboard = Some (_reset, Canvas.set_modified c true, Some pm) /\
    (pm_width pm, pm_height pm) = commit_size s /\
    (commit_size s = (pm_width snippet, pm_height snippet) -> pm = snippet) /\
    paste _reset (Canvas.set_modified c true) pm center = Some (s2, c2) /\
    _state s2 = selected /\ _snippet s2 = Some pm /\ _angle s2 = 0%Q /\
    (rect_width (_rect s2), rect_height (_rect s2)) = commit_size s.
Proof.
  intros Hsn Hnn Ha.
  assert (Hg : exists pm, _get_transformed_snippet s = Some pm /\
                 (pm_width pm, pm_height pm) = commit_size s /\
                 (commit_size s = (pm_width snippet, pm_height snippet) -> pm = snippet)).
  { unfold _get_transformed_snippet. destruct (commit_size s) as [w h] eqn:Ecs.
    rewrite Hsn, Ha. cbn [mbind option_bind].
    destruct (Z.eqb_spec w (pm_width snippet)) as [Ew|Ew];
      destruct (Z.eqb_spec h (pm_height snippet)) as [Eh|Eh]; cbn [andb].
    - exists snippet. split; [done|]. split; [by rewrite Ew, Eh|done].
    - eexists. split; [reflexivity|]. split; [done|]. intros [= _ E]. done.
    - eexists. split; [reflexivity|]. split; [done|]. intros [= E _]. done.
    - eexists. split; [reflexivity|]. split; [done|]. intros [= E _]. done. }
  destruct Hg as (pm & Eg & Hsz & Hsame).
  assert (Ecopy : copy_selection s clipboard = Some (Some pm)).
  { unfold copy_selection. rewrite Hsn, Hnn. cbn [negb]. by rewrite Eg. }
  assert (Hp : exists s2 c2,
             paste _reset (Canvas.set_modified c true) pm center = Some (s2, c2) /\
             _state s2 = selected /\ _snippet s2 = Some pm /\ _angle s2 = 0%Q /\
             _rect s2 = QRect_xywh (x1 (_rect s2)) (y1 (_rect s2)) (pm_width pm) (pm_height pm)).
  { unfold paste. cbn [_commit _reset _snippet mbind option_bind].
    destruct (_ || _).
    - eexists _, _. split; [reflexivity|]. done.
    - destruct center; eexists _, _; (split; [reflexivity|]); done. }
  destruct Hp as (s2 & c2 & Ep & Hst & Hs2 & Ha2 & Hr).
  exists pm, s2, c2. split; [exact Ecopy|].
  split. { unfold cut_selection. by rewrite Ecopy. }
  split; [exact Hsz|]. split; [exact Hsame|]. split; [exact Ep|].
  split; [exact Hst|]. split; [exact Hs2|]. split; [exact Ha2|].
  rewrite Hr, rect_xywh_width, rect_xywh_height. exact Hsz.
Qed.

End ClipboardFacts.

(** ** Cursors *)

Section CursorFacts.
Import SelectionTool.

Local Open Scope Q_scope.

Lemma Qfloor_unique (q : Q) (z : Z) :
  inject_Z z <= q -> q < inject_Z (z + 1) -> Qfloor q = z.
Proof.
  intros Hlo Hhi.
  assert (H1 : (z <= Qfloor q)%Z).
  { rewrite <- (Qfloor_Z z). by apply Qfloor_resp_le. }
  assert (H2 : (Qfloor q < z + 1)%Z).
  { rewrite Zlt_Qlt. eapply Qle_lt_trans; [apply Qfloor_le|exact Hhi]. }
  lia.
Qed.

Lemma Qfloor_add_Z (q : Q) (n : Z) : Qfloor (q + inject_Z n) = (Qfloor q + n)%Z.
Proof.
  apply Qfloor_unique.
  - rewrite inject_Z_plus. apply Qplus_le_compat; [apply Qfloor_le|apply Qle_refl].
  - replace (Qfloor q + n + 1)%Z with ((Qfloor q + 1) + n)%Z by lia.
    rewrite inject_Z_plus. apply Qplus_lt_le_compat; [apply Qlt_floor|apply Qle_refl].
Qed.

Lemma py_mod_360_range (a : Q) : 0 <= py_mod a 360 /\ py_mod a 360 < 360.
Proof.
  unfold py_mod. set (m := Qfloor (a / 360)).
  assert (Hlo : inject_Z m <= a / 360) by apply Qfloor_le.
  assert (Hhi : a / 360 < inject_Z (m + 1)) by apply Qlt_floor.
  assert (Ea : a == (a / 360) * 360) by (field).
  split.
  - assert (H1 : inject_Z m * 360 <= (a / 360) * 360).
    { apply Qmult_le_compat_r; [exact Hlo|done]. }
    rewrite <- Ea in H1.
    apply Qle_minus_iff in H1.
    setoid_replace (a - 360 * inject_Z m) with (a + - (inject_Z m * 360))
      using relation Qeq by ring.
    exact H1.
  - assert (H1 : (a / 360) * 360 < inject_Z (m + 1) * 360).
    { apply Qmult_lt_compat_r; [done|exact Hhi]. }
    rewrite <- Ea in H1. rewrite inject_Z_plus in H1.
    apply Qlt_minus_iff in H1. apply Qlt_minus_iff.
    setoid_replace (360 + - (a - 360 * inject_Z m))
      with ((inject_Z m + inject_Z 1) * 360 + - a) using relation Qeq by ring.
    exact H1.
Qed.

(** The index into the cursor table, without the reduction modulo 360. *)
Lemma cursor_index (x : Q) :
  (py_int ((py_mod x 360 + (45 # 2)) / 45) mod 8)%Z
  = (Qfloor ((x + (45 # 2)) / 45) mod 8)%Z.
Proof.
  destruct (py_mod_360_range x) as [Hlo Hhi].
  assert (Hnn : 0 <= (py_mod x 360 + (45 # 2)) / 45).
  { apply Qle_shift_div_l; [done|]. rewrite Qmult_0_l.
    apply (Qle_trans _ (0 + 0)); [done|]. apply Qplus_le_compat; [exact Hlo|done]. }
  unfold py_int. rewrite (proj2 (Qle_bool_iff _ _) Hnn).
  assert (E : (py_mod x 360 + (45 # 2)) / 45
              == (x + (45 # 2)) / 45 + inject_Z (- (8 * Qfloor (x / 360)))).
  { unfold py_mod. rewrite inject_Z_opp, inject_Z_mult. field. }
  rewrite E, Qfloor_add_Z.
  replace (Qfloor ((x + (45 # 2)) / 45) + - (8 * Qfloor (x / 360)))%Z
    with (Qfloor ((x + (45 # 2)) / 45) + (- Qfloor (x / 360)) * 8)%Z by lia.
  apply Z.mod_add. lia.
Qed.

Lemma cursor_table_period (k : Z) :
  exists cur,
    list_getitem cursor_table (k mod 8)%Z = Some cur /\
    list_getitem cursor_table ((k + 4) mod 8)%Z = Some cur /\
    list_getitem cursor_table ((k - 4) mod 8)%Z = Some cur.
Proof.
  assert (Hj : (0 <= k mod 8 < 8)%Z) by (apply Z.mod_pos_bound; lia).
  assert (E1 : ((k + 4) mod 8 = (k mod 8 + 4) mod 8)%Z).
  { symmetry. apply Z.add_mod_idemp_l. lia. }
  assert (E2 : ((k - 4) mod 8 = (k mod 8 + 4) mod 8)%Z).
  { replace (k - 4)%Z with (k + 4 + (-1) * 8)%Z by lia.
    rewrite Z.mod_add by lia. exact E1. }
  rewrite E1, E2.
  set (j := (k mod 8)%Z) in *. clearbody j.
  assert (Hc : (j = 0 \/ j = 1 \/ j = 2 \/ j = 3 \/ j = 4 \/ j = 5 \/ j = 6 \/ j = 7)%Z)
    by lia.
  destruct Hc as [->|[->|[->|[->|[->|[->|[->| ->]]]]]]]; eexists; by repeat split.
Qed.

Lemma cursor_for_handle_index (s : t) (h : handle) (base : Q) :
  h <> H_rotate ->
  base = match h with
         | H_n => 0 | H_ne => 45 | H_e => 90 | H_se => 135
         | H_s => 180 | H_sw => 225 | H_w => 270 | _ => 315
         end ->
  _cursor_for_handle s h
  = list_getitem cursor_table (Qfloor ((base + _angle s + (45 # 2)) / 45) mod 8)%Z.
Proof.
  intros Hr ->.
  assert (Hgen : forall b : Q,
    list_getitem cursor_table
      (py_int (((if Qlt_bool (py_mod (b + _angle s) 360) 0
                 then py_mod (b + _angle s) 360 + 360
                 else py_mod (b + _angle s) 360) + (45 # 2)) / 45) mod 8)%Z
    = list_getitem cursor_table (Qfloor ((b + _angle s + (45 # 2)) / 45) mod 8)%Z).
  { intros b. destruct (py_mod_360_range (b + _angle s)) as [Hlo _].
    unfold Qlt_bool. rewrite (proj2 (Qle_bool_iff _ _) Hlo). cbn [negb].
    by rewrite cursor_index. }
  destruct h; try done; apply Hgen.
Qed.


Lemma cursor_for_handle_returns (s : t) (h : handle) :
  exists cur, _cursor_for_handle s h = Some cur.
Proof.
  destruct (decide (h = H_rotate)) as [->|Hr]; [by eexists|].
  rewrite (cursor_for_handle_index s h _ Hr eq_refl).
  destruct (cursor_table_period
              (Qfloor ((match h with
                        | H_n => 0 | H_ne => 45 | H_e => 90 | H_se => 135
                        | H_s => 180 | H_sw => 225 | H_w => 270 | _ => 315
                        end + _angle s + (45 # 2)) / 45)))
    as (cur & E & _).
  by exists cur.
Qed.

(** X29. The hover cursor never raises.  For a tool whose state-specific
    attributes are set and a canvas whose zoom is not 0, [cursor_at] returns
    a cursor at every position: the pointing hand while rotating, the cross
    when idle or selecting, and otherwise the cursor of the handle under the
    pointer, the move cursor inside the selection, or the cross. *)
Theorem cursor_at_never_raises `{QtRaster} (s : t) (c : Canvas.t) (pos : QPoint) :
  Qeq_bool (Canvas.zoom c) 0 = false ->
  gesture_ready s ->
  exists cur,
    cursor_at s c pos = Some cur /\
    (_state s = rotating -> cur = PointingHandCursor) /\
    (_state s = idle \/ _state s = selecting -> cur = CrossCursor) /\
    (_state s = selected \/ _state s = moving ->
     forall h, _hit_handle s c pos = Some (Some h) -> _cursor_for_handle s h = Some cur) /\
    (_state s = selected \/ _state s = moving ->
     _hit_handle s c pos = Some None ->
     cur = if _point_in_selection s pos then SizeAllCursor else CrossCursor).
Proof.
  intros Hz Hr. unfold cursor_at.
  assert (Hsel : _state s = selected \/ _state s = moving ->
    exists cur,
      (handle ← _hit_handle s c pos;
       match handle with
       | Some handle => _cursor_for_handle s handle
       | None => if _point_in_selection s pos then Some SizeAllCursor else Some CrossCursor
       end) = Some cur /\
      (forall h, _hit_handle s c pos = Some (Some h) -> _cursor_for_handle s h = Some cur) /\
      (_hit_handle s c pos = Some None ->
       cur = if _point_in_selection s pos then SizeAllCursor else CrossCursor)).
  { intros Hs.
    destruct (_hit_handle s c pos) as [[h|]|] eqn:Eh.
    - destruct (cursor_for_handle_returns s h) as [cur Ec]. exists cur.
      cbn [mbind option_bind]. split; [exact Ec|]. split; [|done].
      intros h' [= <-]. exact Ec.
    - cbn [mbind option_bind]. destruct (_point_in_selection s pos); eexists;
        (split; [reflexivity|]); split; done.
    - unfold _hit_handle in Eh. rewrite Hz in Eh.
      destruct Hs as [Hs|Hs]; rewrite Hs in Eh; done. }
  unfold gesture_ready in Hr.
  destruct (_state s) eqn:Es.
  - exists CrossCursor. split; [done|]. split; [done|]. split; [done|].
    split; intros [?|?]; done.
  - exists CrossCursor. split; [done|]. split; [done|]. split; [done|].
    split; intros [?|?]; done.
  - destruct (Hsel (or_introl eq_refl)) as (cur & E & H1 & H2).
    exists cur. split; [exact E|]. split; [done|].
    split; [intros [?|?]; done|]. split; intros _; [exact H1|exact H2].
  - destruct (Hsel (or_intror eq_refl)) as (cur & E & H1 & H2).
    exists cur. split; [exact E|]. split; [done|].
    split; [intros [?|?]; done|]. split; intros _; [exact H1|exact H2].
  - destruct Hr as (_ & [h Eh] & _). rewrite Eh. cbn [mbind option_bind].
    destruct (cursor_for_handle_returns s h) as [cur Ec]. exists cur.
    split; [exact Ec|]. split; [done|]. split; [intros [?|?]; done|].
    split; intros [?|?]; done.
  - exists PointingHandCursor. split; [done|]. split; [done|].
    split; [intros [?|?]; done|]. split; intros [?|?]; done.
Qed.

End CursorFacts.

(** * Concrete runs

    The statements above at explicit inputs, with [Qt_axis] standing for
    Qt. *)

Section ConcreteRuns.
#[local] Existing Instance Qt_axis.

Lemma undo_then_redo_restores_buffer_witness :
  let c := Canvas.run (H := Qt_axis) (Canvas.init 2 2) [Canvas.OpSaveUndo] in
  Canvas._undo_stack c <> [] /\
  Canvas.pixmap (Canvas.redo (H := Qt_axis) (Canvas.undo (H := Qt_axis) c))
    = Canvas.pixmap c.
Proof.
  pose proof (undo_then_redo_restores_buffer (H := Qt_axis) 2 2 [Canvas.OpSaveUndo]) as T.
  simpl in T. destruct T as [T _].
  assert (Hne : Canvas._undo_stack
                  (Canvas.run (H := Qt_axis) (Canvas.init 2 2) [Canvas.OpSaveUndo]) <> [])
    by (vm_compute; discriminate).
  split; [exact Hne | exact (proj1 (T Hne))].
Defined.


Lemma out_of_bounds_seed_is_ignored_witness :
  let c := Canvas.init (H := Qt_axis) 2 2 in
  let event := mkMouseEvent (mkQPoint 2 0) LeftButton true in
  FillTool.mouse_press (H := Qt_axis) c event = Some c /\
  PickerTool.mouse_press c event = c.
Proof.
  assert (Ho : out_of_bounds (Canvas.pixmap (Canvas.init (H := Qt_axis) 2 2))
                             (mkQPoint 2 0)).
  { unfold out_of_bounds. simpl. lia. }
  pose proof (out_of_bounds_seed_is_ignored (H := Qt_axis) (Canvas.init 2 2)
                (mkMouseEvent (mkQPoint 2 0) LeftButton true) Ho) as T.
  split; [exact (proj1 T) | exact (proj2 (proj2 (proj2 T)))].
Defined.

Lemma degenerate_drag_still_logs_witness :
  let c := Canvas.init 4 4 in
  let press := mkMouseEvent (mkQPoint 1 1) LeftButton false in
  let release := mkMouseEvent (mkQPoint 1 3) LeftButton false in
  exists c', drag SelectionTool._reset c press [] release
               = Some (SelectionTool._reset, c') /\
             Canvas.pixmap c' = Canvas.pixmap c /\
             length (Canvas._undo_stack c') = 1%nat.
Proof.
  destruct (degenerate_drag_still_logs SelectionTool._reset (Canvas.init 4 4)
              (mkMouseEvent (mkQPoint 1 1) LeftButton false) []
              (mkMouseEvent (mkQPoint 1 3) LeftButton false))
    as (c' & E & _ & Hp & Hu & _).
  - reflexivity.
  - reflexivity.
  - left. vm_compute. discriminate.
  - exists c'. split; [exact E|]. split; [exact Hp|]. by rewrite Hu.
Defined.

Lemma select_then_commit_round_trip_witness :
  let c := Canvas.init 4 4 in
  let press := mkMouseEvent (mkQPoint 1 1) LeftButton false in
  let release := mkMouseEvent (mkQPoint 2 3) LeftButton false in
  exists s' c1 c2,
    drag SelectionTool._reset c press [] release = Some (s', c1) /\
    SelectionTool._commit s' c1 = Some c2 /\
    pm_pixel (Canvas.pixmap c2) 2 2 = pm_pixel (Canvas.pixmap c) 2 2.
Proof.
  pose proof (select_then_commit_round_trip SelectionTool._reset (Canvas.init 4 4)
                (mkMouseEvent (mkQPoint 1 1) LeftButton false) []
                (mkMouseEvent (mkQPoint 2 3) LeftButton false)) as T.
  cbv zeta in T.
  assert (H1 : SelectionTool.floating (SelectionTool._state SelectionTool._reset) = false)
    by reflexivity.
  assert (H2 : ev_button (mkMouseEvent (mkQPoint 1 1) LeftButton false) = LeftButton)
    by reflexivity.
  specialize (T H1 H2).
  change (normalized
            (QRect_of_points (ev_pos (mkMouseEvent (mkQPoint 1 1) LeftButton false))
                             (ev_pos (mkMouseEvent (mkQPoint 2 3) LeftButton false))))
    with (mkQRect 1 1 2 3) in T.
  change (pm_width (Canvas.pixmap (Canvas.init 4 4))) with 4 in T.
  change (pm_height (Canvas.pixmap (Canvas.init 4 4))) with 4 in T.
  assert (H3 : 1 < rect_width (mkQRect 1 1 2 3)) by (unfold rect_width; simpl; lia).
  assert (H4 : 1 < rect_height (mkQRect 1 1 2 3)) by (unfold rect_height; simpl; lia).
  assert (H5 : 0 <= x1 (mkQRect 1 1 2 3)) by (simpl; lia).
  assert (H6 : 0 <= y1 (mkQRect 1 1 2 3)) by (simpl; lia).
  assert (H7 : x2 (mkQRect 1 1 2 3) < 4) by (simpl; lia).
  assert (H8 : y2 (mkQRect 1 1 2 3) < 4) by (simpl; lia).
  destruct (T H3 H4 H5 H6 H7 H8)
    as (s' & c1 & c2 & E & _ & _ & _ & _ & _ & _ & Ec & _ & _ & Hpx).
  exists s', c1, c2. split; [exact E|]. split; [exact Ec|].
  apply Hpx. reflexivity.
Defined.

(** A 2 x 2 selection at (10, 10), a press next to its east handle and a
    move 20 pixels east of the west edge: the resize leaves height 2, below
    the floor of 4 that is applied to the changed dimension only. *)
Lemma resize_floor_counterexample :
  let c := Canvas.init 100 100 in
  let ev x y := mkMouseEvent (mkQPoint x y) LeftButton false in
  match drag SelectionTool._reset c (ev 10 10) [] (ev 11 11) with
  | Some (s, c0) =>
      SelectionTool._rect s = QRect_xywh 10 10 2 2 /\
      match SelectionTool.mouse_press s c0 (ev 12 18) with
      | Some (s1, _) =>
          SelectionTool._state s1 = SelectionTool.resizing /\
          SelectionTool._active_handle s1 = Some SelectionTool.H_e /\
          match SelectionTool.mouse_move s1 (ev 30 18) with
          | Some s2 =>
              SelectionTool._rect s2 = QRect_xywh 10 10 20 2 /\
              ~ (4 <= rect_height (SelectionTool._rect s2))
          | None => False
          end
      | None => False
      end
  | None => False
  end.
Proof. vm_compute. repeat split; try reflexivity. intros L. by apply L. Qed.

Lemma resize_east_handle_and_floor_witness :
  let s := SelectionTool.with_state
             (SelectionTool.with_rect SelectionTool._reset (QRect_xywh 10 10 40 40))
             SelectionTool.selected in
  let c := Canvas.init 100 100 in
  let press := mkMouseEvent (mkQPoint 50 30) LeftButton false in
  let mv := mkMouseEvent (mkQPoint 90 33) LeftButton false in
  exists s1 s2,
    SelectionTool.mouse_press s c press = Some (s1, c) /\
    SelectionTool.mouse_move s1 mv = Some s2 /\
    SelectionTool._rect s2 = QRect_xywh 10 10 80 40.
Proof.
  destruct (proj1 resize_east_handle_and_floor
              (SelectionTool.with_state
                 (SelectionTool.with_rect SelectionTool._reset (QRect_xywh 10 10 40 40))
                 SelectionTool.selected)
              (Canvas.init 100 100)
              (mkMouseEvent (mkQPoint 50 30) LeftButton false)
              (mkMouseEvent (mkQPoint 90 33) LeftButton false) 10 10)
    as (s1 & anchor & s2 & Ep & _ & _ & _ & _ & Em & Hr & _);
    try reflexivity.
  exists s1, s2. split; [exact Ep|]. split; [exact Em|exact Hr].
Defined.




(** *** Further properties at explicit inputs *)

Lemma redo_then_undo_restores_buffer_witness :
  let c := Canvas.undo (Canvas.save_undo (Canvas.init 2 2)) in
  Canvas._redo_stack c <> [] /\
  Canvas.pixmap (Canvas.undo (Canvas.redo c)) = Canvas.pixmap c.
Proof.
  intros c.
  assert (H1 : Canvas._redo_stack c <> []) by (vm_compute; discriminate).
  assert (H2 : hasAlphaChannel (Canvas.pixmap c) = true) by reflexivity.
  split; [exact H1|].
  exact (proj1 (proj1 (redo_then_undo_restores_buffer c) H1 H2)).
Defined.

Lemma undo_restores_saved_buffer_witness :
  let c := Canvas.init 2 2 in
  Canvas.pixmap (Canvas.undo (Canvas.save_undo c)) = Canvas.pixmap c.
Proof.
  intros c.
  assert (H1 : hasAlphaChannel (Canvas.pixmap c) = true) by reflexivity.
  assert (H2 : Canvas._undo_stack (Canvas.save_undo c)
               = Canvas._undo_stack (Canvas.save_undo c)) by reflexivity.
  exact (proj1 (undo_restores_saved_buffer c (Canvas.save_undo c) H1 H2)).
Defined.



Lemma pick_then_fill_is_noop_witness :
  let c := Canvas.init 2 2 in
  let pick := mkMouseEvent (mkQPoint 0 0) LeftButton false in
  let press := mkMouseEvent (mkQPoint 1 1) LeftButton false in
  FillTool.mouse_press (PickerTool.mouse_press c pick) press
    = Some (PickerTool.mouse_press c pick).
Proof.
  intros c pick press.
  pose proof (pick_then_fill_is_noop c pick press) as T. cbv zeta in T.
  assert (H1 : in_bounds (pm_width (Canvas.pixmap c)) (pm_height (Canvas.pixmap c))
                         (pt_x (ev_pos pick)) (pt_y (ev_pos pick)) = true) by reflexivity.
  assert (H2 : in_bounds (pm_width (Canvas.pixmap c)) (pm_height (Canvas.pixmap c))
                         (pt_x (ev_pos press)) (pt_y (ev_pos press)) = true) by reflexivity.
  assert (H3 : ev_button pick = LeftButton <-> ev_button press = LeftButton) by done.
  assert (H4 : pixelColor (Canvas.pixmap c) (pt_x (ev_pos press)) (pt_y (ev_pos press))
               = pixelColor (Canvas.pixmap c) (pt_x (ev_pos pick)) (pt_y (ev_pos pick)))
    by reflexivity.
  exact (proj2 (proj2 (proj2 (proj2 (T H1 H2 H3 H4))))).
Defined.

Lemma alpha_flood_fill_clears_component_witness :
  let c := Canvas.init 2 2 in
  let event := mkMouseEvent (mkQPoint 0 0) LeftButton true in
  exists c',
    AlphaBrushTool.mouse_press_shift c event = Some c' /\
    pixelColor (Canvas.pixmap c') 0 0 = mkQColor 0 0 0 0.
Proof.
  intros c event.
  pose proof (alpha_flood_fill_clears_component c event) as T. cbv zeta in T.
  assert (H1 : in_bounds (pm_width (Canvas.pixmap c)) (pm_height (Canvas.pixmap c))
                         (pt_x (ev_pos event)) (pt_y (ev_pos event)) = true) by reflexivity.
  assert (H2 : alpha (pixelColor (Canvas.pixmap c) (pt_x (ev_pos event)) (pt_y (ev_pos event)))
               <> 0) by (vm_compute; discriminate).
  assert (H3 : hasAlphaChannel (Canvas.pixmap c) = true) by reflexivity.
  destruct (T H1 H2 H3) as (c' & E & _ & _ & Hc & _).
  exists c'. split; [exact E|].
  apply (Hc 0 0). apply connected_seed. reflexivity.
Defined.

Lemma move_translates_by_pointer_delta_witness :
  let s := SelectionTool.with_state
             (SelectionTool.with_rect SelectionTool._reset (QRect_xywh 10 10 40 40))
             SelectionTool.selected in
  let c := Canvas.init 100 100 in
  let press := mkMouseEvent (mkQPoint 30 30) LeftButton false in
  let m := mkMouseEvent (mkQPoint 37 25) LeftButton false in
  exists s1 s2,
    SelectionTool.mouse_press s c press = Some (s1, c) /\
    SelectionTool.mouse_move s1 m = Some s2 /\
    SelectionTool._rect s2 = QRect_xywh 17 5 40 40.
Proof.
  intros s c press m.
  pose proof (move_translates_by_pointer_delta s c press m m) as T.
  assert (H1 : ev_button press = LeftButton) by reflexivity.
  assert (H2 : SelectionTool._state s = SelectionTool.selected) by reflexivity.
  assert (H3 : SelectionTool._hit_handle s c (ev_pos press) = Some None) by reflexivity.
  assert (H4 : SelectionTool._point_in_selection s (ev_pos press) = true) by reflexivity.
  assert (H5 : 0 <= x1 (SelectionTool._rect s) + x2 (SelectionTool._rect s)) by (simpl; lia).
  assert (H6 : 0 <= y1 (SelectionTool._rect s) + y2 (SelectionTool._rect s)) by (simpl; lia).
  destruct (T H1 H2 H3 H4 H5 H6) as (s1 & s2 & Ep & _ & Em & Hr & _).
  exists s1, s2. split; [exact Ep|]. split; [exact Em|]. exact Hr.
Defined.


Lemma select_all_then_commit_restores_witness :
  let c := Canvas.init 2 2 in
  exists s1 c1 c2,
    SelectionTool.select_all SelectionTool._reset c = Some (s1, c1) /\
    SelectionTool._commit s1 c1 = Some c2 /\
    pixelColor (Canvas.pixmap c2) 1 1 = pixelColor (Canvas.pixmap c) 1 1.
Proof.
  intros c.
  assert (H1 : SelectionTool.floating (SelectionTool._state SelectionTool._reset) = false)
    by reflexivity.
  assert (H2 : 1 <= pm_width (Canvas.pixmap c)) by (vm_compute; discriminate).
  assert (H3 : 1 <= pm_height (Canvas.pixmap c)) by (vm_compute; discriminate).
  destruct (select_all_then_commit_restores SelectionTool._reset c H1 H2 H3)
    as (s1 & c1 & c2 & E & _ & _ & _ & _ & _ & _ & _ & _ & Ec & _ & _ & Hp & _).
  exists s1, c1, c2. split; [exact E|]. split; [exact Ec|]. apply Hp.
Defined.


Lemma selection_session_never_raises_witness :
  let ev x y := mkMouseEvent (mkQPoint x y) LeftButton false in
  let events := [EvPress (ev 1 1); EvMove (ev 3 3); EvRelease (ev 3 3);
                 EvSelectAll; EvDeactivate] in
  exists s' c',
    for_each events tool_step (SelectionTool._reset, Canvas.init 4 4) = Some (s', c').
Proof.
  intros ev events.
  assert (H1 : Qeq_bool (Canvas.zoom (Canvas.init 4 4)) 0 = false) by reflexivity.
  assert (H2 : gesture_ready SelectionTool._reset) by exact I.
  destruct (selection_session_never_raises SelectionTool._reset (Canvas.init 4 4) events H1 H2)
    as (s' & c' & E & _).
  exists s', c'. exact E.
Defined.

Lemma press_raises_at_zoom_zero_witness :
  let s := SelectionTool.with_state
             (SelectionTool.with_rect SelectionTool._reset (QRect_xywh 1 1 2 2))
             SelectionTool.selected in
  let c := View.with_zoom (Canvas.init 4 4) 0 in
  SelectionTool.mouse_press s c (mkMouseEvent (mkQPoint 0 0) LeftButton false) = None.
Proof.
  intros s c.
  apply (press_raises_at_zoom_zero s c (mkMouseEvent (mkQPoint 0 0) LeftButton false)).
  - reflexivity.
  - left. reflexivity.
  - reflexivity.
Defined.

Lemma zoom_stays_in_range_witness :
  let v := View.mk (Canvas.init 2 2) (mkQPoint 40 40) 100 100 in
  exists v',
    for_each [ZoomIn; ZoomOut; ZoomReset; ZoomSet 1000 None] zoom_step v = Some v' /\
    zoom_in_range v'.
Proof.
  intros v.
  assert (H1 : zoom_in_range v).
  { unfold zoom_in_range, Qle. simpl. lia. }
  destruct (zoom_stays_in_range v [ZoomIn; ZoomOut; ZoomReset; ZoomSet 1000 None] H1)
    as (v' & E & Hr & _).
  exists v'. split; [exact E|exact Hr].
Defined.

Lemma canvas_pos_of_position_over_canvas_witness :
  let v := View.mk (Canvas.init 2 2) (mkQPoint 40 40) 100 100 in
  exists p, View._canvas_pos v (mkQPoint 41 40) = Some p /\
            in_bounds 2 2 (pt_x p) (pt_y p) = true.
Proof.
  intros v.
  assert (H1 : Qeq_bool (View.zoom v) 0 = false) by reflexivity.
  destruct (canvas_pos_of_position_over_canvas v (mkQPoint 41 40) H1)
    as (p & over & Ep & Eo & Hin & _).
  assert (Ho : View._is_over_canvas v (mkQPoint 41 40) = Some true) by reflexivity.
  exists p. split; [exact Ep|]. apply Hin. congruence.
Defined.

Lemma flip_mirrors_the_buffer_witness :
  let c := Canvas.init 2 2 in
  exists ch,
    CanvasOps.flip_horizontal SelectionTool._reset c = Some (SelectionTool._reset, ch) /\
    pm_width (Canvas.pixmap ch) = 2.
Proof.
  intros c.
  assert (H1 : hasAlphaChannel (Canvas.pixmap c) = true) by reflexivity.
  destruct (flip_mirrors_the_buffer SelectionTool._reset c H1)
    as (s1 & c1 & ch & cv & Ec & Eh & _ & Hd & _).
  assert (Es : s1 = SelectionTool._reset /\ c1 = c).
  { assert (E0 : CanvasOps.commit_selection SelectionTool._reset c
                 = Some (SelectionTool._reset, c)) by reflexivity.
    rewrite E0 in Ec. by injection Ec as <- <-. }
  destruct Es as [-> ->].
  exists ch. split; [exact Eh|]. exact (proj1 Hd).
Defined.

Lemma flip_twice_restores_witness :
  let c := Canvas.init 2 2 in
  exists ch ch2,
    CanvasOps.flip_horizontal SelectionTool._reset c = Some (SelectionTool._reset, ch) /\
    CanvasOps.flip_horizontal SelectionTool._reset ch = Some (SelectionTool._reset, ch2) /\
    pixelColor (Canvas.pixmap ch2) 0 1 = pixelColor (Canvas.pixmap c) 0 1.
Proof.
  intros c.
  assert (H1 : hasAlphaChannel (Canvas.pixmap c) = true) by reflexivity.
  destruct (flip_twice_restores SelectionTool._reset c H1)
    as (s1 & c1 & ch & ch2 & cv & cv2 & Ec & Eh & Eh2 & _ & _ & Hp & _).
  assert (Es : s1 = SelectionTool._reset /\ c1 = c).
  { assert (E0 : CanvasOps.commit_selection SelectionTool._reset c
                 = Some (SelectionTool._reset, c)) by reflexivity.
    rewrite E0 in Ec. by injection Ec as <- <-. }
  destruct Es as [-> ->].
  exists ch, ch2. split; [exact Eh|]. split; [exact Eh2|]. apply Hp.
Defined.

Lemma select_all_delete_undo_restores_witness :
  let c := Canvas.init 2 2 in
  exists s1 c1,
    SelectionTool.select_all SelectionTool._reset c = Some (s1, c1) /\
    Canvas.pixmap (Canvas.undo (SelectionTool.delete_selection s1 c1).2) = Canvas.pixmap c.
Proof.
  intros c.
  assert (H1 : SelectionTool.floating (SelectionTool._state SelectionTool._reset) = false)
    by reflexivity.
  assert (H2 : hasAlphaChannel (Canvas.pixmap c) = true) by reflexivity.
  destruct (select_all_delete_undo_restores SelectionTool._reset c H1 H2)
    as (s1 & c1 & E & T).
  cbv zeta in T. destruct T as (_ & _ & _ & _ & Hu & _).
  exists s1, c1. split; [exact E|exact Hu].
Defined.

Lemma paste_floats_then_commits_witness :
  let c := Canvas.init 2 2 in
  let pixmap := mkQPixmap 1 1 true (fun _ _ => Qt_black) in
  exists s1,
    SelectionTool.paste SelectionTool._reset c pixmap (Some (mkQPoint 1 1))
      = Some (s1, Canvas.save_undo c) /\
    SelectionTool._rect s1 = QRect_xywh 1 1 1 1.
Proof.
  intros c pixmap.
  pose proof (paste_floats_then_commits SelectionTool._reset c pixmap (Some (mkQPoint 1 1)))
    as T. cbv zeta in T.
  assert (H1 : SelectionTool.floating (SelectionTool._state SelectionTool._reset) = false)
    by reflexivity.
  assert (H2 : 1 <= pm_width pixmap <= pm_width (Canvas.pixmap c))
    by (split; vm_compute; discriminate).
  assert (H3 : 1 <= pm_height pixmap <= pm_height (Canvas.pixmap c))
    by (split; vm_compute; discriminate).
  destruct (T H1 H2 H3) as (s1 & E & _ & Hr & _).
  exists s1. split; [exact E|exact Hr].
Defined.



Lemma trim_then_accept_keeps_content_witness :
  let pm := mkQPixmap 3 2 true
              (fun x y => if (x =? 1) && (y =? 0) then Qt_black
                          else if (x =? 2) && (y =? 1) then mkQColor 255 0 0 255
                          else Qt_white) in
  let c := Canvas.with_pixmap (Canvas.init 3 2) pm in
  exists d1 c',
    ResizeDialog._on_trim (PaintApp.resize_dialog c) = Some d1 /\
    PaintApp._image_resize_accepted SelectionTool._reset c d1
      = Some (SelectionTool._reset, c').
Proof.
  intros pm c.
  pose proof (trim_then_accept_keeps_content SelectionTool._reset c 1 0) as T.
  cbv zeta in T.
  assert (H1 : SelectionTool.has_selection SelectionTool._reset = false) by reflexivity.
  assert (H2 : pm_width (Canvas.pixmap c) <= 10000) by (vm_compute; discriminate).
  assert (H3 : pm_height (Canvas.pixmap c) <= 10000) by (vm_compute; discriminate).
  assert (H4 : 0 <= 1 < pm_width (Canvas.pixmap c)) by (split; vm_compute; congruence).
  assert (H5 : 0 <= 0 < pm_height (Canvas.pixmap c)) by (split; vm_compute; congruence).
  assert (H6 : is_content (Canvas.pixmap c) 1 0 = true) by reflexivity.
  destruct (T H1 H2 H3 H4 H5 H6) as (d1 & c' & mx & my & E & _ & Ea & _).
  exists d1, c'. split; [exact E|exact Ea].
Defined.

Lemma cut_then_paste_keeps_size_witness :
  let c := Canvas.init 4 4 in
  let snippet := mkQPixmap 2 2 true (fun _ _ => Qt_black) in
  let s := SelectionTool.with_state
             (SelectionTool.with_snippet
                (SelectionTool.with_rect SelectionTool._reset (QRect_xywh 1 1 2 2))
                (Some snippet))
             SelectionTool.selected in
  exists pm,
    SelectionTool.cut_selection s c None
      = Some (SelectionTool._reset, Canvas.set_modified c true, Some pm) /\
    pm = snippet.
Proof.
  intros c snippet s.
  assert (H1 : SelectionTool._snippet s = Some snippet) by reflexivity.
  assert (H2 : isNull snippet = false) by reflexivity.
  assert (H3 : Qlt_bool (Qabs (SelectionTool._angle s)) (1 # 100) = true) by reflexivity.
  destruct (cut_then_paste_keeps_size s c snippet None None H1 H2 H3)
    as (pm & s2 & c2 & _ & Ecut & _ & Hsame & _).
  exists pm. split; [exact Ecut|]. apply Hsame. reflexivity.
Defined.


Lemma cursor_at_never_raises_witness :
  let s := SelectionTool.with_state
             (SelectionTool.with_rect SelectionTool._reset (QRect_xywh 10 10 40 40))
             SelectionTool.selected in
  let c := Canvas.init 100 100 in
  exists cur, SelectionTool.cursor_at s c (mkQPoint 50 30) = Some cur.
Proof.
  intros s c.
  assert (H1 : Qeq_bool (Canvas.zoom c) 0 = false) by reflexivity.
  assert (H2 : gesture_ready s) by exact I.
  destruct (cursor_at_never_raises s c (mkQPoint 50 30) H1 H2) as (cur & E & _).
  exists cur. exact E.
Defined.

End ConcreteRuns.
